(** * simple-podcast-sync: a shallow embedding of [podcast_sync.py]

    The development follows the source file top to bottom:
    the string helpers of the Python library that the program calls,
    [sanitize_filename], the two data classes, the catalog reader
    ([PodcastLibrary]), the device operations ([DeviceManager]) and the
    batch driver ([PodcastSyncApp.apply_changes]); then the search for the
    store ([_find_podcasts_database]), [unmount] and the handlers of the
    screens.

    Modelling conventions.
    - A Python [str] is a [string]; the helpers work on its list of
      characters.  Characters are 8-bit; the program only ever compares
      characters with ASCII constants.
    - A [pathlib.Path] is the list of its components, taken from the
      file-system root.
    - The file system is a finite map from paths to nodes.  Elementary
      operations ([exists], [stat], [unlink], [mkdir]) are functions on that
      map; the external programs and the library calls that may fail for
      reasons of their own (ffmpeg, [shutil.move], [tempfile], the clock)
      are fields of an environment record and are left arbitrary.
    - A function that prints a message and returns a boolean returns an
      [outcome] naming the return site; [outcome_ok] is the boolean.
    - [console.print] of a message that interpolates a title, a name, a
      path or the text of an error parses the result as console markup and
      may raise; whether a given string is printed is left to the
      environment.  An exception that leaves a function is an outcome of
      its own, and ends the loop that made the call. *)

From Stdlib Require Import ZArith Ascii String List Lia.
From stdpp Require Import base tactics option list sorting strings gmap fin_maps.

#[local] Open Scope Z_scope.

(* ===================================================================== *)
(** ** Python [str] helpers                                               *)
(* ===================================================================== *)

Module Str.

Definition chars (s : string) : list ascii := list_ascii_of_string s.
Definition of_chars (l : list ascii) : string := string_of_list_ascii l.

(** [lift f] runs a character-list transformer on a string. *)
Definition lift (f : list ascii → list ascii) (s : string) : string :=
  of_chars (f (chars s)).

Definition len (s : string) : nat := length (chars s).

(** [is_prefix p s]: [s] starts with [p]. *)
Fixpoint is_prefix (p s : list ascii) : bool :=
  match p, s with
  | [], _ => true
  | a :: p', b :: s' => if decide (a = b) then is_prefix p' s' else false
  | _ :: _, [] => false
  end.

(** [s.startswith(p)] *)
Definition startswith (p s : string) : bool := is_prefix (chars p) (chars s).

(** [s.replace(old, new)] for a non-empty [old]: a left-to-right scan
    replacing non-overlapping occurrences.  [skip] counts the characters
    of a matched occurrence that are still to be dropped. *)
Fixpoint replace_go (old new : list ascii) (skip : nat) (s : list ascii)
  : list ascii :=
  match s with
  | [] => []
  | c :: s' =>
      match skip with
      | S k => replace_go old new k s'
      | O =>
          if is_prefix old s
          then new ++ replace_go old new (Nat.pred (length old)) s'
          else c :: replace_go old new O s'
      end
  end.

Definition replace (old new s : string) : string :=
  lift (replace_go (chars old) (chars new) O) s.

(** [re.sub] of a character class (given as a predicate) by the empty
    string: the matching characters are removed. *)
Definition re_sub_class (cls : ascii → bool) (s : string) : string :=
  lift (filter (λ c, cls c = false)) s.

Definition in_set (set : list ascii) (c : ascii) : bool :=
  bool_decide (c ∈ set).

Fixpoint lstrip_go (set : list ascii) (s : list ascii) : list ascii :=
  match s with
  | [] => []
  | c :: s' => if in_set set c then lstrip_go set s' else s
  end.

Definition rstrip_go (set : list ascii) (s : list ascii) : list ascii :=
  reverse (lstrip_go set (reverse s)).

(** [s.strip(set)]: drops the leading and the trailing characters that
    belong to [set]. *)
Definition strip (set s : string) : string :=
  lift (λ l, rstrip_go (chars set) (lstrip_go (chars set) l)) s.

(** [s[:n]] *)
Definition slice_to (n : nat) (s : string) : string := lift (take n) s.

(** [s.rfind(c)] for a single character: the last index of [c]. *)
Fixpoint rfind (c : ascii) (s : list ascii) : option nat :=
  match s with
  | [] => None
  | a :: s' =>
      match rfind c s' with
      | Some i => Some (S i)
      | None => if decide (a = c) then Some O else None
      end
  end.

Definition to_lower (c : ascii) : ascii :=
  let n := nat_of_ascii c in
  if (65 <=? n)%nat && (n <=? 90)%nat then ascii_of_nat (n + 32) else c.

(** [s.lower()] on the ASCII letters. *)
Definition lower (s : string) : string := lift (map to_lower) s.

(** [s.split(sep)] for a single-character separator. *)
Fixpoint split_go (sep : ascii) (cur : list ascii) (s : list ascii)
  : list (list ascii) :=
  match s with
  | [] => [reverse cur]
  | c :: s' =>
      if decide (c = sep) then reverse cur :: split_go sep [] s'
      else split_go sep (c :: cur) s'
  end.

Definition split (sep : ascii) (s : string) : list string :=
  map of_chars (split_go sep [] (chars s)).

(** [sep.join(parts)] *)
Fixpoint join (sep : string) (parts : list string) : string :=
  match parts with
  | [] => EmptyString
  | [p] => p
  | p :: ps => p +:+ sep +:+ join sep ps
  end.

(** [first s] and [last s]: the end characters of a string, if any. *)
Definition first (s : string) : option ascii := head (chars s).
Definition final (s : string) : option ascii := last (chars s).

End Str.

(* ===================================================================== *)
(** ** [sanitize_filename]                                                *)
(* ===================================================================== *)

(** The character class of the regular expression: the nine characters
    less-than, greater-than, colon, double quote (code 34), slash,
    backslash, bar, question mark and star. *)
Definition invalid_filename_char (c : ascii) : bool :=
  Str.in_set ["<"; ">"; ":"; "034"; "/"; "\"; "|"; "?"; "*"]%char c.

Definition sanitize_filename (text : string) : string :=
  (* Replace spaces with underscores *)
  let text := Str.replace " " "_" text in
  (* Remove invalid filename characters *)
  let text := Str.re_sub_class invalid_filename_char text in
  (* Remove leading/trailing whitespace/dots *)
  let text := Str.strip " ." text in
  (* Limit length to avoid issues with filesystems *)
  Str.slice_to 200 text.

(* ===================================================================== *)
(** ** [pathlib]                                                          *)
(* ===================================================================== *)

(** A path is the list of its components below the file-system root. *)
Abbreviation path := (list string).

Module Pathlib.

(** The components of a path string: split at the slashes; empty
    components and single dots are dropped, as [pathlib] does when it
    parses. *)
Definition parts (s : string) : list string :=
  filter (λ c, c ≠ "" ∧ c ≠ ".") (Str.split "/" s).

(** [Path(s)] *)
Definition Path (s : string) : path := parts s.

(** [p / s]: an absolute [s] replaces [p]. *)
Definition joinpath (p : path) (s : string) : path :=
  if Str.startswith "/" s then parts s else p ++ parts s.

(** [str(p)] for an absolute and for a relative path. *)
Definition str (p : path) : string := "/" +:+ Str.join "/" p.
Definition str_rel (p : path) : string := Str.join "/" p.

(** [p.name]: the final component, empty for the root. *)
Definition name (p : path) : string := default "" (last p).

(** [p.suffix]: the final component from its last dot on, when that dot is
    neither its first nor its last character (CPython up to 3.13). *)
Definition suffix (p : path) : string :=
  let name := name p in
  match Str.rfind "." (Str.chars name) with
  | Some i =>
      if bool_decide (0 < i < Str.len name - 1)%nat
      then Str.lift (drop i) name
      else ""
  | None => ""
  end.

(** [p.relative_to(root)]: the components of [p] below [root]; [None]
    stands for the [ValueError] raised when [p] is not below [root]. *)
Fixpoint relative_to (root p : path) : option path :=
  match root, p with
  | [], _ => Some p
  | r :: root', c :: p' =>
      if decide (r = c) then relative_to root' p' else None
  | _ :: _, [] => None
  end.

End Pathlib.

Notation "p // s" := (Pathlib.joinpath p s) (at level 40, left associativity).

(* ===================================================================== *)
(** ** [datetime]                                                         *)
(* ===================================================================== *)

(** Whole seconds only: the microsecond field is not modelled. *)
Record datetime : Type := mk_datetime {
  year : Z; month : Z; day : Z; hour : Z; minute : Z; second : Z
}.

#[global] Instance datetime_eq_dec : EqDecision datetime.
Proof. solve_decision. Defined.

Module Datetime.

Definition MAXORDINAL : Z := 3652059.

Definition is_leap (y : Z) : bool :=
  (y mod 4 =? 0) && (negb (y mod 100 =? 0) || (y mod 400 =? 0)).

Definition days_before_year (y : Z) : Z :=
  let y := y - 1 in y * 365 + y / 4 - y / 100 + y / 400.

Definition DAYS_IN_MONTH : list Z :=
  [-1; 31; 28; 31; 30; 31; 30; 31; 31; 30; 31; 30; 31].

Definition DAYS_BEFORE_MONTH : list Z :=
  [-1; 0; 31; 59; 90; 120; 151; 181; 212; 243; 273; 304; 334].

Definition table (t : list Z) (m : Z) : Z := nth (Z.to_nat m) t 0.

Definition b2z (b : bool) : Z := if b then 1 else 0.

Definition days_before_month (y m : Z) : Z :=
  table DAYS_BEFORE_MONTH m + b2z ((2 <? m) && is_leap y).

(** [date.toordinal()]: 0001-01-01 is day 1. *)
Definition ymd2ord (y m d : Z) : Z :=
  days_before_year y + days_before_month y m + d.

Definition DI400Y : Z := days_before_year 401.
Definition DI100Y : Z := days_before_year 101.
Definition DI4Y : Z := days_before_year 5.

(** [date.fromordinal(n)] *)
Definition ord2ymd (n : Z) : Z * Z * Z :=
  let n := n - 1 in
  let n400 := n / DI400Y in let n := n mod DI400Y in
  let y := n400 * 400 + 1 in
  let n100 := n / DI100Y in let n := n mod DI100Y in
  let n4 := n / DI4Y in let n := n mod DI4Y in
  let n1 := n / 365 in let n := n mod 365 in
  let y := y + n100 * 100 + n4 * 4 + n1 in
  if (n1 =? 4) || (n100 =? 4) then (y - 1, 12, 31)
  else
    let leapyear := (n1 =? 3) && (negb (n4 =? 24) || (n100 =? 3)) in
    let m := Z.shiftr (n + 50) 5 in
    let preceding := table DAYS_BEFORE_MONTH m + b2z ((2 <? m) && leapyear) in
    if n <? preceding
    then
      let m := m - 1 in
      let preceding :=
        preceding - (table DAYS_IN_MONTH m + b2z ((m =? 2) && leapyear)) in
      (y, m, n - preceding + 1)
    else (y, m, n - preceding + 1).

(** [dt + timedelta(seconds=s)]; [None] stands for the [OverflowError]
    raised when the time delta or the resulting date is out of range. *)
Definition add_seconds (dt : datetime) (s : Z) : option datetime :=
  if 999999999 <? Z.abs (s / 86400) then None
  else
    let total :=
      hour dt * 3600 + minute dt * 60 + second dt + s in
    let days := ymd2ord (year dt) (month dt) (day dt) + total / 86400 in
    let secs := total mod 86400 in
    if (0 <? days) && (days <=? MAXORDINAL)
    then
      let '(y, m, d) := ord2ymd days in
      Some (mk_datetime y m d (secs / 3600) (secs mod 3600 / 60) (secs mod 60))
    else None.

End Datetime.

(* ===================================================================== *)
(** ** The data classes                                                   *)
(* ===================================================================== *)

(** [class PodcastEpisode] *)
Record PodcastEpisode : Type := mk_PodcastEpisode {
  title : string;
  podcast : string;
  file_path : string;
  date_added : datetime;
  selected : bool
}.

(** [PodcastEpisode.__init__]: a new episode is not selected. *)
Definition new_PodcastEpisode (title podcast file_path : string)
    (date_added : datetime) : PodcastEpisode :=
  mk_PodcastEpisode title podcast file_path date_added false.

(** [PodcastEpisode.filename] *)
Definition filename (self : PodcastEpisode) : string :=
  let original_path := Pathlib.Path (file_path self) in
  let extension := Pathlib.suffix original_path in
  (* Ensure extension is not empty, default to .mp3 if it is *)
  let extension := if decide (extension = "") then ".mp3" else extension in
  let sanitized_title := sanitize_filename (title self) in
  sanitized_title +:+ extension.

(** [class DeviceFile]; [df_path] is kept as a path: the round trip through
    [str] and [Path] that the source makes is elided. *)
Record DeviceFile : Type := mk_DeviceFile {
  df_name : string;
  df_path : path;
  keep : bool
}.

(** [DeviceFile.__init__]: the default is to remove the file. *)
Definition new_DeviceFile (name : string) (p : path) : DeviceFile :=
  mk_DeviceFile name p false.

#[global] Instance DeviceFile_eq_dec : EqDecision DeviceFile.
Proof. solve_decision. Defined.

(* ===================================================================== *)
(** ** The file system                                                    *)
(* ===================================================================== *)

Inductive kind : Type := RegularFile | Directory.

#[global] Instance kind_eq_dec : EqDecision kind.
Proof. solve_decision. Defined.

(** What [stat] reports of a path. *)
Record node : Type := mk_node {
  node_kind : kind;
  st_size : Z;
  st_mtime : Z
}.

#[global] Instance node_eq_dec : EqDecision node.
Proof. solve_decision. Defined.

Abbreviation fsys := (gmap path node).

Module FS.

(** [p.exists()] *)
Definition exists_ (fs : fsys) (p : path) : bool :=
  bool_decide (is_Some (fs !! p)).

Definition has_kind (k : kind) (fs : fsys) (p : path) : bool :=
  match fs !! p with
  | Some n => bool_decide (node_kind n = k)
  | None => false
  end.

(** [p.is_dir()] and [p.is_file()] *)
Definition is_dir : fsys → path → bool := has_kind Directory.
Definition is_file : fsys → path → bool := has_kind RegularFile.

(** [p.exists() and p.stat().st_size > 0] *)
Definition exists_nonempty (fs : fsys) (p : path) : bool :=
  match fs !! p with
  | Some n => 0 <? st_size n
  | None => false
  end.

(** [p.unlink()]: removes a regular file, unless the operating system
    refuses (permissions, a read-only medium); [None] stands for the
    exception raised then, and on a missing path or on a directory.
    [refused] tells for which paths, in which state, the system refuses. *)
Definition unlink (refused : path → fsys → bool) (p : path) (fs : fsys)
  : option fsys :=
  if is_file fs p && negb (refused p fs) then Some (delete p fs) else None.

(** [p.unlink(missing_ok=True)] inside [try ... except Exception: pass],
    of the temporary file that the call made itself, in the temporary
    directory of the process: its removal is not refused. *)
Definition unlink_quietly (p : path) (fs : fsys) : fsys :=
  if is_file fs p then delete p fs else fs.

Definition new_directory : node := mk_node Directory 0 0.

(** [p.mkdir(parents=True, exist_ok=True)] for a [p] whose parent exists:
    nothing happens on a directory, [None] stands for the
    [FileExistsError] raised when [p] is something else. *)
Definition mkdir (p : path) (fs : fsys) : option fsys :=
  match fs !! p with
  | Some n => if bool_decide (node_kind n = Directory) then Some fs else None
  | None => Some (<[p := new_directory]> fs)
  end.

(** [root.glob] with the pattern of every path at any depth: the paths
    strictly below [root]. *)
Definition below (root p : path) : bool :=
  match Pathlib.relative_to root p with
  | Some (_ :: _) => true
  | _ => false
  end.

Definition glob_all (root : path) (fs : fsys) : list path :=
  filter (λ p, below root p = true) (map fst (map_to_list fs)).

End FS.

(* ===================================================================== *)
(** ** The catalog store                                                  *)
(* ===================================================================== *)

(** The two tables of [MTLibrary.sqlite] that the query reads, with the
    columns it names.  A column holds [None] for SQL NULL.  Time stamps are
    whole seconds. *)
Record episode_row : Type := mk_episode_row {
  ZTITLE : option string;
  ZPODCAST : option Z;
  ZASSETURL : option string;
  ZDOWNLOADDATE : option Z;
  ZLASTDATEPLAYED : option Z
}.

Record podcast_row : Type := mk_podcast_row {
  Z_PK : Z;
  PODCAST_ZTITLE : option string
}.

Record database : Type := mk_database {
  ZMTEPISODE : list episode_row;
  ZMTPODCAST : list podcast_row
}.

(** A row of the result set. *)
Record row : Type := mk_row {
  episode_title : option string;
  podcast_title : option string;
  file_url : option string;
  download_date : option Z;
  last_played : option Z
}.

#[global] Instance row_eq_dec : EqDecision row.
Proof. solve_decision. Defined.

Module Sql.

(** [FROM ZMTEPISODE e JOIN ZMTPODCAST p ON e.ZPODCAST = p.Z_PK] *)
Definition join (db : database) : list row :=
  e ← ZMTEPISODE db;
  p ← ZMTPODCAST db;
  if decide (ZPODCAST e = Some (Z_PK p))
  then [mk_row (ZTITLE e) (PODCAST_ZTITLE p) (ZASSETURL e)
               (ZDOWNLOADDATE e) (ZLASTDATEPLAYED e)]
  else [].

(** [WHERE e.ZASSETURL IS NOT NULL AND e.ZASSETURL != ''
    AND e.ZDOWNLOADDATE IS NOT NULL] *)
Definition where_ (r : row) : Prop :=
  file_url r ≠ None ∧ file_url r ≠ Some "" ∧ download_date r ≠ None.

#[global] Instance where_dec r : Decision (where_ r).
Proof. unfold where_. apply _. Defined.

Definition date_key (r : row) : Z := default 0 (download_date r).

(** [newer a b]: [a] may come before [b] under
    [ORDER BY e.ZDOWNLOADDATE DESC]. *)
Definition newer (a b : row) : Prop := date_key b ≤ date_key a.

#[global] Instance newer_dec a b : Decision (newer a b).
Proof. unfold newer. apply _. Defined.

Definition order_by_desc (rows : list row) : list row :=
  merge_sort newer rows.

(** [LIMIT n]: a negative [n] is no limit. *)
Definition limit_ (n : Z) (rows : list row) : list row :=
  if n <? 0 then rows else take (Z.to_nat n) rows.

Definition query (db : database) (limit : Z) : list row :=
  limit_ limit (order_by_desc (filter where_ (join db))).

(** A parameter is bound as a signed 64-bit integer; anything else raises
    [OverflowError]. *)
Definition bindable (n : Z) : bool :=
  (- 2 ^ 63 <=? n) && (n <? 2 ^ 63).

End Sql.

(** [urllib.parse.unquote]: percent-decoding of the bytes.  The decoding of
    the resulting bytes as UTF-8 is not modelled. *)
Module Urllib.

Definition hex_digit (c : ascii) : option nat :=
  let n := nat_of_ascii c in
  if (48 <=? n)%nat && (n <=? 57)%nat then Some (n - 48)%nat
  else if (65 <=? n)%nat && (n <=? 70)%nat then Some (n - 55)%nat
  else if (97 <=? n)%nat && (n <=? 102)%nat then Some (n - 87)%nat
  else None.

Fixpoint unquote_go (s : list ascii) : list ascii :=
  match s with
  | [] => []
  | c :: t =>
      match t with
      | h :: l :: s' =>
          match decide (c = "%"%char), hex_digit h, hex_digit l with
          | left _, Some a, Some b =>
              ascii_of_nat (16 * a + b) :: unquote_go s'
          | _, _, _ => c :: unquote_go t
          end
      | _ => c :: unquote_go t
      end
  end.

Definition unquote (s : string) : string := Str.lift unquote_go s.

End Urllib.

(* ===================================================================== *)
(** ** The environment                                                    *)
(* ===================================================================== *)

(** An operation that failed: what the exception [e] of a handler, or the
    error output of ffmpeg, is about. *)
Inductive failure : Type :=
  | Failed_mkdir (p : path)
  | Failed_unlink (p : path)
  | Failed_tempfile (suffix : string)
  | Failed_ffmpeg (source tmp : path)
  | Failed_move (tmp destination : path)
  | Failed_print (message : string).

#[global] Instance failure_eq_dec : EqDecision failure.
Proof. solve_decision. Defined.

(** What the program obtains from outside and cannot compute from the file
    system alone.  Every theorem below holds for every environment. *)
Record Env : Type := mk_Env {
  (** [datetime.now()] *)
  now : datetime;
  (** [sqlite3.connect] and the query: the store behind a path, or [None]
      when opening or reading it raises *)
  sqlite_open : path → option database;
  (** [shutil.which] finds ffmpeg *)
  which_ffmpeg : bool;
  (** [tempfile.NamedTemporaryFile(suffix=..., delete=False)]: the path of
      the new file and the file system holding it; [None] when it raises *)
  NamedTemporaryFile : string → fsys → option (path * fsys);
  (** [subprocess.run] of ffmpeg on a source and an output path: the return
      code and the file system it leaves *)
  run_ffmpeg : path → path → fsys → Z * fsys;
  (** [shutil.move]: the file system it leaves, and whether it returned
      ([true]) or raised ([false]) *)
  shutil_move : path → path → fsys → bool * fsys;
  (** the number of entries after which the directory walk raises, if any *)
  glob_fault : option nat;
  (** [console.print] of a message that interpolates text: [true] when it
      returns, [false] when it raises (rich's [MarkupError], as on an
      unmatched closing tag in the text) *)
  console_print : string → bool;
  (** whether the operating system refuses to unlink a path *)
  unlink_refused : path → fsys → bool;
  (** the text of a failure: [str(e)] of the exception it raised, and for
      ffmpeg [result.stderr.strip()] *)
  failure_text : failure → string
}.

(* ===================================================================== *)
(** ** [class PodcastLibrary]                                             *)
(* ===================================================================== *)

Record PodcastLibrary : Type := mk_PodcastLibrary {
  db_path : option path
}.

(** Python truthiness of an optional string and of an optional number. *)
Definition truthy_str (s : option string) : bool :=
  match s with
  | Some s => bool_decide (s ≠ "")
  | None => false
  end.

Definition truthy_num (n : option Z) : bool :=
  match n with
  | Some n => bool_decide (n ≠ 0)
  | None => false
  end.

(** [s or d] *)
Definition or_default (s : option string) (d : string) : string :=
  if truthy_str s then default d s else d.

(** The reference date of the stored time stamps. *)
Definition core_data_epoch : datetime := mk_datetime 2001 1 1 0 0 0.

(** What one turn of the loop over the rows does. *)
Inductive row_result : Type :=
  | Added (episode : PodcastEpisode)
  | Ignored            (* not a file URL: no branch taken *)
  | FileNotFound       (* the file is gone: a message, no episode *)
  | Raised.            (* an exception leaves the loop *)

Definition process_row (env : Env) (fs : fsys) (r : row) : row_result :=
  if truthy_str (file_url r)
     && Str.startswith "file://" (default "" (file_url r))
  then
    (* Decode URL and convert to path *)
    let file_path :=
      Urllib.unquote (Str.replace "file://" "" (default "" (file_url r))) in
    (* Check if file exists *)
    if FS.exists_ fs (Pathlib.Path file_path)
    then
      (* Convert Core Data timestamp to datetime *)
      (* Core Data uses seconds since 2001-01-01 *)
      let date_added :=
        if truthy_num (download_date r)
        then Datetime.add_seconds core_data_epoch (default 0 (download_date r))
        else Some (now env) in
      match date_added with
      | Some date_added =>
          Added (new_PodcastEpisode
                   (or_default (episode_title r) "Unknown Episode")
                   (or_default (podcast_title r) "Unknown Podcast")
                   file_path date_added)
      | None => Raised
      end
    else FileNotFound
  else Ignored.

(** The loop over the rows: [None] when a turn raises. *)
Fixpoint collect_episodes (env : Env) (fs : fsys) (rows : list row)
  : option (list PodcastEpisode) :=
  match rows with
  | [] => Some []
  | r :: rows' =>
      match process_row env fs r with
      | Raised => None
      | Added e => cons e <$> collect_episodes env fs rows'
      | Ignored | FileNotFound => collect_episodes env fs rows'
      end
  end.

(** [PodcastLibrary.get_recent_podcasts]; every exception ends in the empty
    list. *)
Definition get_recent_podcasts (env : Env) (fs : fsys)
    (self : PodcastLibrary) (limit : Z) : list PodcastEpisode :=
  match db_path self with
  | None => []
  | Some p =>
      match sqlite_open env p with
      | None => []
      | Some db =>
          if Sql.bindable limit
          then default [] (collect_episodes env fs (Sql.query db limit))
          else []
      end
  end.

(* ===================================================================== *)
(** ** [class DeviceManager]                                              *)
(* ===================================================================== *)

Record DeviceManager : Type := mk_DeviceManager {
  device_path : path
}.

(** [DeviceManager.__init__] *)
Definition new_DeviceManager : DeviceManager :=
  mk_DeviceManager (Pathlib.Path "/Volumes/XTRAINERZ").

(** [DeviceManager.is_connected] *)
Definition is_connected (self : DeviceManager) (fs : fsys) : bool :=
  FS.exists_ fs (device_path self) && FS.is_dir fs (device_path self).

Definition audio_extensions : list string :=
  [".mp3"; ".m4a"; ".aac"; ".wav"; ".flac"].

(** The test of the loop body of [get_device_files]. *)
Definition is_audio_file (fs : fsys) (file_path : path) : bool :=
  FS.is_file fs file_path
  && negb (Str.startswith "." (Pathlib.name file_path))
  && bool_decide (Str.lower (Pathlib.suffix file_path) ∈ audio_extensions).

(** The loop of [get_device_files] over the entries the walk yields; a
    [ValueError] of [relative_to] leaves the loop with what was gathered. *)
Fixpoint gather_files (self : DeviceManager) (fs : fsys) (entries : list path)
  : list DeviceFile :=
  match entries with
  | [] => []
  | file_path :: rest =>
      if is_audio_file fs file_path
      then
        match Pathlib.relative_to (device_path self) file_path with
        | Some relative_path =>
            new_DeviceFile (Pathlib.str_rel relative_path) file_path
              :: gather_files self fs rest
        | None => []
        end
      else gather_files self fs rest
  end.

(** The entries the walk yields before it raises. *)
Definition walked (env : Env) (entries : list path) : list path :=
  match glob_fault env with
  | Some k => take k entries
  | None => entries
  end.

(** [DeviceManager.get_device_files] *)
Definition get_device_files (env : Env) (self : DeviceManager) (fs : fsys)
  : list DeviceFile :=
  if negb (is_connected self fs) then []
  else gather_files self fs (walked env (FS.glob_all (device_path self) fs)).

(** The return sites of [copy_episode], each with the message it prints,
    and the exception that leaves the function when the handler itself
    raises. *)
Inductive outcome : Type :=
  | NotConnected        (* Error: Device not connected. *)
  | FfmpegNotFound      (* ffmpeg executable not found in PATH. *)
  | Skipped             (* Skipped: File already exists on device. *)
  | SourceNotFound      (* Error: Source file not found. *)
  | RemoveFailed        (* Error removing existing destination file *)
  | FfmpegFailed        (* Error processing audio with ffmpeg *)
  | MoveFailed          (* Error copying processed file to device *)
  | Copied              (* Success: Processed and copied to device. *)
  | VerificationFailed  (* Error: Verification failed after copying. *)
  | Unhandled           (* the outer exception handler *)
  | Raises (e : failure). (* no return: the exception propagates *)

#[global] Instance outcome_eq_dec : EqDecision outcome.
Proof. solve_decision. Defined.

(** The boolean that [copy_episode] returns at each site; a call that
    raises returns nothing, which is no success. *)
Definition outcome_ok (o : outcome) : bool :=
  match o with
  | Skipped | Copied => true
  | _ => false
  end.

Definition is_raised (o : outcome) : bool :=
  match o with
  | Raises _ => true
  | _ => false
  end.

(** The calls by which [copy_episode] acts on the world. *)
Inductive call : Type :=
  | Call_mkdir (p : path)
  | Call_unlink (p : path)
  | Call_tempfile (suffix : string)
  | Call_ffmpeg (source tmp : path)
  | Call_move (tmp destination : path).

#[global] Instance call_eq_dec : EqDecision call.
Proof. solve_decision. Defined.

Record copy_result : Type := mk_copy_result {
  result : outcome;
  fs_after : fsys;
  calls : list call
}.

Definition destination_of (self : DeviceManager) (episode : PodcastEpisode)
  : path :=
  device_path self // "Podcasts" // filename episode.

(** The messages of [copy_episode] that interpolate text.  The messages
    without interpolation are fixed, well-formed markup. *)
Definition msg_processing (episode : PodcastEpisode) : string :=
  String "010"%char "Processing '" +:+ title episode
    +:+ "' at 2x speed (pitch preserved)".

Definition msg_source (source : path) : string :=
  "  Source:      " +:+ Pathlib.str source.

Definition msg_destination (destination : path) : string :=
  "  Destination: " +:+ Pathlib.str destination.

Definition msg_remove_error (e : string) : string :=
  "[red]  Error removing existing destination file: " +:+ e +:+ "[/red]".

Definition msg_ffmpeg_error (stderr : string) : string :=
  "[red]  Error processing audio with ffmpeg: " +:+ stderr +:+ "[/red]".

Definition msg_move_error (e : string) : string :=
  "[red]  Error copying processed file to device: " +:+ e +:+ "[/red]".

Definition msg_unhandled (episode : PodcastEpisode) (e : string) : string :=
  "[red]  Error processing/copying '" +:+ title episode
    +:+ "' to device: " +:+ e +:+ "[/red]".

(** The outer handler of [copy_episode], [except Exception as e]: it prints
    the title and the error and returns [False]; when that print raises as
    well, the exception leaves [copy_episode]. *)
Definition copy_handler (env : Env) (episode : PodcastEpisode)
    (e : failure) (fs : fsys) (tr : list call) : copy_result :=
  let message := msg_unhandled episode (failure_text env e) in
  if console_print env message
  then mk_copy_result Unhandled fs tr
  else mk_copy_result (Raises (Failed_print message)) fs tr.

(** [DeviceManager.copy_episode] *)
Definition copy_episode (env : Env) (self : DeviceManager)
    (episode : PodcastEpisode) (fs : fsys) : copy_result :=
  if negb (is_connected self fs) then mk_copy_result NotConnected fs []
  else
    let source := Pathlib.Path (file_path episode) in
    let destination_dir := device_path self // "Podcasts" in
    let tr := [Call_mkdir destination_dir] in
    match FS.mkdir destination_dir fs with
    | None => copy_handler env episode (Failed_mkdir destination_dir) fs tr
    | Some fs =>
      let destination := destination_dir // filename episode in
      if negb (console_print env (msg_processing episode))
      then copy_handler env episode
             (Failed_print (msg_processing episode)) fs tr
      else if negb (console_print env (msg_source source))
      then copy_handler env episode (Failed_print (msg_source source)) fs tr
      else if negb (console_print env (msg_destination destination))
      then copy_handler env episode
             (Failed_print (msg_destination destination)) fs tr
      (* Pre-flight: ensure ffmpeg is available *)
      else if negb (which_ffmpeg env) then mk_copy_result FfmpegNotFound fs tr
      (* If the processed file already exists and matches size > 0 we can
         skip re-encoding *)
      else if FS.exists_nonempty fs destination
      then mk_copy_result Skipped fs tr
      else if negb (FS.exists_ fs source)
      then mk_copy_result SourceNotFound fs tr
      else
        (* If destination already exists, remove it to ensure fresh
           conversion *)
        let removal :=
          if FS.exists_ fs destination
          then (FS.unlink (unlink_refused env) destination fs,
                tr ++ [Call_unlink destination])
          else (Some fs, tr) in
        match removal with
        | (None, tr) =>
          let message :=
            msg_remove_error
              (failure_text env (Failed_unlink destination)) in
          if console_print env message
          then mk_copy_result RemoveFailed fs tr
          else copy_handler env episode (Failed_print message) fs tr
        | (Some fs, tr) =>
          (* Create a temporary file for the processed audio *)
          let suffix := Pathlib.suffix destination in
          let tr := tr ++ [Call_tempfile suffix] in
          match NamedTemporaryFile env suffix fs with
          | None => copy_handler env episode (Failed_tempfile suffix) fs tr
          | Some (tmp_path, fs) =>
            (* Use ffmpeg to speed up audio by 2x while preserving pitch *)
            let tr := tr ++ [Call_ffmpeg source tmp_path] in
            let '(returncode, fs) := run_ffmpeg env source tmp_path fs in
            if bool_decide (returncode ≠ 0)
            then
              let message :=
                msg_ffmpeg_error
                  (failure_text env (Failed_ffmpeg source tmp_path)) in
              if console_print env message
              then
                (* Clean up temp file if it exists *)
                mk_copy_result FfmpegFailed (FS.unlink_quietly tmp_path fs)
                  (tr ++ [Call_unlink tmp_path])
              else copy_handler env episode (Failed_print message) fs tr
            else
              (* Move the processed file to the destination on the device *)
              let tr := tr ++ [Call_move tmp_path destination] in
              let '(moved, fs) := shutil_move env tmp_path destination fs in
              if negb moved
              then
                let message :=
                  msg_move_error
                    (failure_text env (Failed_move tmp_path destination)) in
                if console_print env message
                then
                  (* Clean up temp file if move failed *)
                  mk_copy_result MoveFailed (FS.unlink_quietly tmp_path fs)
                    (tr ++ [Call_unlink tmp_path])
                else copy_handler env episode (Failed_print message) fs tr
              else
                (* Simple verification that the destination file now exists
                   and is non-zero size *)
                if FS.exists_nonempty fs destination
                then mk_copy_result Copied fs tr
                else mk_copy_result VerificationFailed fs tr
          end
        end
    end.

(** What [delete_file] does: it returns [True], it returns [False], or the
    exception of its handler leaves it. *)
Inductive deletion : Type :=
  | Deleted
  | DeleteFailed
  | DeleteRaised (e : failure).

#[global] Instance deletion_eq_dec : EqDecision deletion.
Proof. solve_decision. Defined.

Definition msg_deleted (name : string) : string :=
  "[yellow]Deleted: " +:+ name +:+ "[/yellow]".

Definition msg_delete_error (name e : string) : string :=
  "[red]Error deleting " +:+ name +:+ ": " +:+ e +:+ "[/red]".

(** The handler of [delete_file], [except Exception as e] *)
Definition delete_handler (env : Env) (device_file : DeviceFile)
    (e : failure) (fs : fsys) : deletion * fsys :=
  let message :=
    msg_delete_error (df_name device_file) (failure_text env e) in
  if console_print env message
  then (DeleteFailed, fs)
  else (DeleteRaised (Failed_print message), fs).

(** [DeviceManager.delete_file]; the print of the success is inside the
    [try], after the unlink. *)
Definition delete_file (env : Env) (device_file : DeviceFile) (fs : fsys)
  : deletion * fsys :=
  match FS.unlink (unlink_refused env) (df_path device_file) fs with
  | Some fs' =>
      let message := msg_deleted (df_name device_file) in
      if console_print env message
      then (Deleted, fs')
      else delete_handler env device_file (Failed_print message) fs'
  | None =>
      delete_handler env device_file
        (Failed_unlink (df_path device_file)) fs
  end.

(* ===================================================================== *)
(** ** [PodcastSyncApp.apply_changes]                                     *)
(* ===================================================================== *)

(** The first loop: every selected episode in turn, each in the file system
    its predecessors left, until a call raises. *)
Fixpoint copy_loop (env : Env) (device : DeviceManager)
    (selected_episodes : list PodcastEpisode) (fs : fsys)
  : list outcome * fsys * list call :=
  match selected_episodes with
  | [] => ([], fs, [])
  | episode :: rest =>
      let r := copy_episode env device episode fs in
      if is_raised (result r) then ([result r], fs_after r, calls r)
      else
        let '(os, fs', tr) := copy_loop env device rest (fs_after r) in
        (result r :: os, fs', calls r ++ tr)
  end.

Definition is_delete_raised (d : deletion) : bool :=
  match d with
  | DeleteRaised _ => true
  | _ => false
  end.

(** The second loop: the calls of [delete_file], each with what it did,
    until a call raises; a file flagged [keep] is passed over. *)
Fixpoint prune_loop (env : Env) (device_files : list DeviceFile)
    (fs : fsys) : list (DeviceFile * deletion) * fsys :=
  match device_files with
  | [] => ([], fs)
  | device_file :: rest =>
      if negb (keep device_file)
      then
        let '(d, fs) := delete_file env device_file fs in
        if is_delete_raised d then ([(device_file, d)], fs)
        else
          let '(log, fs) := prune_loop env rest fs in
          ((device_file, d) :: log, fs)
      else prune_loop env rest fs
  end.

Definition count_true {A} (f : A → bool) (l : list A) : nat :=
  length (filter (λ x, f x = true) l).

(** The number counted as copied, and the number counted as deleted. *)
Definition copied_count (os : list outcome) : nat := count_true outcome_ok os.
Definition deleted_count (log : list (DeviceFile * deletion)) : nat :=
  count_true (λ c, bool_decide (c.2 = Deleted)) log.

Record PodcastSyncApp : Type := mk_PodcastSyncApp {
  device : DeviceManager;
  episodes : list PodcastEpisode;
  device_files : list DeviceFile
}.

(** What a run of [apply_changes] did: the outcomes of the copies, the
    calls of [delete_file], the two counters as they stood at the end, and
    the file system it left. *)
Record sync_report : Type := mk_sync_report {
  copy_outcomes : list outcome;
  copied : nat;
  prune_log : list (DeviceFile * deletion);
  deleted : nat;
  final_fs : fsys
}.

(** [PodcastSyncApp.apply_changes]: an exception of a copy leaves the
    function before the deletions.  The messages with the counts
    interpolate numbers only. *)
Definition apply_changes (env : Env) (self : PodcastSyncApp) (fs : fsys)
  : sync_report :=
  let selected_episodes := filter (λ e, selected e = true) (episodes self) in
  let '(os, fs, _) := copy_loop env (device self) selected_episodes fs in
  if existsb is_raised os
  then mk_sync_report os (copied_count os) [] 0 fs
  else
    let '(log, fs) := prune_loop env (device_files self) fs in
    mk_sync_report os (copied_count os) log (deleted_count log) fs.

(** The exception that left [apply_changes], if one did. *)
Definition exception_of (report : sync_report) : option failure :=
  match last (copy_outcomes report), last (prune_log report) with
  | Some (Raises e), _ => Some e
  | _, Some (_, DeleteRaised e) => Some e
  | _, _ => None
  end.

(* ===================================================================== *)
(** ** [PodcastLibrary._find_podcasts_database]                           *)
(* ===================================================================== *)

(** [fnmatch] of a name against the pattern [*podcasts*]: the name holds
    [podcasts] somewhere.  On POSIX [pathlib] compares case-sensitively and
    gives a leading dot no special treatment. *)
Fixpoint contains_go (needle hay : list ascii) : bool :=
  Str.is_prefix needle hay
  || match hay with
     | [] => false
     | _ :: rest => contains_go needle rest
     end.

Definition fnmatch_podcasts (name : string) : bool :=
  contains_go (Str.chars "podcasts") (Str.chars name).

(** An entry of [dir] itself with a matching name. *)
Definition podcasts_entry (dir p : path) : bool :=
  match Pathlib.relative_to dir p with
  | Some [name] => fnmatch_podcasts name
  | _ => false
  end.

(** [dir.glob("*podcasts*")]: the matching entries of [dir], files and
    directories alike; nothing when [dir] is not a directory. *)
Definition glob_podcasts (dir : path) (fs : fsys) : list path :=
  if FS.is_dir fs dir
  then filter (λ p, podcasts_entry dir p = true) (map fst (map_to_list fs))
  else [].

(** The loop over the containers: the first one that holds the store. *)
Fixpoint first_database (containers : list path) (fs : fsys)
  : option path :=
  match containers with
  | [] => None
  | container :: containers' =>
      let db_path := container // "Documents" // "MTLibrary.sqlite" in
      if FS.exists_ fs db_path then Some db_path
      else first_database containers' fs
  end.

(** [PodcastLibrary._find_podcasts_database], and [find_podcasts_database]
    of the test script, which has the same body; [home] is [Path.home()]. *)
Definition find_podcasts_database (home : path) (fs : fsys) : option path :=
  (* Apple Podcasts stores data in Group Containers *)
  let group_containers := home // "Library" // "Group Containers" in
  (* Look for the Podcasts group container *)
  match first_database (glob_podcasts group_containers fs) fs with
  | Some db_path => Some db_path
  | None =>
      (* Alternative location *)
      let alt_path :=
        home // "Library" // "Containers" // "com.apple.podcasts" // "Data"
             // "Documents" // "MTLibrary.sqlite" in
      if FS.exists_ fs alt_path then Some alt_path else None
  end.

(** [PodcastLibrary.__init__] *)
Definition new_PodcastLibrary (home : path) (fs : fsys) : PodcastLibrary :=
  mk_PodcastLibrary (find_podcasts_database home fs).

(* ===================================================================== *)
(** ** [DeviceManager.unmount]                                            *)
(* ===================================================================== *)

(** [subprocess.run] of [diskutil unmount] on a path: the return code, or
    [None] when the call raises, and the file system it leaves. *)
Definition diskutil : Type := path → fsys → option Z * fsys.

Definition unmount (run : diskutil) (self : DeviceManager) (fs : fsys)
  : bool * fsys :=
  match run (device_path self) fs with
  | (Some returncode, fs) => (bool_decide (returncode = 0), fs)
  | (None, fs) => (false, fs)
  end.

(* ===================================================================== *)
(** ** The screens of [PodcastSyncApp]                                    *)
(* ===================================================================== *)

(** The handlers of the application as functions on what they read and
    assign: the library, the fields [apply_changes] reads, the name of the
    current screen and the call of [self.exit], if one was made.  The
    widgets that the handlers mount are not part of the state. *)
Module App.

(** [self.exit(message=text)] and [self.exit(text)] *)
Inductive exit_call : Type :=
  | Exit_message (text : string)
  | Exit_result (text : string).

Record state : Type := mk_state {
  library : PodcastLibrary;
  self : PodcastSyncApp;
  current_screen : string;
  exited : option exit_call
}.

(** [PodcastSyncApp.__init__] *)
Definition init (home : path) (fs : fsys) : state :=
  mk_state (new_PodcastLibrary home fs)
           (mk_PodcastSyncApp new_DeviceManager [] []) "episodes" None.

Definition exit (c : exit_call) (st : state) : state :=
  mk_state (library st) (self st) (current_screen st) (Some c).

Definition set_episodes (es : list PodcastEpisode) (st : state) : state :=
  mk_state (library st)
           (mk_PodcastSyncApp (device (self st)) es (device_files (self st)))
           (current_screen st) (exited st).

Definition set_device_files (fl : list DeviceFile) (st : state) : state :=
  mk_state (library st)
           (mk_PodcastSyncApp (device (self st)) (episodes (self st)) fl)
           (current_screen st) (exited st).

Definition set_screen (name : string) (st : state) : state :=
  mk_state (library st) (self st) name (exited st).

(** [show_episode_selection] *)
Definition show_episode_selection (st : state) : state :=
  set_screen "episodes" st.

(** [show_device_files]: the device is scanned anew. *)
Definition show_device_files (env : Env) (st : state) (fs : fsys) : state :=
  let st := set_screen "device" st in
  set_device_files (get_device_files env (device (self st)) fs) st.

(** [show_unmount_screen] *)
Definition show_unmount_screen (st : state) : state :=
  set_screen "unmount" st.

(** [on_mount]; the reader is called with its default limit of 10. *)
Definition on_mount (env : Env) (st : state) (fs : fsys) : state :=
  if negb (is_connected (device (self st)) fs)
  then exit (Exit_message "XTRAINERZ device not found. Please connect the device and try again.") st
  else
    let st := set_episodes (get_recent_podcasts env fs (library st) 10) st in
    match episodes (self st) with
    | [] =>
        exit (Exit_message "No recent podcasts found in Apple Podcasts library.") st
    | _ :: _ => show_episode_selection st
    end.

(** [PodcastListItem.on_checkbox_changed] of the item made for the episode
    at index [i] of [self.episodes]: the item holds that very object. *)
Definition episode_checkbox_changed (i : nat) (value : bool) (st : state)
  : state :=
  set_episodes
    (alter (λ e, mk_PodcastEpisode (title e) (podcast e) (file_path e)
                   (date_added e) value) i (episodes (self st))) st.

(** [DeviceFileListItem.on_checkbox_changed] of the item made for the file
    at index [i] of [self.device_files]. *)
Definition device_file_checkbox_changed (i : nat) (value : bool)
    (st : state) : state :=
  set_device_files
    (alter (λ f, mk_DeviceFile (df_name f) (df_path f) value) i
           (device_files (self st))) st.

(** [apply_changes] as its two callers run it, inside [try]: its last
    statement changes the screen; an exception that leaves it is caught by
    the caller, which ends the application with the text of the error. *)
Definition apply_changes_and_ask (env : Env) (st : state) (fs : fsys)
  : state * fsys :=
  let report := apply_changes env (self st) fs in
  match exception_of report with
  | Some e =>
      (exit (Exit_result ("An error occurred: " +:+ failure_text env e)) st,
       final_fs report)
  | None => (show_unmount_screen st, final_fs report)
  end.

(** [action_continue_action], the action of the binding for Enter; it
    runs when the key reaches the application. *)
Definition action_continue_action (env : Env) (st : state) (fs : fsys)
  : state * fsys :=
  if bool_decide (current_screen st = "episodes")
  then (show_device_files env st fs, fs)
  else if bool_decide (current_screen st = "device")
  then apply_changes_and_ask env st fs
  else (st, fs).

(** [on_button_pressed] with the id of the button *)
Definition on_button_pressed (env : Env) (run : diskutil) (id : string)
    (st : state) (fs : fsys) : state * fsys :=
  if bool_decide (id = "continue-btn")
  then (show_device_files env st fs, fs)
  else if bool_decide (id = "apply-btn")
  then apply_changes_and_ask env st fs
  else if bool_decide (id = "unmount-btn")
  then
    let '(_, fs) := unmount run (device (self st)) fs in
    (exit (Exit_result "Device unmounted. Bye!") st, fs)
  else if bool_decide (id = "keep-mounted-btn")
  then (exit (Exit_result "Sync complete. Device remains mounted.") st, fs)
  else (st, fs).

End App.

(** The stages of [sanitize_filename] on the characters of the title. *)
Definition underscored (l : list ascii) : list ascii :=
  map (λ c, if decide (c = " "%char) then "_"%char else c) l.

Definition cleaned (l : list ascii) : list ascii :=
  filter (λ c, invalid_filename_char c = false) (underscored l).

Definition stripped (l : list ascii) : list ascii :=
  Str.rstrip_go [" "; "."]%char (Str.lstrip_go [" "; "."]%char (cleaned l)).

(** A title of 199 letters, a dot and one more letter. *)
Definition long_title : string :=
  Str.of_chars (replicate 199 "a"%char ++ ["."; "b"]%char).

(** The extension that [filename] appends. *)
Definition extension_of (e : PodcastEpisode) : string :=
  let extension := Pathlib.suffix (Pathlib.Path (file_path e)) in
  if decide (extension = "") then ".mp3" else extension.

Definition episode_question_marks : PodcastEpisode :=
  new_PodcastEpisode "???" "Show" "/Users/me/Podcasts/ep1.m4a" core_data_epoch.

Definition episode_blank_title : PodcastEpisode :=
  new_PodcastEpisode " " "Show" "/Users/me/Podcasts/ep1.m4a" core_data_epoch.

(** *** The catalog reader, row by row *)

(** The path a row's URL stands for. *)
Definition source_path (r : row) : string :=
  Urllib.unquote (Str.replace "file://" "" (default "" (file_url r))).

(** The rows that yield an episode: a file URL whose file exists. *)
Definition usable (fs : fsys) (r : row) : bool :=
  truthy_str (file_url r)
  && Str.startswith "file://" (default "" (file_url r))
  && FS.exists_ fs (Pathlib.Path (source_path r)).

(** The date given to a row's episode; [None] when computing it raises. *)
Definition row_date (env : Env) (r : row) : option datetime :=
  if truthy_num (download_date r)
  then Datetime.add_seconds core_data_epoch (default 0 (download_date r))
  else Some (now env).

Definition episode_of_row (env : Env) (r : row) : option PodcastEpisode :=
  new_PodcastEpisode (or_default (episode_title r) "Unknown Episode")
                     (or_default (podcast_title r) "Unknown Podcast")
                     (source_path r)
    <$> row_date env r.


(** *** A small world *)

Definition a_file (size : Z) : node := mk_node RegularFile size 1.
Definition a_directory : node := mk_node Directory 0 1.

Definition store_path : path :=
  ["Users"; "me"; "Library"; "MTLibrary.sqlite"].

(** Two episodes of one show: the newer one's file is gone, the older
    one's is on disk. *)
Definition store_one_gone : database :=
  mk_database
    [ mk_episode_row (Some "Newer") (Some 1)
        (Some "file:///Users/me/Cache/newer.mp3") (Some 200) None;
      mk_episode_row (Some "Older") (Some 1)
        (Some "file:///Users/me/Cache/older%20one.mp3") (Some 100) None ]
    [ mk_podcast_row 1 (Some "Show") ].

(** Two episodes stamped one day after the reference date and at the
    reference date itself. *)
Definition store_epoch : database :=
  mk_database
    [ mk_episode_row (Some "Day zero") (Some 1)
        (Some "file:///Users/me/Cache/zero.mp3") (Some 0) None;
      mk_episode_row (Some "Day one") (Some 1)
        (Some "file:///Users/me/Cache/one.mp3") (Some 86400) None ]
    [ mk_podcast_row 1 (Some "Show") ].

Definition disk : fsys :=
  list_to_map
    [ (["Users"], a_directory);
      (["Users"; "me"], a_directory);
      (["Users"; "me"; "Cache"], a_directory);
      (["Users"; "me"; "Cache"; "older one.mp3"], a_file 4096);
      (["Users"; "me"; "Cache"; "zero.mp3"], a_file 4096);
      (["Users"; "me"; "Cache"; "one.mp3"], a_file 4096) ].

Definition library : PodcastLibrary := mk_PodcastLibrary (Some store_path).

(** An environment in which everything works: ffmpeg is found and writes
    half the size of its input (at least a byte), the move renames. *)
Definition tmp_file (suffix : string) : path := ["tmp"; "tmp0" +:+ suffix].

Definition working_env (db : database) : Env :=
  {| now := mk_datetime 2026 11 4 12 0 0;
     sqlite_open := λ p, if decide (p = store_path) then Some db else None;
     which_ffmpeg := true;
     NamedTemporaryFile := λ suffix fs,
       Some (tmp_file suffix, <[tmp_file suffix := a_file 0]> fs);
     run_ffmpeg := λ source tmp fs,
       match fs !! source with
       | Some n => (0, <[tmp := a_file (st_size n / 2 + 1)]> fs)
       | None => (1, fs)
       end;
     shutil_move := λ tmp destination fs,
       match fs !! tmp with
       | Some n => (true, <[destination := n]> (delete tmp fs))
       | None => (false, fs)
       end;
     glob_fault := None;
     console_print := λ _, true;
     unlink_refused := λ _ _, false;
     failure_text := λ _, "error" |}.

(** *** The device *)

(** The folder the episodes go to. *)
Definition podcasts_dir (self : DeviceManager) : path :=
  device_path self // "Podcasts".

(** The device is mounted and its [Podcasts] folder is a directory. *)
Definition device_ready (self : DeviceManager) (fs : fsys) : Prop :=
  is_connected self fs = true ∧ FS.is_dir fs (podcasts_dir self) = true.

(** The episode's destination file is on the device, with a size above 0. *)
Definition already_on_device (self : DeviceManager) (e : PodcastEpisode)
    (fs : fsys) : Prop :=
  device_ready self fs
  ∧ FS.exists_nonempty fs (destination_of self e) = true.

(** The three messages that open the processing of an episode are
    printed. *)
Definition announced (env : Env) (self : DeviceManager)
    (e : PodcastEpisode) : Prop :=
  console_print env (msg_processing e) = true
  ∧ console_print env (msg_source (Pathlib.Path (file_path e))) = true
  ∧ console_print env (msg_destination (destination_of self e)) = true.

Definition xtrainerz : DeviceManager := new_DeviceManager.

Definition episode_one : PodcastEpisode :=
  new_PodcastEpisode "Ep One" "Show" "/Users/me/Cache/one.mp3"
    core_data_epoch.
Definition episode_two : PodcastEpisode :=
  new_PodcastEpisode "Ep Two" "Show" "/Users/me/Cache/two.mp3"
    core_data_epoch.
Definition episode_three : PodcastEpisode :=
  new_PodcastEpisode "Ep Three" "Show" "/Users/me/Cache/three.mp3"
    core_data_epoch.

(** The device mounted, with an empty [Podcasts] folder; the sources of
    the first and the third episode on disk, the second one's gone. *)
Definition mounted : fsys :=
  list_to_map
    [ (["Volumes"], a_directory);
      (["Volumes"; "XTRAINERZ"], a_directory);
      (["Volumes"; "XTRAINERZ"; "Podcasts"], a_directory);
      (["Users"; "me"; "Cache"], a_directory);
      (["Users"; "me"; "Cache"; "one.mp3"], a_file 4096);
      (["Users"; "me"; "Cache"; "three.mp3"], a_file 8192) ].

(** The same with the first episode already on the device. *)
Definition mounted_with_one : fsys :=
  <[ ["Volumes"; "XTRAINERZ"; "Podcasts"; "Ep_One.mp3"] := a_file 2049 ]>
    mounted.

(** The same again, but the source of the first episode is gone too. *)
Definition mounted_source_gone : fsys :=
  delete ["Users"; "me"; "Cache"; "one.mp3"] mounted_with_one.

(** An environment in which ffmpeg is not on the path. *)
Definition env_without_ffmpeg : Env :=
  let env := working_env (mk_database [] []) in
  mk_Env (now env) (sqlite_open env) false (NamedTemporaryFile env)
         (run_ffmpeg env) (shutil_move env) (glob_fault env)
         (console_print env) (unlink_refused env) (failure_text env).

(** An environment in which ffmpeg reports success and the move returns,
    but the moved file does not show up at the destination. *)
Definition env_losing_files : Env :=
  let env := working_env (mk_database [] []) in
  mk_Env (now env) (sqlite_open env) true (NamedTemporaryFile env)
         (run_ffmpeg env) (λ tmp destination fs, (true, delete tmp fs))
         (glob_fault env) (console_print env) (unlink_refused env)
         (failure_text env).

(** A console that raises on every message holding the closing tag
    [[/b]], as rich does when no [[b]] is open, and prints the others. *)
Definition env_markup : Env :=
  let env := working_env (mk_database [] []) in
  mk_Env (now env) (sqlite_open env) true (NamedTemporaryFile env)
         (run_ffmpeg env) (shutil_move env) (glob_fault env)
         (λ s, negb (contains_go (Str.chars "[/b]") (Str.chars s)))
         (unlink_refused env)
         (λ _, "closing tag '[/b]' doesn't match any open tag").

(** A device that lets nothing be removed. *)
Definition env_read_only : Env :=
  let env := working_env (mk_database [] []) in
  mk_Env (now env) (sqlite_open env) true (NamedTemporaryFile env)
         (run_ffmpeg env) (shutil_move env) (glob_fault env)
         (console_print env) (λ _ _, true) (failure_text env).

(** An episode whose title holds a closing tag; its source is that of the
    first episode. *)
Definition episode_markup : PodcastEpisode :=
  new_PodcastEpisode "AMA [/b]" "Show" "/Users/me/Cache/one.mp3"
    core_data_epoch.

(** The same title on an episode whose source file is not on the disk. *)
Definition episode_markup_gone : PodcastEpisode :=
  new_PodcastEpisode "AMA [/b]" "Show" "/Users/me/Cache/two.mp3"
    core_data_epoch.

(** What a batch reports, episode by episode, and the file system it
    leaves. *)
Definition batch_outcomes (env : Env) (device : DeviceManager)
    (eps : list PodcastEpisode) (fs : fsys) : list outcome :=
  (copy_loop env device eps fs).1.1.

Definition batch_fs (env : Env) (device : DeviceManager)
    (eps : list PodcastEpisode) (fs : fsys) : fsys :=
  (copy_loop env device eps fs).1.2.

(** *** The pruning *)

(** The device files not flagged [keep]. *)
Definition unmarked (files : list DeviceFile) : list DeviceFile :=
  filter (λ f, keep f = false) files.

(** The calls of [delete_file] of a pruning, and the file system it
    leaves. *)
Definition prune_calls (env : Env) (files : list DeviceFile) (fs : fsys)
  : list (DeviceFile * deletion) := (prune_loop env files fs).1.

Definition prune_fs (env : Env) (files : list DeviceFile) (fs : fsys)
  : fsys := (prune_loop env files fs).2.

(** The system does not refuse to remove the path, in any state. *)
Definition removable (env : Env) (p : path) : Prop :=
  ∀ fs, unlink_refused env p fs = false.

(** The two messages of [delete_file] on a file are printed: that of the
    success, and that of a failed unlink. *)
Definition reported (env : Env) (f : DeviceFile) : Prop :=
  console_print env (msg_deleted (df_name f)) = true
  ∧ console_print env
      (msg_delete_error (df_name f)
         (failure_text env (Failed_unlink (df_path f)))) = true.

(** Five files as the scan of the device would list them, the second and
    the fourth flagged [keep]. *)
Definition track (name : string) (kept : bool) : DeviceFile :=
  mk_DeviceFile ("Podcasts/" +:+ name)
                (Pathlib.Path "/Volumes/XTRAINERZ/Podcasts" // name) kept.

Definition five_files : list DeviceFile :=
  [ track "a.mp3" false; track "b.mp3" true; track "c.m4a" false;
    track "d.wav" true; track "e.flac" false ].

Definition loaded_device : fsys :=
  list_to_map
    [ (["Volumes"], a_directory);
      (["Volumes"; "XTRAINERZ"], a_directory);
      (["Volumes"; "XTRAINERZ"; "Podcasts"], a_directory);
      (["Volumes"; "XTRAINERZ"; "Podcasts"; "a.mp3"], a_file 10);
      (["Volumes"; "XTRAINERZ"; "Podcasts"; "b.mp3"], a_file 20);
      (["Volumes"; "XTRAINERZ"; "Podcasts"; "c.m4a"], a_file 30);
      (["Volumes"; "XTRAINERZ"; "Podcasts"; "d.wav"], a_file 40);
      (["Volumes"; "XTRAINERZ"; "Podcasts"; "e.flac"], a_file 50) ].

(** The files can all be deleted: the console prints their messages and
    the system does not refuse their removal. *)
Definition deletable (env : Env) (files : list DeviceFile) : Prop :=
  Forall (λ f, reported env f ∧ removable env (df_path f)) files.

(** A file in a folder of the device, named so that its relative path
    holds a closing tag, and a device with it and a second file. *)
Definition tagged_file : DeviceFile :=
  new_DeviceFile "foo[/b].mp3" ["Volumes"; "XTRAINERZ"; "foo["; "b].mp3"].

Definition plain_file : DeviceFile :=
  new_DeviceFile "plain.mp3" ["Volumes"; "XTRAINERZ"; "plain.mp3"].

Definition tagged_device : fsys :=
  list_to_map
    [ (["Volumes"], a_directory);
      (["Volumes"; "XTRAINERZ"], a_directory);
      (["Volumes"; "XTRAINERZ"; "foo["], a_directory);
      (["Volumes"; "XTRAINERZ"; "foo["; "b].mp3"], a_file 10);
      (["Volumes"; "XTRAINERZ"; "plain.mp3"], a_file 20) ].

(** *** The scan *)

(** A device with a hidden file, a text file, an upper-case extension and
    a file in a folder of its own. *)
Definition scanned_device : fsys :=
  list_to_map
    [ (["Volumes"], a_directory);
      (["Volumes"; "XTRAINERZ"], a_directory);
      (["Volumes"; "XTRAINERZ"; "Podcasts"], a_directory);
      (["Volumes"; "XTRAINERZ"; "Podcasts"; "a.mp3"], a_file 10);
      (["Volumes"; "XTRAINERZ"; "Podcasts"; ".hidden.mp3"], a_file 20);
      (["Volumes"; "XTRAINERZ"; "Podcasts"; "notes.txt"], a_file 30);
      (["Volumes"; "XTRAINERZ"; "LOUD.MP3"], a_file 40);
      (["Volumes"; "XTRAINERZ"; "Music"], a_directory);
      (["Volumes"; "XTRAINERZ"; "Music"; "Live"], a_directory);
      (["Volumes"; "XTRAINERZ"; "Music"; "Live"; "set.flac"], a_file 50);
      (["Users"; "me"; "Cache"; "one.mp3"], a_file 4096) ].


(** *** A home directory with the store *)

Definition home : path := ["Users"; "me"].

Definition group_containers_of (home : path) : path :=
  home ++ ["Library"; "Group Containers"].

Definition alt_path_of (home : path) : path :=
  home ++ ["Library"; "Containers"; "com.apple.podcasts"; "Data";
           "Documents"; "MTLibrary.sqlite"].

(** The store of the container called [name]. *)
Definition store_in (home : path) (name : string) : path :=
  group_containers_of home ++ [name; "Documents"; "MTLibrary.sqlite"].

Definition home_store : path :=
  store_in home "243LU875E5.groups.com.apple.podcasts".

(** The device of the scan, and a home whose group container holds the
    store. *)
Definition home_disk : fsys :=
  <[ group_containers_of home := a_directory ]>
    (<[ group_containers_of home
          ++ ["243LU875E5.groups.com.apple.podcasts"] := a_directory ]>
       (<[ home_store := a_file 8192 ]> scanned_device)).

(** A device with two audio files, both at its top level, and the same
    home. *)
Definition flat_device : fsys :=
  list_to_map
    [ (["Volumes"], a_directory);
      (["Volumes"; "XTRAINERZ"], a_directory);
      (["Volumes"; "XTRAINERZ"; "news.mp3"], a_file 40);
      (["Volumes"; "XTRAINERZ"; "talk.mp3"], a_file 10);
      (["Users"; "me"; "Cache"; "one.mp3"], a_file 4096) ].

Definition flat_disk : fsys :=
  <[ group_containers_of home := a_directory ]>
    (<[ group_containers_of home
          ++ ["243LU875E5.groups.com.apple.podcasts"] := a_directory ]>
       (<[ home_store := a_file 8192 ]> flat_device)).

(** The working environment, with the store where the home keeps it and
    [diskutil] failing. *)
Definition home_env : Env :=
  let env := working_env store_epoch in
  mk_Env (now env)
         (λ p, if decide (p = home_store) then Some store_epoch else None)
         true (NamedTemporaryFile env) (run_ffmpeg env) (shutil_move env)
         None (console_print env) (unlink_refused env) (failure_text env).

Definition diskutil_fails : diskutil := λ _ fs, (Some 1, fs).

(** The first episode, selected, and the file the scan lists for it. *)
Definition episode_one_selected : PodcastEpisode :=
  mk_PodcastEpisode "Ep One" "Show" "/Users/me/Cache/one.mp3"
    core_data_epoch true.

Definition synced_app : PodcastSyncApp :=
  mk_PodcastSyncApp xtrainerz [episode_one_selected; episode_two]
    [new_DeviceFile "Podcasts/Ep_One.mp3"
       (destination_of xtrainerz episode_one_selected)].


(* ===================================================================== *)
(** * Properties                                                          *)
(* ===================================================================== *)

(** ** Strings *)

Section str_lemmas.

Implicit Types (s : string) (l : list ascii) (c : ascii).

Lemma chars_of_chars l : Str.chars (Str.of_chars l) = l.
Proof. apply list_ascii_of_string_of_list_ascii. Qed.

Lemma of_chars_chars s : Str.of_chars (Str.chars s) = s.
Proof. apply string_of_list_ascii_of_string. Qed.

Lemma chars_lift f s : Str.chars (Str.lift f s) = f (Str.chars s).
Proof. apply chars_of_chars. Qed.

Lemma chars_inj s1 s2 : Str.chars s1 = Str.chars s2 → s1 = s2.
Proof.
  intros H. rewrite <- (of_chars_chars s1), <- (of_chars_chars s2).
  by rewrite H.
Qed.

Lemma chars_app s1 s2 :
  Str.chars (s1 +:+ s2) = Str.chars s1 ++ Str.chars s2.
Proof.
  unfold Str.chars. induction s1 as [|a s1 IH]; [done|].
  cbn. by rewrite <- IH.
Qed.

Lemma chars_nil s : Str.chars s = [] → s = "".
Proof. by destruct s. Qed.

(** Replacing a one-character pattern is a map over the characters. *)
Lemma replace_go_char a b l :
  Str.replace_go [a] [b] 0 l = map (λ c, if decide (c = a) then b else c) l.
Proof.
  induction l as [|c l IH]; [done|].
  cbn [Str.replace_go Str.is_prefix map].
  destruct (decide (a = c)) as [->|Hne].
  - rewrite decide_True by done. cbn. by rewrite IH.
  - rewrite decide_False by congruence. by rewrite IH.
Qed.

Lemma lstrip_go_suffix set l : Str.lstrip_go set l `suffix_of` l.
Proof.
  induction l as [|c l IH]; [done|]. cbn.
  destruct (Str.in_set set c); [by apply suffix_cons_r | done].
Qed.

Lemma lstrip_go_head set l c :
  head (Str.lstrip_go set l) = Some c → Str.in_set set c = false.
Proof.
  induction l as [|a l IH]; [done|]. cbn.
  destruct (Str.in_set set a) eqn:E; [done|].
  cbn. intros [= <-]. done.
Qed.

Lemma lstrip_go_all set l :
  Forall (λ c, Str.in_set set c = true) l → Str.lstrip_go set l = [].
Proof. induction 1 as [|c l Hc _ IH]; [done|]. cbn. by rewrite Hc. Qed.

Lemma lstrip_go_nil set l :
  Str.lstrip_go set l = [] → Forall (λ c, Str.in_set set c = true) l.
Proof.
  induction l as [|c l IH]; [done|]. cbn.
  destruct (Str.in_set set c) eqn:E; [|done]. auto.
Qed.

Lemma rstrip_go_prefix set l : Str.rstrip_go set l `prefix_of` l.
Proof.
  unfold Str.rstrip_go.
  destruct (lstrip_go_suffix set (reverse l)) as [k Hk].
  exists (reverse k).
  rewrite <- (reverse_involutive l), Hk at 1.
  by rewrite reverse_app.
Qed.

Lemma rstrip_go_last set l c :
  last (Str.rstrip_go set l) = Some c → Str.in_set set c = false.
Proof.
  unfold Str.rstrip_go. rewrite last_reverse. apply lstrip_go_head.
Qed.

Lemma rstrip_go_all set l :
  Forall (λ c, Str.in_set set c = true) l → Str.rstrip_go set l = [].
Proof.
  intros H. unfold Str.rstrip_go.
  rewrite lstrip_go_all; [done|]. by apply Forall_reverse.
Qed.

Lemma rfind_lookup c l i : Str.rfind c l = Some i → l !! i = Some c.
Proof.
  revert i. induction l as [|a l IH]; intros i; [done|]. cbn.
  destruct (Str.rfind c l) as [j|].
  - intros [= <-]. by apply IH.
  - destruct (decide (a = c)) as [->|]; [|done]. by intros [= <-].
Qed.

End str_lemmas.

(** ** [sanitize_filename] *)


Lemma sanitize_filename_chars text :
  Str.chars (sanitize_filename text) = take 200 (stripped (Str.chars text)).
Proof.
  unfold sanitize_filename, Str.slice_to, Str.strip, Str.re_sub_class,
    Str.replace.
  rewrite !chars_lift. change (Str.chars " ") with [" "%char].
  change (Str.chars "_") with ["_"%char]. by rewrite replace_go_char.
Qed.

Lemma stripped_elem l c : c ∈ stripped l → c ∈ cleaned l.
Proof.
  unfold stripped. intros H.
  destruct (rstrip_go_prefix [" "; "."]%char
              (Str.lstrip_go [" "; "."]%char (cleaned l))) as [k1 Hk1].
  destruct (lstrip_go_suffix [" "; "."]%char (cleaned l)) as [k2 Hk2].
  rewrite Hk2, Hk1. set_solver.
Qed.

Lemma sanitize_filename_elem text c :
  c ∈ Str.chars (sanitize_filename text) → c ∈ cleaned (Str.chars text).
Proof.
  rewrite sanitize_filename_chars. intros H.
  apply stripped_elem. eapply elem_of_sublist; [done|apply sublist_take].
Qed.

(** The sanitized title holds none of the nine invalid characters. *)
Lemma sanitize_filename_no_invalid text c :
  c ∈ Str.chars (sanitize_filename text) → invalid_filename_char c = false.
Proof.
  intros H%sanitize_filename_elem. unfold cleaned in H.
  by apply list_elem_of_filter in H as [? _].
Qed.

(** It holds no space at all: every space has become an underscore. *)
Lemma sanitize_filename_no_space text :
  " "%char ∉ Str.chars (sanitize_filename text).
Proof.
  intros H%sanitize_filename_elem. unfold cleaned in H.
  apply list_elem_of_filter in H as [_ H]. unfold underscored in H.
  apply list_elem_of_fmap in H as (c & Hc & _).
  destruct (decide (c = " "%char)); [done | congruence].
Qed.

(** It is at most 200 characters long. *)
Lemma sanitize_filename_length text :
  (Str.len (sanitize_filename text) ≤ 200)%nat.
Proof.
  unfold Str.len. rewrite sanitize_filename_chars, length_take. lia.
Qed.

(** It starts neither with a space nor with a dot. *)
Lemma sanitize_filename_first text c :
  Str.first (sanitize_filename text) = Some c → c ≠ " "%char ∧ c ≠ "."%char.
Proof.
  unfold Str.first. rewrite sanitize_filename_chars. intros H.
  assert (head (stripped (Str.chars text)) = Some c) as H1.
  { destruct (stripped (Str.chars text)); by simplify_eq/=. }
  unfold stripped in H1.
  destruct (rstrip_go_prefix [" "; "."]%char
              (Str.lstrip_go [" "; "."]%char (cleaned (Str.chars text))))
    as [k Hk].
  assert (head (Str.lstrip_go [" "; "."]%char (cleaned (Str.chars text)))
          = Some c) as H2.
  { rewrite Hk. destruct (Str.rstrip_go _ _); by simplify_eq/=. }
  apply lstrip_go_head in H2. unfold Str.in_set in H2.
  apply bool_decide_eq_false in H2. set_solver.
Qed.

(** When the stripped text fits in 200 characters it ends neither with a
    space nor with a dot. *)
Lemma sanitize_filename_final_short text c :
  (length (stripped (Str.chars text)) ≤ 200)%nat →
  Str.final (sanitize_filename text) = Some c → c ≠ " "%char ∧ c ≠ "."%char.
Proof.
  unfold Str.final. rewrite sanitize_filename_chars. intros Hlen.
  rewrite take_ge by done. unfold stripped. intros H%rstrip_go_last.
  unfold Str.in_set in H. apply bool_decide_eq_false in H. set_solver.
Qed.

(** C2 (the code departs from the claim): the cut to 200 characters comes
    after the stripping of dots, so it can uncover a dot.  For the title of
    201 characters made of 199 letters, a dot and a letter, which holds
    nothing to replace, remove or strip, the sanitized name is the first 200
    characters and ends with the dot. *)
Theorem sanitize_filename_trailing_dot :
  Str.len long_title = 201%nat ∧
  sanitize_filename long_title
    = Str.of_chars (replicate 199 "a"%char ++ ["."]%char) ∧
  Str.len (sanitize_filename long_title) = 200%nat ∧
  Str.final (sanitize_filename long_title) = Some "."%char.
Proof. vm_compute. done. Qed.

(** ** [PodcastEpisode.filename] *)


Lemma filename_eq e :
  filename e = sanitize_filename (title e) +:+ extension_of e.
Proof. done. Qed.

(** A suffix is empty or starts with a dot. *)
Lemma suffix_first p :
  Pathlib.suffix p = "" ∨ Str.first (Pathlib.suffix p) = Some "."%char.
Proof.
  unfold Pathlib.suffix.
  destruct (Str.rfind _ _) as [i|] eqn:E; [|by left].
  case_bool_decide; [|by left]. right.
  unfold Str.first. rewrite chars_lift.
  apply rfind_lookup in E. rewrite <- E.
  by rewrite head_lookup, lookup_drop, Nat.add_0_r.
Qed.

Lemma extension_of_first e : Str.first (extension_of e) = Some "."%char.
Proof.
  unfold extension_of. case_decide as H; [done|].
  by destruct (suffix_first (Pathlib.Path (file_path e))).
Qed.

(** A title made of invalid characters and dots is sanitized to nothing. *)
Lemma sanitize_filename_degenerate text :
  Forall (λ c, invalid_filename_char c = true ∨ c = "."%char) (Str.chars text) →
  sanitize_filename text = "".
Proof.
  intros H. apply chars_nil. rewrite sanitize_filename_chars.
  unfold stripped. rewrite lstrip_go_all; [done|].
  unfold cleaned, underscored.
  apply Forall_forall. intros c [Hc Hin]%list_elem_of_filter.
  apply list_elem_of_fmap in Hin as (a & -> & Ha).
  rewrite Forall_forall in H. specialize (H a Ha).
  destruct (decide (a = " "%char)) as [->|Hsp].
  - by destruct H.
  - destruct H as [H| ->]; [congruence | done].
Qed.

(** C10 (as amended): when the title holds nothing but invalid characters
    and dots, the file name is the extension alone (the suffix of the
    source path, or .mp3 when it has none); it is not empty and starts with
    a dot. *)
Theorem filename_degenerate_title (e : PodcastEpisode) :
  Forall (λ c, invalid_filename_char c = true ∨ c = "."%char)
         (Str.chars (title e)) →
  filename e = extension_of e ∧
  filename e ≠ "" ∧
  Str.first (filename e) = Some "."%char.
Proof.
  intros H. rewrite filename_eq, (sanitize_filename_degenerate _ H).
  change ("" +:+ extension_of e) with (extension_of e).
  pose proof (extension_of_first e) as Hf.
  split_and!; [done| |done]. intros Heq. by rewrite Heq in Hf.
Qed.


Lemma filename_degenerate_title_witness :
  filename episode_question_marks = ".m4a" ∧
  filename episode_question_marks ≠ "" ∧
  Str.first (filename episode_question_marks) = Some "."%char.
Proof.
  apply (filename_degenerate_title episode_question_marks).
  vm_compute. repeat constructor.
Defined.


(** C10 (as stated) fails: a title of one space consists only of what the
    claim lists as removed, yet the space becomes an underscore and stays;
    the file name is not the extension and does not start with a dot. *)
Lemma filename_blank_title_counterexample :
  Forall (λ c, invalid_filename_char c = true ∨ c = " "%char ∨ c = "."%char)
         (Str.chars (title episode_blank_title)) ∧
  extension_of episode_blank_title = ".m4a" ∧
  filename episode_blank_title = "_.m4a" ∧
  filename episode_blank_title ≠ extension_of episode_blank_title ∧
  Str.first (filename episode_blank_title) ≠ Some "."%char.
Proof.
  split_and!; [|done|done|done|done].
  constructor; [right; by left | constructor].
Qed.

(** ** The catalog reader *)

Lemma process_row_usable env fs r :
  usable fs r = true →
  process_row env fs r = from_option Added Raised (episode_of_row env r).
Proof.
  unfold usable, process_row, episode_of_row, source_path, row_date.
  intros [[-> ->]%andb_true_iff ->]%andb_true_iff. cbn.
  by destruct (if truthy_num _ then _ else _).
Qed.

Lemma process_row_unusable env fs r :
  usable fs r = false →
  process_row env fs r = Ignored ∨ process_row env fs r = FileNotFound.
Proof.
  unfold usable, process_row, source_path.
  destruct (truthy_str _ && Str.startswith _ _); cbn; [|by left].
  intros ->. by right.
Qed.

(** The loop keeps the usable rows, in order, and fails when a date does. *)
Lemma collect_episodes_spec env fs rows :
  collect_episodes env fs rows
  = mapM (episode_of_row env) (filter (λ r, usable fs r = true) rows).
Proof.
  induction rows as [|r rows IH]; [done|]. cbn [collect_episodes].
  destruct (usable fs r) eqn:E.
  - rewrite filter_cons_True by done. rewrite (process_row_usable _ _ _ E).
    cbn. destruct (episode_of_row env r); cbn; [|done]. by rewrite IH.
  - rewrite filter_cons_False by (by rewrite E).
    by destruct (process_row_unusable env fs r E) as [-> | ->].
Qed.


#[local] Instance newer_trans : Transitive Sql.newer.
Proof. unfold Sql.newer. intros ???. lia. Qed.

#[local] Instance newer_total : Total Sql.newer.
Proof. unfold Sql.newer. intros ??. lia. Qed.


Lemma filter_sublist {A} (P : A → Prop) `{∀ x, Decision (P x)} (l : list A) :
  filter P l `sublist_of` l.
Proof.
  induction l as [|x l IH]; [done|].
  destruct (decide (P x)).
  - rewrite filter_cons_True by done. by constructor.
  - rewrite filter_cons_False by done. by constructor.
Qed.





(** The arithmetic of the conversion is right at both ends ... *)
Lemma core_data_epoch_plus_0 :
  Datetime.add_seconds core_data_epoch 0 = Some (mk_datetime 2001 1 1 0 0 0).
Proof. reflexivity. Qed.

Lemma core_data_epoch_plus_86400 :
  Datetime.add_seconds core_data_epoch 86400
  = Some (mk_datetime 2001 1 2 0 0 0).
Proof. reflexivity. Qed.

(** ... but a stored 0 never reaches it: the test [if download_date] sends
    it to the clock. *)
Lemma row_date_zero env r :
  download_date r = Some 0 → row_date env r = Some (now env).
Proof. unfold row_date. by intros ->. Qed.

Lemma row_date_nonzero env r t :
  download_date r = Some t → t ≠ 0 →
  row_date env r = Datetime.add_seconds core_data_epoch t.
Proof.
  unfold row_date. intros -> Ht. cbn. by rewrite bool_decide_true.
Qed.

(** C4 (the code departs from the claim): of two episodes stamped 86400 and
    0, the first is dated 2001-01-02T00:00:00 as claimed, the second is
    dated by the clock (here 2026-11-04T12:00:00) and not
    2001-01-01T00:00:00. *)
Theorem get_recent_podcasts_epoch_zero :
  let env := working_env store_epoch in
  map (λ e, (title e, date_added e))
      (get_recent_podcasts env disk library 10)
  = [ ("Day one", mk_datetime 2001 1 2 0 0 0);
      ("Day zero", now env) ]
  ∧ now env = mk_datetime 2026 11 4 12 0 0
  ∧ now env ≠ core_data_epoch.
Proof. vm_compute. split_and!; done. Qed.

(** ** [copy_episode] *)

Lemma mkdir_directory (p : path) (fs : fsys) :
  FS.is_dir fs p = true → FS.mkdir p fs = Some fs.
Proof.
  unfold FS.is_dir, FS.has_kind, FS.mkdir.
  destruct (fs !! p) as [n|]; [|done]. by intros ->.
Qed.

(** A [mkdir] that succeeded leaves a directory, which a second [mkdir]
    finds, and changes no other path. *)
Lemma mkdir_Some (p : path) (fs fs1 : fsys) :
  FS.mkdir p fs = Some fs1 →
  FS.is_dir fs1 p = true ∧ FS.mkdir p fs1 = Some fs1
  ∧ ∀ q, q ≠ p → fs1 !! q = fs !! q.
Proof.
  unfold FS.mkdir, FS.is_dir, FS.has_kind.
  destruct (fs !! p) as [n|] eqn:E.
  - case_bool_decide as Hk; [|done]. intros [= <-]. rewrite E.
    by rewrite bool_decide_true.
  - intros [= <-]. rewrite lookup_insert_eq. cbn. split_and!; [done..|].
    intros q Hq. by rewrite lookup_insert_ne.
Qed.

Lemma podcasts_dir_eq (self : DeviceManager) :
  podcasts_dir self = device_path self ++ ["Podcasts"].
Proof.
  unfold podcasts_dir, Pathlib.joinpath.
  change (Str.startswith "/" "Podcasts") with false. cbn iota.
  by f_equal.
Qed.

Lemma mkdir_connected (self : DeviceManager) (fs fs1 : fsys) :
  FS.mkdir (podcasts_dir self) fs = Some fs1 →
  is_connected self fs1 = is_connected self fs.
Proof.
  intros (_ & _ & H)%mkdir_Some.
  unfold is_connected, FS.exists_, FS.is_dir, FS.has_kind.
  rewrite H; [done|]. rewrite podcasts_dir_eq. intros Heq.
  apply (f_equal length) in Heq. rewrite length_app in Heq. cbn in Heq. lia.
Qed.

Lemma exists_nonempty_false (fs : fsys) (p : path) :
  FS.exists_nonempty fs p = false
  ↔ fs !! p = None ∨ ∃ n, fs !! p = Some n ∧ st_size n ≤ 0.
Proof.
  unfold FS.exists_nonempty. destruct (fs !! p) as [n|].
  - rewrite Z.ltb_ge. split; [intros ?; right; eauto|].
    by intros [?|(? & [= <-] & ?)].
  - split; [by left | done].
Qed.

Lemma exists_nonempty_true (fs : fsys) (p : path) :
  FS.exists_nonempty fs p = true ↔ ∃ n, fs !! p = Some n ∧ 0 < st_size n.
Proof.
  unfold FS.exists_nonempty. destruct (fs !! p) as [n|].
  - rewrite Z.ltb_lt. split; [eauto|]. by intros (? & [= <-] & ?).
  - split; [done|]. by intros (? & ? & ?).
Qed.

(** The call up to the test for ffmpeg: on a mounted device whose
    [Podcasts] folder is there or can be made, and with the three opening
    messages printed. *)
Ltac open_copy self Hconn Hmk Hann :=
  let Hp := fresh "Hp" in
  let Hs := fresh "Hs" in
  let Hd := fresh "Hd" in
  destruct Hann as (Hp & Hs & Hd);
  unfold copy_episode; unfold destination_of in *;
  fold (podcasts_dir self) in *;
  rewrite Hconn, Hmk, Hp, Hs, Hd; cbn [negb].

(** The skip: nothing but the (idle) [mkdir] is called, nothing changes. *)
Lemma copy_episode_skipped env self e fs :
  which_ffmpeg env = true → announced env self e →
  already_on_device self e fs →
  copy_episode env self e fs
  = mk_copy_result Skipped fs [Call_mkdir (podcasts_dir self)].
Proof.
  intros Hff Hann [[Hconn Hdir] Hdst].
  pose proof (mkdir_directory _ _ Hdir) as Hmk.
  open_copy self Hconn Hmk Hann. rewrite Hff. cbn. by rewrite Hdst.
Qed.

(** Without ffmpeg on the path nothing is copied or skipped. *)
Lemma copy_episode_without_ffmpeg env self e fs :
  which_ffmpeg env = false →
  outcome_ok (result (copy_episode env self e fs)) = false.
Proof.
  intros Hff. unfold copy_episode, copy_handler. rewrite Hff. cbn [negb].
  destruct (is_connected self fs); [|done]. cbn [negb].
  destruct (FS.mkdir _ fs); [|case_match; by cbn].
  repeat (case_match; try done).
Qed.

Lemma copy_episode_ffmpeg_not_found env self e fs :
  which_ffmpeg env = false → announced env self e → device_ready self fs →
  copy_episode env self e fs
  = mk_copy_result FfmpegNotFound fs [Call_mkdir (podcasts_dir self)].
Proof.
  intros Hff Hann [Hconn Hdir].
  pose proof (mkdir_directory _ _ Hdir) as Hmk.
  open_copy self Hconn Hmk Hann. by rewrite Hff.
Qed.

(** Success is reported only with ffmpeg on the path, after the three
    opening messages, and with the destination in place and not empty. *)
Lemma copy_episode_ok_destination env self e fs :
  outcome_ok (result (copy_episode env self e fs)) = true →
  which_ffmpeg env = true
  ∧ announced env self e
  ∧ FS.exists_nonempty (fs_after (copy_episode env self e fs))
      (destination_of self e) = true.
Proof.
  unfold copy_episode, copy_handler, announced, destination_of.
  destruct (is_connected self fs); [|done]. cbn [negb].
  destruct (FS.mkdir _ fs) as [fs1|]; [|case_match; by cbn].
  destruct (console_print env (msg_processing e)); cbn [negb];
    [|case_match; by cbn].
  destruct (console_print env (msg_source _)); cbn [negb];
    [|case_match; by cbn].
  destruct (console_print env (msg_destination _)); cbn [negb];
    [|case_match; by cbn].
  destruct (which_ffmpeg env); [|done]. cbn [negb].
  destruct (FS.exists_nonempty fs1 _) eqn:Hdst; [done|].
  destruct (FS.exists_ fs1 (Pathlib.Path _)); [|done]. cbn [negb].
  destruct (FS.exists_ fs1 _).
  - destruct (FS.unlink _ _ fs1) as [fs2|]; [|repeat case_match; by cbn].
    destruct (NamedTemporaryFile env _ fs2) as [[tmp fs3]|];
      [|case_match; by cbn].
    destruct (run_ffmpeg env _ tmp fs3) as [rc fs4].
    case_bool_decide; [repeat case_match; by cbn|].
    destruct (shutil_move env tmp _ fs4) as [[] fs5];
      [|repeat case_match; by cbn].
    cbn [negb]. by destruct (FS.exists_nonempty fs5 _) eqn:Hv.
  - destruct (NamedTemporaryFile env _ fs1) as [[tmp fs3]|];
      [|case_match; by cbn].
    destruct (run_ffmpeg env _ tmp fs3) as [rc fs4].
    case_bool_decide; [repeat case_match; by cbn|].
    destruct (shutil_move env tmp _ fs4) as [[] fs5];
      [|repeat case_match; by cbn].
    cbn [negb]. by destruct (FS.exists_nonempty fs5 _) eqn:Hv.
Qed.

(** The missing source, on a device whose [Podcasts] folder is there or
    has just been made. *)
Lemma copy_episode_source_missing env self e fs fs1 :
  which_ffmpeg env = true → announced env self e →
  is_connected self fs = true →
  FS.mkdir (podcasts_dir self) fs = Some fs1 →
  FS.exists_nonempty fs1 (destination_of self e) = false →
  FS.exists_ fs1 (Pathlib.Path (file_path e)) = false →
  copy_episode env self e fs
  = mk_copy_result SourceNotFound fs1 [Call_mkdir (podcasts_dir self)].
Proof.
  intros Hff Hann Hconn Hmk Hdst Hsrc.
  open_copy self Hconn Hmk Hann. rewrite Hff. cbn. by rewrite Hdst, Hsrc.
Qed.

(** A call finds the folder that an earlier call made: it does what it
    would have done without that call. *)
Lemma copy_episode_after_mkdir env self e fs fs1 :
  is_connected self fs = true →
  FS.mkdir (podcasts_dir self) fs = Some fs1 →
  copy_episode env self e fs1 = copy_episode env self e fs.
Proof.
  intros Hconn Hmk. unfold copy_episode. fold (podcasts_dir self).
  rewrite (mkdir_connected _ _ _ Hmk), Hconn, Hmk.
  by destruct (mkdir_Some _ _ _ Hmk) as (_ & -> & _).
Qed.

(** *** The batch *)

Lemma copy_loop_cons env dev e eps fs :
  copy_loop env dev (e :: eps) fs
  = let r := copy_episode env dev e fs in
    if is_raised (result r) then ([result r], fs_after r, calls r)
    else (result r :: batch_outcomes env dev eps (fs_after r),
          batch_fs env dev eps (fs_after r),
          calls r ++ (copy_loop env dev eps (fs_after r)).2).
Proof.
  unfold batch_outcomes, batch_fs. cbn [copy_loop]. cbn zeta.
  destruct (is_raised _); [done|].
  by destruct (copy_loop env dev eps _) as [[??]?].
Qed.

Lemma batch_outcomes_cons env dev e eps fs :
  batch_outcomes env dev (e :: eps) fs
  = let r := copy_episode env dev e fs in
    result r :: (if is_raised (result r) then []
                 else batch_outcomes env dev eps (fs_after r)).
Proof.
  unfold batch_outcomes at 1. rewrite copy_loop_cons. cbn zeta.
  by destruct (is_raised _).
Qed.

Lemma batch_fs_cons env dev e eps fs :
  batch_fs env dev (e :: eps) fs
  = let r := copy_episode env dev e fs in
    if is_raised (result r) then fs_after r
    else batch_fs env dev eps (fs_after r).
Proof.
  unfold batch_fs at 1. rewrite copy_loop_cons. cbn zeta.
  by destruct (is_raised _).
Qed.

(** A batch after a batch: the second one runs when the first did not
    raise. *)
Lemma batch_outcomes_app env dev l1 l2 fs :
  batch_outcomes env dev (l1 ++ l2) fs
  = batch_outcomes env dev l1 fs
      ++ (if existsb is_raised (batch_outcomes env dev l1 fs) then []
          else batch_outcomes env dev l2 (batch_fs env dev l1 fs)).
Proof.
  revert fs. induction l1 as [|e l1 IH]; intros fs; [done|].
  cbn [app]. rewrite !batch_outcomes_cons, batch_fs_cons. cbn zeta.
  destruct (is_raised (result (copy_episode env dev e fs))) eqn:E.
  - cbn. by rewrite E.
  - cbn. rewrite E. cbn. by rewrite IH.
Qed.

Lemma batch_fs_app env dev l1 l2 fs :
  batch_fs env dev (l1 ++ l2) fs
  = if existsb is_raised (batch_outcomes env dev l1 fs)
    then batch_fs env dev l1 fs
    else batch_fs env dev l2 (batch_fs env dev l1 fs).
Proof.
  revert fs. induction l1 as [|e l1 IH]; intros fs; [done|].
  cbn [app]. rewrite batch_outcomes_cons, !batch_fs_cons. cbn zeta.
  destruct (is_raised (result (copy_episode env dev e fs))) eqn:E.
  - cbn. by rewrite E.
  - cbn. rewrite E. cbn. by rewrite IH.
Qed.

(** Every episode of the batch gets its turn until a call raises. *)
Lemma batch_outcomes_length env dev eps fs :
  (length (batch_outcomes env dev eps fs) ≤ length eps)%nat
  ∧ (existsb is_raised (batch_outcomes env dev eps fs) = false →
     length (batch_outcomes env dev eps fs) = length eps).
Proof.
  revert fs. induction eps as [|e eps IH]; intros fs; [done|].
  rewrite batch_outcomes_cons. cbn zeta.
  destruct (is_raised (result (copy_episode env dev e fs))) eqn:E.
  - cbn. rewrite E. split; [lia | done].
  - cbn. rewrite E. cbn.
    destruct (IH (fs_after (copy_episode env dev e fs))) as [H1 H2].
    split; [lia|]. intros H. by rewrite H2.
Qed.

(** Only the last outcome of a batch can be an exception. *)
Lemma batch_outcomes_raised env dev eps fs i o :
  batch_outcomes env dev eps fs !! i = Some o → is_raised o = true →
  S i = length (batch_outcomes env dev eps fs).
Proof.
  revert fs i. induction eps as [|e eps IH]; intros fs i; [done|].
  rewrite batch_outcomes_cons. cbn zeta.
  destruct (is_raised (result (copy_episode env dev e fs))) eqn:E.
  - destruct i; [done|]. by cbn.
  - destruct i as [|i]; cbn.
    + intros [= <-]. congruence.
    + intros Hi Ho. f_equal. by eapply IH.
Qed.

Lemma existsb_is_raised_ok (os : list outcome) :
  Forall (λ o, outcome_ok o = true) os → existsb is_raised os = false.
Proof.
  induction 1 as [|o os Ho _ IH]; [done|]. cbn. rewrite IH.
  by destruct o.
Qed.

(** C5 (as amended): with ffmpeg on the path, take a batch and an episode
    [e] of it whose three opening messages the console prints, and whose
    turn comes (no earlier call raised) with the device mounted, the
    [Podcasts] folder there or makeable, the source file of [e] missing
    and no non-empty destination file of [e] on the device.  Then [e] gets
    the source-not-found failure, and the others get exactly the outcomes
    they get in the batch without [e]: [e] adds one outcome and changes no
    other, so every episode gets its outcome when none raises without
    [e].  The file system in the end is that of the batch without [e],
    except that when [e] is the last episode the folder it made stays.
    So when the others succeed without [e] they succeed with it and [e]
    is the only failure: for three episodes of which only the second's
    source is missing, the outcomes are success, source-not-found,
    success. *)
Theorem copy_loop_isolation env dev before e after fs fs1 :
  which_ffmpeg env = true →
  announced env dev e →
  let fs0 := batch_fs env dev before fs in
  existsb is_raised (batch_outcomes env dev before fs) = false →
  is_connected dev fs0 = true →
  FS.mkdir (podcasts_dir dev) fs0 = Some fs1 →
  FS.exists_ fs1 (Pathlib.Path (file_path e)) = false →
  FS.exists_nonempty fs1 (destination_of dev e) = false →
  let with_e := batch_outcomes env dev (before ++ e :: after) fs in
  let without_e := batch_outcomes env dev (before ++ after) fs in
  with_e !! length before = Some SourceNotFound
  ∧ with_e = take (length before) without_e
               ++ SourceNotFound :: drop (length before) without_e
  ∧ length with_e = S (length without_e)
  ∧ (existsb is_raised without_e = false →
     length with_e = length (before ++ e :: after))
  ∧ batch_fs env dev (before ++ e :: after) fs
      = match after with
        | [] => fs1
        | _ :: _ => batch_fs env dev (before ++ after) fs
        end
  ∧ (Forall (λ o, outcome_ok o = true) without_e →
     length with_e = length (before ++ e :: after)
     ∧ ∀ i o, with_e !! i = Some o →
              (outcome_ok o = false ↔ i = length before)).
Proof.
  intros Hff Hann fs0 Hrun Hconn Hmk Hsrc Hdst with_e without_e.
  pose proof (copy_episode_source_missing env dev e fs0 fs1 Hff Hann Hconn
                Hmk Hdst Hsrc) as Hstep.
  assert (batch_outcomes env dev after fs1 = batch_outcomes env dev after fs0
          ∧ match after with
            | [] => True
            | _ :: _ => batch_fs env dev after fs1 = batch_fs env dev after fs0
            end) as [Hsame Hsamefs].
  { destruct after as [|e' after]; [done|].
    rewrite !batch_outcomes_cons, !batch_fs_cons.
    by rewrite (copy_episode_after_mkdir env dev e' fs0 fs1 Hconn Hmk). }
  assert (with_e = batch_outcomes env dev before fs
                     ++ SourceNotFound :: batch_outcomes env dev after fs0)
    as Hwith.
  { subst with_e. rewrite batch_outcomes_app, Hrun, batch_outcomes_cons.
    fold fs0. rewrite Hstep. cbn. by rewrite Hsame. }
  assert (without_e = batch_outcomes env dev before fs
                        ++ batch_outcomes env dev after fs0) as Hwithout.
  { subst without_e. by rewrite batch_outcomes_app, Hrun. }
  destruct (batch_outcomes_length env dev before fs) as [_ Hlen].
  specialize (Hlen Hrun).
  assert (length with_e = S (length without_e)) as Hone.
  { rewrite Hwith, Hwithout, !length_app. cbn. lia. }
  assert (existsb is_raised without_e = false →
          length with_e = length (before ++ e :: after)) as Hfull.
  { intros Hno. rewrite Hone.
    destruct (batch_outcomes_length env dev (before ++ after) fs)
      as [_ Hl]. fold without_e in Hl. rewrite (Hl Hno), !length_app.
    cbn. lia. }
  split_and!.
  - rewrite Hwith, lookup_app_r by lia. by rewrite Hlen, Nat.sub_diag.
  - rewrite Hwith, Hwithout.
    rewrite take_app_length', drop_app_length' by done. done.
  - done.
  - done.
  - rewrite !batch_fs_app, Hrun, batch_fs_cons. fold fs0. rewrite Hstep.
    cbn. by destruct after.
  - intros Hall. split; [by apply Hfull, existsb_is_raised_ok|].
    rewrite Hwith. rewrite Hwithout in Hall. intros i o Hi.
    apply Forall_app in Hall as [Hb Ha].
    apply lookup_app_Some in Hi as [Hi|[Hge Hi]].
    + apply lookup_lt_Some in Hi as Hlt.
      rewrite Forall_forall in Hb.
      rewrite (Hb o) by (by eapply list_elem_of_lookup_2).
      split; [done | lia].
    + rewrite Hlen in *. destruct (i - length before)%nat as [|j] eqn:Ej.
      * cbn in Hi. simplify_eq. split; [lia | done].
      * cbn in Hi. rewrite Forall_forall in Ha.
        rewrite (Ha o) by (by eapply list_elem_of_lookup_2).
        split; [done | lia].
Qed.

(** Concrete facts about the small worlds are settled by evaluation. *)
Ltac by_evaluation :=
  unfold already_on_device, device_ready, announced; split_and?;
  compute_done.

(** C1 (as amended): with ffmpeg on the path and the three opening
    messages of the episode printed by the console, an episode whose
    destination file is already on the mounted device with a size above
    zero is reported as skipped, which counts as success; only the idle
    [mkdir] of the [Podcasts] folder is called (no ffmpeg, no unlink, no
    move) and the file system is left as it was.  Hence, when a first call
    succeeds (which it does only with ffmpeg on the path and after the
    three messages) the destination is on the device and not empty, and a
    second call, the device still mounted, is a skip that leaves the file
    system of the first call untouched. *)
Theorem copy_episode_idempotent env self e :
  (which_ffmpeg env = true → announced env self e →
   ∀ fs, already_on_device self e fs →
     let r := copy_episode env self e fs in
     result r = Skipped ∧ outcome_ok (result r) = true
     ∧ fs_after r = fs ∧ calls r = [Call_mkdir (podcasts_dir self)])
  ∧ (∀ fs,
     let first := copy_episode env self e fs in
     let second := copy_episode env self e (fs_after first) in
     outcome_ok (result first) = true →
     which_ffmpeg env = true ∧ announced env self e
     ∧ FS.exists_nonempty (fs_after first) (destination_of self e) = true
     ∧ (device_ready self (fs_after first) →
        result second = Skipped ∧ outcome_ok (result second) = true
        ∧ fs_after second = fs_after first
        ∧ calls second = [Call_mkdir (podcasts_dir self)])).
Proof.
  split.
  - intros Hff Hann fs Hon r. subst r.
    by rewrite (copy_episode_skipped env self e fs).
  - intros fs first second Hok.
    apply copy_episode_ok_destination in Hok as (Hff & Hann & Hdst).
    split_and!; [done..|]. intros Hready. subst second.
    by rewrite (copy_episode_skipped env self e (fs_after first)).
Qed.

Lemma copy_episode_idempotent_witness :
  let env := working_env (mk_database [] []) in
  (let r := copy_episode env xtrainerz episode_one mounted_with_one in
   result r = Skipped ∧ outcome_ok (result r) = true
   ∧ fs_after r = mounted_with_one
   ∧ calls r = [Call_mkdir (podcasts_dir xtrainerz)])
  ∧ (let first := copy_episode env xtrainerz episode_one mounted in
     let second := copy_episode env xtrainerz episode_one (fs_after first) in
     FS.exists_nonempty (fs_after first)
       (destination_of xtrainerz episode_one) = true
     ∧ result second = Skipped ∧ outcome_ok (result second) = true
     ∧ fs_after second = fs_after first
     ∧ calls second = [Call_mkdir (podcasts_dir xtrainerz)]).
Proof.
  destruct (copy_episode_idempotent (working_env (mk_database [] []))
              xtrainerz episode_one) as [Hskip Htwice].
  split.
  - apply Hskip; by_evaluation.
  - destruct (Htwice mounted) as (_ & _ & Hdst & Hsecond); [by_evaluation|].
    split; [exact Hdst|]. apply Hsecond. by_evaluation.
Defined.

(** C1 (as stated) fails, twice over.  The test for ffmpeg comes before
    the test for the destination: with the first episode on the device and
    its source unchanged, but ffmpeg not on the path, the call reports the
    missing ffmpeg and returns failure.  And the title is printed before
    either test: with ffmpeg on the path and an episode on the device whose
    title holds a closing tag, the print of the title raises, the handler
    prints the title again, and that exception leaves the call. *)
Lemma copy_episode_idempotent_counterexample :
  (already_on_device xtrainerz episode_one mounted_with_one
   ∧ FS.exists_ mounted_with_one (Pathlib.Path (file_path episode_one)) = true
   ∧ result (copy_episode env_without_ffmpeg xtrainerz episode_one
               mounted_with_one) = FfmpegNotFound
   ∧ outcome_ok (result (copy_episode env_without_ffmpeg xtrainerz
                           episode_one mounted_with_one)) = false)
  ∧ (let fs : fsys :=
       <[destination_of xtrainerz episode_markup := a_file 2049]> mounted in
     already_on_device xtrainerz episode_markup fs
     ∧ which_ffmpeg env_markup = true
     ∧ title episode_markup = "AMA [/b]"
     ∧ console_print env_markup (msg_processing episode_markup) = false
     ∧ is_raised (result (copy_episode env_markup xtrainerz episode_markup
                            fs)) = true
     ∧ outcome_ok (result (copy_episode env_markup xtrainerz episode_markup
                             fs)) = false).
Proof. split; by_evaluation. Qed.

(** C9 (as amended): the test for the destination comes before the test
    for the source.  With ffmpeg on the path and the three opening
    messages printed, an episode whose destination file is on the mounted
    device with a size above zero is reported as skipped, a success, also
    when its source file does not exist; and whatever ffmpeg and the
    console do, the source-not-found failure is never the outcome for
    such an episode. *)
Theorem copy_episode_skip_precedes_source env self e fs :
  already_on_device self e fs →
  (which_ffmpeg env = true → announced env self e →
   FS.exists_ fs (Pathlib.Path (file_path e)) = false →
   result (copy_episode env self e fs) = Skipped
   ∧ outcome_ok (result (copy_episode env self e fs)) = true)
  ∧ result (copy_episode env self e fs) ≠ SourceNotFound.
Proof.
  intros Hon. split.
  - intros Hff Hann _. by rewrite (copy_episode_skipped env self e fs).
  - destruct Hon as [[Hconn Hdir] Hdst].
    unfold copy_episode, copy_handler. unfold destination_of in Hdst.
    fold (podcasts_dir self) in *.
    rewrite Hconn, (mkdir_directory _ _ Hdir). cbn [negb].
    repeat (case_match; try done); congruence.
Qed.

Lemma copy_episode_skip_precedes_source_witness :
  FS.exists_ mounted_source_gone (Pathlib.Path (file_path episode_one))
  = false
  ∧ result (copy_episode (working_env (mk_database [] [])) xtrainerz
              episode_one mounted_source_gone) = Skipped
  ∧ outcome_ok (result (copy_episode (working_env (mk_database [] []))
                          xtrainerz episode_one mounted_source_gone)) = true.
Proof.
  split; [by_evaluation|].
  apply (copy_episode_skip_precedes_source (working_env (mk_database [] []))
           xtrainerz episode_one mounted_source_gone); by_evaluation.
Defined.

(** C9 (as stated) fails, twice over: with the destination on the device
    and the source gone, the call returns failure when ffmpeg is not on
    the path, and it raises when the title holds a closing tag. *)
Lemma copy_episode_skip_counterexample :
  (already_on_device xtrainerz episode_one mounted_source_gone
   ∧ FS.exists_ mounted_source_gone (Pathlib.Path (file_path episode_one))
     = false
   ∧ result (copy_episode env_without_ffmpeg xtrainerz episode_one
               mounted_source_gone) = FfmpegNotFound
   ∧ outcome_ok (result (copy_episode env_without_ffmpeg xtrainerz
                           episode_one mounted_source_gone)) = false)
  ∧ (let fs : fsys :=
       <[destination_of xtrainerz episode_markup := a_file 2049]>
         (delete ["Users"; "me"; "Cache"; "one.mp3"] mounted) in
     already_on_device xtrainerz episode_markup fs
     ∧ FS.exists_ fs (Pathlib.Path (file_path episode_markup)) = false
     ∧ which_ffmpeg env_markup = true
     ∧ is_raised (result (copy_episode env_markup xtrainerz episode_markup
                            fs)) = true
     ∧ outcome_ok (result (copy_episode env_markup xtrainerz episode_markup
                             fs)) = false).
Proof. split; by_evaluation. Qed.

Lemma announced_dec (env : Env) (self : DeviceManager) (e : PodcastEpisode) :
  announced env self e ∨ ¬ announced env self e.
Proof.
  unfold announced.
  destruct (console_print env (msg_processing e));
    destruct (console_print env (msg_source _));
    destruct (console_print env (msg_destination _));
    (by left) || (right; by intros (? & ? & ?)).
Qed.

(** A call whose opening messages are not all printed ends in the
    handler, with the folder made and nothing else called. *)
Lemma copy_episode_unannounced env self e fs fs1 :
  is_connected self fs = true →
  FS.mkdir (podcasts_dir self) fs = Some fs1 →
  ¬ announced env self e →
  let r := copy_episode env self e fs in
  outcome_ok (result r) = false
  ∧ fs_after r = fs1
  ∧ calls r = [Call_mkdir (podcasts_dir self)]
  ∧ (result r = Unhandled ∨ is_raised (result r) = true).
Proof.
  intros Hconn Hmk Hno. cbn zeta.
  unfold copy_episode, copy_handler, announced, destination_of in *.
  fold (podcasts_dir self) in *. rewrite Hconn, Hmk. cbn [negb].
  destruct (console_print env (msg_processing e)); cbn [negb].
  2:{ destruct (console_print env (msg_unhandled _ _)); cbn; split_and!;
        (done || (by left) || (by right)). }
  destruct (console_print env (msg_source _)); cbn [negb].
  2:{ destruct (console_print env (msg_unhandled _ _)); cbn; split_and!;
        (done || (by left) || (by right)). }
  destruct (console_print env (msg_destination _)); cbn [negb].
  2:{ destruct (console_print env (msg_unhandled _ _)); cbn; split_and!;
        (done || (by left) || (by right)). }
  by destruct Hno.
Qed.

(** C7: when the checks before the transcoding pass, ffmpeg returns code 0
    and the move returns, but the destination is then missing or has size
    zero, the call never returns success.  The transcoder is run exactly
    when the three opening messages were printed, and then the outcome is
    the verification failure, after the run of ffmpeg and the move. *)
Theorem copy_episode_verification_failed
    (env : Env) (self : DeviceManager) (e : PodcastEpisode)
    (fs fs1 fs2 fs3 fs4 fs5 : fsys) (tmp_path : path) :
  let source := Pathlib.Path (file_path e) in
  let destination := destination_of self e in
  is_connected self fs = true →
  FS.mkdir (podcasts_dir self) fs = Some fs1 →
  which_ffmpeg env = true →
  FS.exists_nonempty fs1 destination = false →
  FS.exists_ fs1 source = true →
  (if FS.exists_ fs1 destination
   then FS.unlink (unlink_refused env) destination fs1
   else Some fs1) = Some fs2 →
  NamedTemporaryFile env (Pathlib.suffix destination) fs2
    = Some (tmp_path, fs3) →
  run_ffmpeg env source tmp_path fs3 = (0, fs4) →
  shutil_move env tmp_path destination fs4 = (true, fs5) →
  (fs5 !! destination = None
   ∨ ∃ n, fs5 !! destination = Some n ∧ st_size n ≤ 0) →
  outcome_ok (result (copy_episode env self e fs)) = false
  ∧ (Call_ffmpeg source tmp_path ∈ calls (copy_episode env self e fs)
     ↔ announced env self e)
  ∧ (announced env self e →
     result (copy_episode env self e fs) = VerificationFailed
     ∧ fs_after (copy_episode env self e fs) = fs5
     ∧ Call_ffmpeg source tmp_path ∈ calls (copy_episode env self e fs)
     ∧ Call_move tmp_path destination ∈ calls (copy_episode env self e fs)).
Proof.
  intros source destination Hconn Hmk Hff Hdst Hsrc Hrm Htmp Hrun Hmv
    Hgone.
  apply exists_nonempty_false in Hgone. subst source destination.
  assert (announced env self e →
          copy_episode env self e fs
          = mk_copy_result VerificationFailed fs5
              ((if FS.exists_ fs1 (destination_of self e)
                then [Call_mkdir (podcasts_dir self);
                      Call_unlink (destination_of self e)]
                else [Call_mkdir (podcasts_dir self)])
               ++ [Call_tempfile (Pathlib.suffix (destination_of self e));
                   Call_ffmpeg (Pathlib.Path (file_path e)) tmp_path;
                   Call_move tmp_path (destination_of self e)])) as Hrun'.
  { intros Hann. open_copy self Hconn Hmk Hann. rewrite Hff. cbn.
    rewrite Hdst, Hsrc. cbn.
    revert Hrm.
    destruct (FS.exists_ fs1 (podcasts_dir self // filename e)); intros Hrm;
      [rewrite Hrm | injection Hrm as <-];
      cbn; rewrite Htmp, Hrun; cbn; rewrite Hmv; cbn; by rewrite Hgone. }
  destruct (announced_dec env self e) as [Hann|Hno].
  - rewrite (Hrun' Hann). cbn [result fs_after calls outcome_ok].
    assert (Call_ffmpeg (Pathlib.Path (file_path e)) tmp_path
              ∈ (if FS.exists_ fs1 (destination_of self e)
                 then [Call_mkdir (podcasts_dir self);
                       Call_unlink (destination_of self e)]
                 else [Call_mkdir (podcasts_dir self)])
                ++ [Call_tempfile (Pathlib.suffix (destination_of self e));
                    Call_ffmpeg (Pathlib.Path (file_path e)) tmp_path;
                    Call_move tmp_path (destination_of self e)]) as Hin.
    { apply elem_of_app. right. repeat constructor. }
    split_and!; [done|done|]. intros _. split_and!; [done..|].
    apply elem_of_app. right. repeat constructor.
  - destruct (copy_episode_unannounced env self e fs fs1 Hconn Hmk Hno)
      as (Hok & _ & Hcalls & _).
    split_and!; [done| |done].
    rewrite Hcalls. split; [|done]. by intros ?%list_elem_of_singleton.
Qed.

Lemma copy_episode_verification_failed_witness :
  let r := copy_episode env_losing_files xtrainerz episode_one mounted in
  result r = VerificationFailed
  ∧ outcome_ok (result r) = false
  ∧ fs_after r = mounted
  ∧ Call_ffmpeg (Pathlib.Path (file_path episode_one)) (tmp_file ".mp3")
      ∈ calls r
  ∧ Call_move (tmp_file ".mp3") (destination_of xtrainerz episode_one)
      ∈ calls r.
Proof.
  destruct (copy_episode_verification_failed env_losing_files xtrainerz
              episode_one mounted mounted mounted
              (<[tmp_file ".mp3" := a_file 0]> mounted)
              (<[tmp_file ".mp3" := a_file 2049]> mounted)
              mounted (tmp_file ".mp3")) as (Hok & _ & Hrun);
    [by_evaluation..| left; by_evaluation |].
  destruct Hrun as (H1 & H2 & H3 & H4); [by_evaluation|].
  by split_and!.
Defined.

(** A device as it comes: mounted, without a [Podcasts] folder. *)
Lemma copy_loop_isolation_witness :
  let env := working_env (mk_database [] []) in
  (let with_2 :=
     batch_outcomes env xtrainerz [episode_one; episode_two; episode_three]
       mounted in
   let without_2 :=
     batch_outcomes env xtrainerz [episode_one; episode_three] mounted in
   with_2 !! 1%nat = Some SourceNotFound
   ∧ with_2 = take 1 without_2 ++ SourceNotFound :: drop 1 without_2
   ∧ length with_2 = S (length without_2)
   ∧ (existsb is_raised without_2 = false → length with_2 = 3%nat)
   ∧ batch_fs env xtrainerz [episode_one; episode_two; episode_three]
       mounted
     = batch_fs env xtrainerz [episode_one; episode_three] mounted
   ∧ (Forall (λ o, outcome_ok o = true) without_2 →
      length with_2 = 3%nat
      ∧ ∀ i o, with_2 !! i = Some o →
               (outcome_ok o = false ↔ i = 1%nat)))
  ∧ (let fresh : fsys := delete (podcasts_dir xtrainerz) mounted in
     let with_1 :=
       batch_outcomes env xtrainerz [episode_two; episode_one; episode_three]
         fresh in
     let without_1 :=
       batch_outcomes env xtrainerz [episode_one; episode_three] fresh in
     with_1 !! 0%nat = Some SourceNotFound
     ∧ with_1 = take 0 without_1 ++ SourceNotFound :: drop 0 without_1
     ∧ length with_1 = S (length without_1)
     ∧ (existsb is_raised without_1 = false → length with_1 = 3%nat)
     ∧ batch_fs env xtrainerz [episode_two; episode_one; episode_three]
         fresh
       = batch_fs env xtrainerz [episode_one; episode_three] fresh
     ∧ (Forall (λ o, outcome_ok o = true) without_1 →
        length with_1 = 3%nat
        ∧ ∀ i o, with_1 !! i = Some o →
                 (outcome_ok o = false ↔ i = 0%nat))).
Proof.
  split.
  - apply (copy_loop_isolation (working_env (mk_database [] [])) xtrainerz
             [episode_one] episode_two [episode_three] mounted
             (batch_fs (working_env (mk_database [] [])) xtrainerz
                [episode_one] mounted));
      by_evaluation.
  - apply (copy_loop_isolation (working_env (mk_database [] [])) xtrainerz
             [] episode_two [episode_one; episode_three]
             (delete (podcasts_dir xtrainerz) mounted)
             (<[podcasts_dir xtrainerz := FS.new_directory]>
                (delete (podcasts_dir xtrainerz) mounted)));
      by_evaluation.
Defined.

(** The three episodes of the witness: copied, source not found, copied;
    and on a device without the folder, with the missing source first:
    source not found, copied, copied. *)
Lemma copy_loop_three_episodes :
  batch_outcomes (working_env (mk_database [] [])) xtrainerz
    [episode_one; episode_two; episode_three] mounted
  = [Copied; SourceNotFound; Copied]
  ∧ batch_outcomes (working_env (mk_database [] [])) xtrainerz
      [episode_two; episode_one; episode_three]
      (delete (podcasts_dir xtrainerz) mounted)
    = [SourceNotFound; Copied; Copied].
Proof. by_evaluation. Qed.

(** C5 (as stated) fails, twice over.  The test for ffmpeg comes before
    the test for the source: with the device mounted and only the second
    episode's source missing (and none of the three on the device), but
    ffmpeg not on the path, all three report the missing ffmpeg.  And an
    exception ends the batch: with ffmpeg on the path and a first episode
    whose title holds a closing tag, the first call raises and the two
    others, the one with the missing source among them, get no turn; and
    when the episode with the missing source is the one with that title,
    its call raises instead of reporting the source, and the third
    episode gets no turn. *)
Lemma copy_loop_isolation_counterexample :
  (device_ready xtrainerz mounted
   ∧ map (λ e, FS.exists_ mounted (Pathlib.Path (file_path e)))
         [episode_one; episode_two; episode_three] = [true; false; true]
   ∧ map (λ e, FS.exists_nonempty mounted (destination_of xtrainerz e))
         [episode_one; episode_two; episode_three] = [false; false; false]
   ∧ batch_outcomes env_without_ffmpeg xtrainerz
       [episode_one; episode_two; episode_three] mounted
     = [FfmpegNotFound; FfmpegNotFound; FfmpegNotFound])
  ∧ (which_ffmpeg env_markup = true
     ∧ map (λ e, FS.exists_ mounted (Pathlib.Path (file_path e)))
           [episode_markup; episode_two; episode_three]
       = [true; false; true]
     ∧ map is_raised
           (batch_outcomes env_markup xtrainerz
              [episode_markup; episode_two; episode_three] mounted)
       = [true]
     ∧ FS.exists_ mounted (Pathlib.Path (file_path episode_markup_gone))
       = false
     ∧ FS.exists_nonempty mounted
         (destination_of xtrainerz episode_markup_gone) = false
     ∧ map (λ o, (outcome_ok o, is_raised o))
           (batch_outcomes env_markup xtrainerz
              [episode_one; episode_markup_gone; episode_three] mounted)
       = [(true, false); (false, true)]).
Proof. split; by_evaluation. Qed.

(** ** The pruning *)

Lemma delete_file_spec (env : Env) (f : DeviceFile) (fs : fsys) :
  delete_file env f fs
  = if FS.is_file fs (df_path f) && negb (unlink_refused env (df_path f) fs)
    then
      if console_print env (msg_deleted (df_name f))
      then (Deleted, delete (df_path f) fs)
      else delete_handler env f (Failed_print (msg_deleted (df_name f)))
             (delete (df_path f) fs)
    else delete_handler env f (Failed_unlink (df_path f)) fs.
Proof. unfold delete_file, FS.unlink. by destruct (_ && _). Qed.

(** What [delete_file] leaves: the file is removed exactly when it is a
    regular file whose removal is not refused, whatever is printed. *)
Lemma delete_file_fs (env : Env) (f : DeviceFile) (fs : fsys) :
  (delete_file env f fs).2
  = if FS.is_file fs (df_path f) && negb (unlink_refused env (df_path f) fs)
    then delete (df_path f) fs else fs.
Proof.
  rewrite delete_file_spec. unfold delete_handler.
  destruct (_ && _); repeat case_match; done.
Qed.

(** With its two messages printed, [delete_file] returns: [True] when the
    unlink was carried out, [False] when it was not. *)
Lemma delete_file_reported (env : Env) (f : DeviceFile) (fs : fsys) :
  reported env f →
  delete_file env f fs
  = if FS.is_file fs (df_path f) && negb (unlink_refused env (df_path f) fs)
    then (Deleted, delete (df_path f) fs) else (DeleteFailed, fs).
Proof.
  intros [H1 H2]. rewrite delete_file_spec. unfold delete_handler.
  by rewrite H1, H2.
Qed.

Lemma prune_loop_kept (env : Env) (f : DeviceFile)
    (files : list DeviceFile) (fs : fsys) :
  keep f = true → prune_loop env (f :: files) fs = prune_loop env files fs.
Proof. intros H. cbn. by rewrite H. Qed.

Lemma prune_loop_unmarked (env : Env) (f : DeviceFile)
    (files : list DeviceFile) (fs : fsys) :
  keep f = false →
  prune_loop env (f :: files) fs
  = let d := delete_file env f fs in
    if is_delete_raised d.1 then ([(f, d.1)], d.2)
    else ((f, d.1) :: prune_calls env files d.2, prune_fs env files d.2).
Proof.
  intros H. unfold prune_calls, prune_fs. cbn. rewrite H. cbn.
  destruct (delete_file env f fs) as [d fs1]. cbn.
  destruct (is_delete_raised d); [done|].
  by destruct (prune_loop env files fs1).
Qed.

(** [delete_file] is called on unmarked files only, in order, each once,
    from the first on; on all of them when no call raised. *)
Lemma prune_calls_files (env : Env) (files : list DeviceFile) (fs : fsys) :
  map fst (prune_calls env files fs) `prefix_of` unmarked files
  ∧ (Forall (λ c, is_delete_raised c.2 = false) (prune_calls env files fs) →
     map fst (prune_calls env files fs) = unmarked files).
Proof.
  revert fs. induction files as [|f files IH]; intros fs; [done|].
  unfold unmarked. destruct (keep f) eqn:K.
  - unfold prune_calls. rewrite prune_loop_kept by done.
    rewrite filter_cons_False by (by rewrite K). apply IH.
  - unfold prune_calls at 1 2 3. rewrite prune_loop_unmarked by done.
    rewrite filter_cons_True by done. cbn zeta.
    destruct (is_delete_raised (delete_file env f fs).1) eqn:E; cbn.
    + split.
      * apply prefix_cons, prefix_nil.
      * intros [HE _]%Forall_cons. cbn in HE. congruence.
    + destruct (IH (delete_file env f fs).2) as [IH1 IH2]. split.
      * by apply prefix_cons.
      * intros [_ Hall]%Forall_cons. f_equal. by apply IH2.
Qed.

(** When the messages of the unmarked files are printed, no call raises. *)
Lemma prune_calls_reported (env : Env) (files : list DeviceFile)
    (fs : fsys) :
  Forall (reported env) (unmarked files) →
  Forall (λ c, c.2 = Deleted ∨ c.2 = DeleteFailed) (prune_calls env files fs).
Proof.
  revert fs. induction files as [|f files IH]; intros fs Hall.
  { constructor. }
  unfold unmarked in *. destruct (keep f) eqn:K.
  - unfold prune_calls. rewrite prune_loop_kept by done.
    rewrite filter_cons_False in Hall by (by rewrite K). by apply IH.
  - rewrite filter_cons_True in Hall by done.
    apply Forall_cons in Hall as [Hf Hall].
    unfold prune_calls at 1. rewrite prune_loop_unmarked by done.
    cbn zeta. rewrite (delete_file_reported env f fs Hf).
    destruct (_ && _); cbn; (constructor; [cbn; tauto | by apply IH]).
Qed.

(** A path that no unmarked file names is left as it was. *)
Lemma prune_fs_other (env : Env) (files : list DeviceFile) (fs : fsys)
    (p : path) :
  p ∉ map df_path (unmarked files) → prune_fs env files fs !! p = fs !! p.
Proof.
  revert fs. induction files as [|f files IH]; intros fs Hp; [done|].
  unfold unmarked in *. destruct (keep f) eqn:K.
  - unfold prune_fs. rewrite prune_loop_kept by done.
    rewrite filter_cons_False in Hp by (by rewrite K). by apply IH.
  - unfold prune_fs at 1. rewrite prune_loop_unmarked by done. cbn zeta.
    rewrite filter_cons_True in Hp by done. cbn in Hp.
    apply not_elem_of_cons in Hp as [Hne Hp].
    assert ((delete_file env f fs).2 !! p = fs !! p) as Hstep.
    { rewrite delete_file_fs. destruct (_ && _); [|done].
      by rewrite lookup_delete_ne. }
    destruct (is_delete_raised _); cbn [snd]; [done|].
    by rewrite IH.
Qed.

Lemma deleted_count_cons (f : DeviceFile) (d : deletion) log :
  deleted_count ((f, d) :: log)
  = ((if bool_decide (d = Deleted) then 1 else 0) + deleted_count log)%nat.
Proof.
  unfold deleted_count, count_true. cbn [snd]. case_bool_decide.
  - by rewrite filter_cons_True by (cbn; by rewrite bool_decide_true).
  - by rewrite filter_cons_False by (cbn; by rewrite bool_decide_false).
Qed.

(** With the messages printed, the count is the number of files that left
    the file system. *)
Lemma prune_count_size (env : Env) (files : list DeviceFile) (fs : fsys) :
  Forall (reported env) (unmarked files) →
  (size (prune_fs env files fs) + deleted_count (prune_calls env files fs))%nat
  = size fs.
Proof.
  revert fs. induction files as [|f files IH]; intros fs Hall.
  { unfold prune_fs, prune_calls, deleted_count, count_true. cbn. lia. }
  unfold unmarked in *. destruct (keep f) eqn:K.
  - unfold prune_fs, prune_calls. rewrite prune_loop_kept by done.
    rewrite filter_cons_False in Hall by (by rewrite K). by apply IH.
  - rewrite filter_cons_True in Hall by done.
    apply Forall_cons in Hall as [Hf Hall].
    unfold prune_fs at 1, prune_calls at 1.
    rewrite prune_loop_unmarked by done. cbn zeta.
    rewrite (delete_file_reported env f fs Hf).
    destruct (FS.is_file fs (df_path f)
              && negb (unlink_refused env (df_path f) fs)) eqn:E;
      cbn [fst snd is_delete_raised]; rewrite deleted_count_cons.
    + specialize (IH (delete (df_path f) fs) Hall).
      apply andb_true_iff in E as [E _].
      unfold FS.is_file, FS.has_kind in E.
      destruct (fs !! df_path f) as [n|] eqn:L; [|done].
      assert (size fs = S (size (delete (df_path f) fs))) as Hsz.
      { rewrite <- (insert_delete_id fs (df_path f) n L) at 1.
        apply map_size_insert_None, lookup_delete_eq. }
      rewrite bool_decide_true by done. lia.
    + specialize (IH fs Hall). rewrite bool_decide_false by done. lia.
Qed.

Lemma is_file_delete_ne (fs : fsys) (p q : path) :
  p ≠ q → FS.is_file (delete p fs) q = FS.is_file fs q.
Proof.
  intros H. unfold FS.is_file, FS.has_kind. by rewrite lookup_delete_ne.
Qed.

(** When the unmarked files are there, under paths of their own, their
    removal is not refused and their messages are printed, every deletion
    succeeds. *)
Lemma prune_all_deleted (env : Env) (files : list DeviceFile) (fs : fsys) :
  NoDup (map df_path (unmarked files)) →
  Forall (λ f, FS.is_file fs (df_path f) = true) (unmarked files) →
  Forall (λ f, removable env (df_path f)) (unmarked files) →
  Forall (λ f, console_print env (msg_deleted (df_name f)) = true)
         (unmarked files) →
  Forall (λ c, c.2 = Deleted) (prune_calls env files fs)
  ∧ map fst (prune_calls env files fs) = unmarked files
  ∧ deleted_count (prune_calls env files fs) = length (unmarked files)
  ∧ Forall (λ f, prune_fs env files fs !! df_path f = None) (unmarked files).
Proof.
  revert fs. induction files as [|f files IH]; intros fs Hnd Hall Hrm Hpr.
  { unfold prune_calls, deleted_count, count_true. cbn. by split_and!. }
  unfold unmarked in *. destruct (keep f) eqn:K.
  - unfold prune_calls, prune_fs. rewrite prune_loop_kept by done.
    rewrite filter_cons_False in Hnd, Hall, Hrm, Hpr |- * by (by rewrite K).
    by apply IH.
  - unfold prune_calls at 1 2 3, prune_fs at 1.
    rewrite prune_loop_unmarked by done. cbn zeta.
    rewrite filter_cons_True in Hnd, Hall, Hrm, Hpr |- * by done.
    cbn [map] in Hnd. apply NoDup_cons in Hnd as [Hfresh Hnd].
    apply Forall_cons in Hall as [Hf Hall].
    apply Forall_cons in Hrm as [Hr Hrm].
    apply Forall_cons in Hpr as [Hp Hpr].
    rewrite delete_file_spec, Hf, (Hr fs), Hp.
    cbn [fst snd andb negb is_delete_raised].
    rewrite deleted_count_cons, bool_decide_true by done.
    destruct (IH (delete (df_path f) fs)) as (IH1 & IH2 & IH3 & IH4);
      [done| |done|done|].
    { rewrite Forall_forall in Hall |- *. intros g Hg.
      rewrite is_file_delete_ne; [by apply Hall|].
      intros Heq. apply Hfresh. rewrite Heq.
      apply list_elem_of_fmap. by exists g. }
    split_and!.
    + by constructor.
    + cbn. by rewrite IH2.
    + cbn. by rewrite IH3.
    + constructor; [|done].
      rewrite (prune_fs_other env files _ (df_path f) Hfresh).
      apply lookup_delete_eq.
Qed.

Lemma length_filter_split {A} (P : A → Prop) `{∀ x, Decision (P x)}
    (l : list A) :
  (length (filter P l) + length (filter (λ x, ¬ P x) l))%nat = length l.
Proof.
  induction l as [|x l IH]; [done|]. destruct (decide (P x)).
  - rewrite filter_cons_True, (filter_cons_False (λ x, ¬ P x)) by tauto.
    cbn. lia.
  - rewrite filter_cons_False, (filter_cons_True (λ x, ¬ P x)) by tauto.
    cbn. lia.
Qed.

Lemma unmarked_length (files : list DeviceFile) :
  (length (filter (λ f, keep f = true) files) + length (unmarked files))%nat
  = length files.
Proof.
  rewrite <- (length_filter_split (λ f, keep f = true) files). f_equal.
  unfold unmarked. f_equal. apply list_filter_iff. intros f.
  destruct (keep f); naive_solver.
Qed.

(** C6 (as amended): when the console prints the messages of
    [delete_file] for the files not flagged [keep], the pruning calls
    [delete_file] on exactly those files, in order, each once, and every
    call returns; a deletion that fails, on a missing file or one whose
    removal the system refuses, does not stop the later ones; a path named
    by no unmarked file is left as it was; the count is the number of
    successful deletions, which is the number of files that left the file
    system.  When in addition the unmarked files are on the device as
    regular files under paths of their own and the system does not refuse
    their removal, all of them are deleted and counted: for five scanned
    files of which two are flagged [keep], the three others are gone, the
    two kept are as before and the count is 3. *)
Theorem prune_loop_contract (env : Env) (files : list DeviceFile)
    (fs : fsys) :
  Forall (reported env) (unmarked files) →
  let log := prune_calls env files fs in
  let fs' := prune_fs env files fs in
  map fst log = unmarked files
  ∧ Forall (λ c, keep c.1 = false ∧ (c.2 = Deleted ∨ c.2 = DeleteFailed)) log
  ∧ deleted_count log = length (filter (λ c, c.2 = Deleted) log)
  ∧ (size fs' + deleted_count log)%nat = size fs
  ∧ (∀ p : path, p ∉ map df_path (unmarked files) → fs' !! p = fs !! p)
  ∧ (NoDup (map df_path files) →
     Forall (λ f, FS.is_file fs (df_path f) = true) files →
     Forall (λ f, removable env (df_path f)) (unmarked files) →
     Forall (λ c, c.2 = Deleted) log
     ∧ deleted_count log = length (unmarked files)
     ∧ (∀ f, f ∈ files →
          fs' !! df_path f = if keep f then fs !! df_path f else None)
     ∧ (length files = 5%nat →
        length (filter (λ f, keep f = true) files) = 2%nat →
        deleted_count log = 3%nat)).
Proof.
  intros Hrep log fs'. subst log fs'.
  pose proof (prune_calls_reported env files fs Hrep) as Hret.
  assert (map fst (prune_calls env files fs) = unmarked files) as Hfiles.
  { apply prune_calls_files. eapply Forall_impl; [exact Hret|].
    by intros c [-> | ->]. }
  split_and!.
  - done.
  - rewrite Forall_forall in Hret |- *. intros c Hc. split; [|by apply Hret].
    assert (c.1 ∈ unmarked files) as Hin.
    { rewrite <- Hfiles. apply list_elem_of_fmap. by exists c. }
    unfold unmarked in Hin. by apply list_elem_of_filter in Hin as [? _].
  - unfold deleted_count, count_true. f_equal. apply list_filter_iff.
    intros c. by rewrite bool_decide_eq_true.
  - by apply prune_count_size.
  - intros p. apply prune_fs_other.
  - intros Hnd Hall Hrm.
    assert (unmarked files `sublist_of` files) as Hsub
      by apply filter_sublist.
    destruct (prune_all_deleted env files fs) as (H1 & _ & H2 & H3).
    { eapply sublist_NoDup; [exact Hnd|]. by apply fmap_sublist. }
    { rewrite Forall_forall in Hall |- *. intros f Hf. apply Hall.
      by eapply elem_of_sublist. }
    { done. }
    { eapply Forall_impl; [exact Hrep|]. by intros f [? _]. }
    split_and!; [done|done| |].
    + intros f Hf. destruct (keep f) eqn:K.
      * apply prune_fs_other. intros Hin.
        apply list_elem_of_fmap in Hin as (g & Hpath & Hg).
        unfold unmarked in Hg. apply list_elem_of_filter in Hg as [Kg Hg].
        assert (f = g) as ->; [|congruence].
        apply list_elem_of_lookup in Hf as [i Hi].
        apply list_elem_of_lookup in Hg as [j Hj].
        assert (i = j) as ->; [|congruence].
        eapply NoDup_lookup; [exact Hnd| |].
        -- by rewrite list_lookup_fmap, Hi.
        -- by rewrite list_lookup_fmap, Hj, Hpath.
      * rewrite Forall_forall in H3. apply H3.
        unfold unmarked. by apply list_elem_of_filter.
    + intros H5 Hk. pose proof (unmarked_length files). lia.
Qed.

Lemma prune_loop_contract_witness :
  let env := working_env (mk_database [] []) in
  let log := prune_calls env five_files loaded_device in
  let fs' := prune_fs env five_files loaded_device in
  Forall (λ c, c.2 = Deleted) log
  ∧ deleted_count log = length (unmarked five_files)
  ∧ (∀ f, f ∈ five_files →
       fs' !! df_path f
       = if keep f then loaded_device !! df_path f else None)
  ∧ (length five_files = 5%nat →
     length (filter (λ f, keep f = true) five_files) = 2%nat →
     deleted_count log = 3%nat).
Proof.
  destruct (prune_loop_contract (working_env (mk_database [] []))
              five_files loaded_device)
    as (_ & _ & _ & _ & _ & H).
  { repeat constructor. }
  apply H; [compute_done..|]. repeat constructor.
Defined.

(** The five files of the witness: three calls, three deleted. *)
Lemma prune_five_files :
  let env := working_env (mk_database [] []) in
  map (λ c, (df_name c.1, c.2)) (prune_calls env five_files loaded_device)
  = [("Podcasts/a.mp3", Deleted); ("Podcasts/c.m4a", Deleted);
     ("Podcasts/e.flac", Deleted)]
  ∧ deleted_count (prune_calls env five_files loaded_device) = 3%nat
  ∧ map (λ f, FS.exists_ (prune_fs env five_files loaded_device) (df_path f))
        five_files
    = [false; true; false; true; false].
Proof. split_and!; compute_done. Qed.

(** A deletion that fails does not stop the later ones: with the first
    file already gone, the two other unmarked files are still deleted. *)
Lemma prune_after_failure :
  let env := working_env (mk_database [] []) in
  map (λ c, (df_name c.1, c.2))
      (prune_calls env five_files
         (delete (df_path (track "a.mp3" false)) loaded_device))
  = [("Podcasts/a.mp3", DeleteFailed); ("Podcasts/c.m4a", Deleted);
     ("Podcasts/e.flac", Deleted)]
  ∧ deleted_count
      (prune_calls env five_files
         (delete (df_path (track "a.mp3" false)) loaded_device)) = 2%nat.
Proof. split_and!; compute_done. Qed.

(** C6 (as stated) fails, twice over.  An exception ends the pruning: a
    file whose name holds a closing tag is unlinked, the print of its name
    raises, the handler prints the name again and that exception leaves
    [delete_file]; the unmarked file after it is never attempted and stays
    on the device, and nothing is counted although a file is gone.  And
    the five files are not deleted when the device refuses: on a device
    that lets nothing be removed all five stay and the count is 0. *)
Lemma prune_loop_halts_counterexample :
  (keep tagged_file = false ∧ keep plain_file = false
   ∧ FS.is_file tagged_device (df_path tagged_file) = true
   ∧ FS.is_file tagged_device (df_path plain_file) = true
   ∧ map (λ c, (df_name c.1, is_delete_raised c.2))
         (prune_calls env_markup [tagged_file; plain_file] tagged_device)
     = [("foo[/b].mp3", true)]
   ∧ deleted_count
       (prune_calls env_markup [tagged_file; plain_file] tagged_device)
     = 0%nat
   ∧ prune_fs env_markup [tagged_file; plain_file] tagged_device
       !! df_path tagged_file = None
   ∧ FS.is_file
       (prune_fs env_markup [tagged_file; plain_file] tagged_device)
       (df_path plain_file) = true)
  ∧ (map (λ c, (df_name c.1, c.2))
         (prune_calls env_read_only five_files loaded_device)
     = [("Podcasts/a.mp3", DeleteFailed); ("Podcasts/c.m4a", DeleteFailed);
        ("Podcasts/e.flac", DeleteFailed)]
     ∧ deleted_count (prune_calls env_read_only five_files loaded_device)
       = 0%nat
     ∧ map (λ f, FS.is_file (prune_fs env_read_only five_files loaded_device)
                   (df_path f)) five_files
       = [true; true; true; true; true]).
Proof. split; split_and!; compute_done. Qed.

(** ** The scan of the device *)

Lemma relative_to_Some (root p rel : path) :
  Pathlib.relative_to root p = Some rel ↔ p = root ++ rel.
Proof.
  revert p. induction root as [|r root IH]; intros p; cbn.
  - split; [by intros [= ->] | by intros ->].
  - destruct p as [|c p]; [done|]. destruct (decide (r = c)) as [->|Hne].
    + rewrite IH. split; [by intros -> | by intros [= ->]].
    + split; [done | by intros [= ? ?]].
Qed.

Lemma below_spec (root p : path) :
  FS.below root p = true ↔ ∃ rel, rel ≠ [] ∧ p = root ++ rel.
Proof.
  unfold FS.below. destruct (Pathlib.relative_to root p) as [rel|] eqn:E.
  - apply relative_to_Some in E as ->. destruct rel as [|c rel].
    + split; [done|]. intros (rel & Hne & Heq).
      rewrite app_nil_r in Heq.
      apply (f_equal length) in Heq. rewrite length_app in Heq.
      destruct rel; [done | cbn in Heq; lia].
    + split; [|done]. intros _. by exists (c :: rel).
  - split; [done|]. intros (rel & _ & ->).
    by rewrite (proj2 (relative_to_Some root (root ++ rel) rel)) in E.
Qed.

(** The walk yields the paths of the file system strictly below the root,
    each once. *)
Lemma elem_of_glob_all (root p : path) (fs : fsys) :
  p ∈ FS.glob_all root fs ↔ is_Some (fs !! p) ∧ FS.below root p = true.
Proof.
  unfold FS.glob_all. rewrite list_elem_of_filter, list_elem_of_fmap.
  split.
  - intros [Hb ([q n] & -> & Hin)]. apply elem_of_map_to_list in Hin.
    split; [by exists n | done].
  - intros [[n Hn] Hb]. split; [done|]. exists (p, n).
    split; [done|]. by apply elem_of_map_to_list.
Qed.

Lemma NoDup_glob_all (root : path) (fs : fsys) :
  NoDup (FS.glob_all root fs).
Proof. apply NoDup_filter, NoDup_fst_map_to_list. Qed.

(** What the loop gathers from entries below the root. *)
Lemma elem_of_gather_files (self : DeviceManager) (fs : fsys)
    (entries : list path) (f : DeviceFile) :
  Forall (λ p, FS.below (device_path self) p = true) entries →
  f ∈ gather_files self fs entries ↔
  ∃ rel, device_path self ++ rel ∈ entries
         ∧ is_audio_file fs (device_path self ++ rel) = true
         ∧ f = new_DeviceFile (Pathlib.str_rel rel) (device_path self ++ rel).
Proof.
  induction 1 as [|p entries Hp _ IH]; cbn [gather_files].
  { split; [by intros ?%elem_of_nil|]. by intros (? & ?%elem_of_nil & _). }
  apply below_spec in Hp as (rel0 & _ & ->).
  rewrite (proj2 (relative_to_Some _ _ rel0)) by done.
  destruct (is_audio_file fs (device_path self ++ rel0)) eqn:E.
  - rewrite elem_of_cons, IH. split.
    + intros [->|(rel & Hin & Ha & ->)].
      * exists rel0. split_and!; [left|done|done].
      * exists rel. split_and!; [by right|done|done].
    + intros (rel & Hin & Ha & ->). apply elem_of_cons in Hin as [Heq|Hin].
      * apply app_inv_head in Heq as ->. by left.
      * right. by exists rel.
  - rewrite IH. split.
    + intros (rel & Hin & Ha & ->). exists rel. split_and!; [by right|done..].
    + intros (rel & Hin & Ha & ->). apply elem_of_cons in Hin as [Heq|Hin].
      * apply app_inv_head in Heq as ->. congruence.
      * by exists rel.
Qed.




(** The scan of the witness device: the hidden file and the text file are
    left out, the upper-case extension and the nested folder are in. *)
Lemma scan_of_scanned_device :
  list_to_set (map df_name
     (get_device_files (working_env (mk_database [] [])) xtrainerz
        scanned_device))
  = ({[ "Podcasts/a.mp3"; "LOUD.MP3"; "Music/Live/set.flac" ]} : gset string).
Proof. compute_done. Qed.

(* ===================================================================== *)
(** * Further properties of the code                                      *)
(* ===================================================================== *)

(** ** More on [sanitize_filename] and [filename] *)

Lemma rstrip_go_nil set l :
  Str.rstrip_go set l = [] → Forall (λ c, Str.in_set set c = true) l.
Proof.
  unfold Str.rstrip_go. intros H.
  apply (f_equal length) in H. rewrite length_reverse in H.
  apply nil_length_inv, lstrip_go_nil in H.
  rewrite <- (reverse_involutive l). by apply Forall_reverse.
Qed.

Lemma lstrip_go_fixed set l :
  Forall (λ c, Str.in_set set c = true) (Str.lstrip_go set l) →
  Str.lstrip_go set l = [].
Proof.
  intros H. destruct (Str.lstrip_go set l) as [|c k] eqn:E; [done|].
  apply Forall_cons in H as [Hc _].
  assert (head (Str.lstrip_go set l) = Some c) as Hh by by rewrite E.
  apply lstrip_go_head in Hh. congruence.
Qed.

(** X1: the sanitized title is empty exactly when the title holds nothing
    but invalid characters and dots (spaces are neither: they become
    underscores). *)
Theorem sanitize_filename_empty_iff (text : string) :
  sanitize_filename text = ""
  ↔ Forall (λ c, invalid_filename_char c = true ∨ c = "."%char)
           (Str.chars text).
Proof.
  split; [|apply sanitize_filename_degenerate].
  intros H. apply (f_equal Str.chars) in H.
  rewrite sanitize_filename_chars in H. cbn in H.
  assert (stripped (Str.chars text) = []) as Hs.
  { destruct (stripped (Str.chars text)); [done | discriminate]. }
  unfold stripped in Hs. apply rstrip_go_nil, lstrip_go_fixed in Hs.
  apply lstrip_go_nil in Hs. rewrite Forall_forall in Hs |- *.
  intros c Hc. destruct (invalid_filename_char c) eqn:E; [by left | right].
  destruct (decide (c = " "%char)) as [->|Hsp].
  - exfalso. specialize (Hs "_"%char). cbn in Hs.
    assert ("_"%char ∈ cleaned (Str.chars text)) as Hin; [|by apply Hs in Hin].
    unfold cleaned. apply list_elem_of_filter. split; [done|].
    unfold underscored. apply list_elem_of_fmap. by exists " "%char.
  - assert (c ∈ cleaned (Str.chars text)) as Hin.
    { unfold cleaned. apply list_elem_of_filter. split; [done|].
      unfold underscored. apply list_elem_of_fmap. exists c.
      split; [by rewrite decide_False | done]. }
    apply Hs in Hin. unfold Str.in_set in Hin.
    apply bool_decide_eq_true in Hin.
    apply elem_of_cons in Hin as [?|Hin]; [congruence|].
    apply elem_of_cons in Hin as [?|Hin]; [done|].
    by apply elem_of_nil in Hin.
Qed.

Lemma stripped_length (l : list ascii) : (length (stripped l) ≤ length l)%nat.
Proof.
  unfold stripped.
  etrans; [apply prefix_length, rstrip_go_prefix|].
  etrans; [apply suffix_length, lstrip_go_suffix|].
  unfold cleaned. etrans; [apply length_filter|].
  unfold underscored. by rewrite length_map.
Qed.

(** X2: what the sanitized title is safe for.  It holds none of the nine
    invalid characters and no space, is at most 200 characters long and
    never starts with a dot; and for a title of at most 200 characters it
    does not end with a dot either. *)
Theorem sanitize_filename_safe (text : string) :
  (∀ c, c ∈ Str.chars (sanitize_filename text) →
        invalid_filename_char c = false ∧ c ≠ " "%char)
  ∧ (Str.len (sanitize_filename text) ≤ Nat.min 200 (Str.len text))%nat
  ∧ Str.first (sanitize_filename text) ≠ Some "."%char
  ∧ ((Str.len text ≤ 200)%nat →
     Str.final (sanitize_filename text) ≠ Some "."%char).
Proof.
  pose proof (stripped_length (Str.chars text)) as Hlen.
  split_and!.
  - intros c Hc. split; [by eapply sanitize_filename_no_invalid|].
    intros ->. by apply (sanitize_filename_no_space text).
  - unfold Str.len. rewrite sanitize_filename_chars, length_take. lia.
  - intros H. by apply sanitize_filename_first in H as [_ ?].
  - intros Hshort H. apply sanitize_filename_final_short in H as [_ ?]; [done|].
    unfold Str.len in Hshort. lia.
Qed.

(** A suffix, when there is one, has a character after its dot. *)
Lemma suffix_length_2 (p : path) :
  Pathlib.suffix p = "" ∨ (2 ≤ Str.len (Pathlib.suffix p))%nat.
Proof.
  unfold Pathlib.suffix.
  destruct (Str.rfind _ _) as [i|] eqn:E; [|by left].
  case_bool_decide as Hi; [|by left]. right.
  unfold Str.len in *. rewrite chars_lift, length_drop. lia.
Qed.

Lemma extension_of_length (e : PodcastEpisode) :
  (2 ≤ Str.len (extension_of e))%nat.
Proof.
  unfold extension_of. case_decide as H; [by cbn; lia|].
  by destruct (suffix_length_2 (Pathlib.Path (file_path e))).
Qed.

Lemma filename_len (e : PodcastEpisode) :
  Str.len (filename e)
  = (Str.len (sanitize_filename (title e)) + Str.len (extension_of e))%nat.
Proof.
  rewrite filename_eq. unfold Str.len. by rewrite chars_app, length_app.
Qed.

Lemma filename_long (e : PodcastEpisode) : (2 ≤ Str.len (filename e))%nat.
Proof.
  rewrite filename_len. pose proof (extension_of_length e). lia.
Qed.

(** X3: every episode has a file name.  It is never empty: it is the
    sanitized title followed by an extension that starts with a dot and is
    at least two characters long, and it is at most 200 characters longer
    than that extension. *)
Theorem filename_shape (e : PodcastEpisode) :
  filename e = sanitize_filename (title e) +:+ extension_of e
  ∧ filename e ≠ ""
  ∧ Str.first (extension_of e) = Some "."%char
  ∧ (2 ≤ Str.len (extension_of e))%nat
  ∧ (Str.len (extension_of e) ≤ Str.len (filename e)
     ≤ 200 + Str.len (extension_of e))%nat.
Proof.
  pose proof (extension_of_length e) as Hext.
  pose proof (sanitize_filename_length (title e)) as Hlen.
  pose proof (filename_len e) as Hsum.
  split_and!; [done| |apply extension_of_first|done|lia|lia].
  intros Heq. rewrite Heq in Hsum. cbn in Hsum. lia.
Qed.

(** ** Where an episode is written *)

Lemma split_go_no_sep sep cur l :
  sep ∉ l → Str.split_go sep cur l = [reverse cur ++ l].
Proof.
  revert cur. induction l as [|c l IH]; intros cur Hl; cbn.
  { by rewrite app_nil_r. }
  apply not_elem_of_cons in Hl as [Hc Hl].
  rewrite decide_False by done. rewrite IH by done.
  by rewrite reverse_cons, <- app_assoc.
Qed.

Lemma split_go_components sep cur l c :
  sep ∉ cur → c ∈ Str.split_go sep cur l → sep ∉ c.
Proof.
  revert cur. induction l as [|a l IH]; intros cur Hcur; cbn.
  { intros ->%list_elem_of_singleton. by rewrite elem_of_reverse. }
  destruct (decide (a = sep)) as [->|Hne].
  - intros [->|Hin]%elem_of_cons.
    + by rewrite elem_of_reverse.
    + eapply IH; [|done]. apply not_elem_of_nil.
  - apply IH. apply not_elem_of_cons. split; [congruence | done].
Qed.

(** No component of a parsed path holds a slash. *)
Lemma parts_no_slash s c :
  c ∈ Pathlib.parts s → "/"%char ∉ Str.chars c.
Proof.
  unfold Pathlib.parts, Str.split. intros [_ Hin]%list_elem_of_filter.
  apply list_elem_of_fmap in Hin as (l & -> & Hin).
  rewrite chars_of_chars.
  eapply split_go_components; [apply not_elem_of_nil | done].
Qed.

(** A string without a slash, other than the empty string and the single
    dot, is one component. *)
Lemma parts_single s :
  "/"%char ∉ Str.chars s → s ≠ "" → s ≠ "." → Pathlib.parts s = [s].
Proof.
  intros Hs He Hd. unfold Pathlib.parts, Str.split.
  rewrite split_go_no_sep by done. cbn [reverse app map].
  change (reverse []) with (@nil ascii). cbn [app map].
  rewrite of_chars_chars. by rewrite filter_cons_True, filter_nil.
Qed.

Lemma startswith_slash s :
  "/"%char ∉ Str.chars s → Str.startswith "/" s = false.
Proof.
  unfold Str.startswith. change (Str.chars "/") with ["/"%char].
  destruct (Str.chars s) as [|c l]; [done|]. intros Hc. cbn.
  apply not_elem_of_cons in Hc as [Hc _]. by rewrite decide_False.
Qed.

Lemma name_no_slash s :
  "/"%char ∉ Str.chars (Pathlib.name (Pathlib.Path s)).
Proof.
  unfold Pathlib.name, Pathlib.Path.
  destruct (last (Pathlib.parts s)) as [c|] eqn:E; cbn.
  - apply (parts_no_slash s). by apply last_Some_elem_of.
  - apply not_elem_of_nil.
Qed.

Lemma suffix_no_slash s :
  "/"%char ∉ Str.chars (Pathlib.suffix (Pathlib.Path s)).
Proof.
  unfold Pathlib.suffix.
  destruct (Str.rfind _ _) as [i|]; [|apply not_elem_of_nil].
  case_bool_decide; [|apply not_elem_of_nil].
  rewrite chars_lift. intros Hin. apply (name_no_slash s).
  by eapply elem_of_sublist; [|apply sublist_drop].
Qed.

(** The file name holds no slash. *)
Lemma filename_no_slash e : "/"%char ∉ Str.chars (filename e).
Proof.
  rewrite filename_eq, chars_app. apply not_elem_of_app. split.
  - intros Hin%sanitize_filename_no_invalid. by vm_compute in Hin.
  - unfold extension_of. case_decide.
    + compute_done.
    + apply suffix_no_slash.
Qed.

Lemma destination_of_eq (self : DeviceManager) (e : PodcastEpisode) :
  destination_of self e = device_path self ++ ["Podcasts"; filename e].
Proof.
  unfold destination_of. fold (podcasts_dir self). rewrite podcasts_dir_eq.
  unfold Pathlib.joinpath.
  rewrite (startswith_slash _ (filename_no_slash e)).
  pose proof (filename_long e) as Hlen.
  rewrite parts_single.
  - by rewrite <- app_assoc.
  - apply filename_no_slash.
  - intros Heq. rewrite Heq in Hlen. cbn in Hlen. lia.
  - intros Heq. rewrite Heq in Hlen. cbn in Hlen. lia.
Qed.

(** X4: the destination of an episode is the entry named by its file name
    in the [Podcasts] folder directly under the root of the device: no
    title and no source path makes [copy_episode] write anywhere else. *)
Theorem destination_in_podcasts_folder (self : DeviceManager)
    (e : PodcastEpisode) :
  podcasts_dir self = device_path self ++ ["Podcasts"]
  ∧ destination_of self e = device_path self ++ ["Podcasts"; filename e]
  ∧ Pathlib.name (destination_of self e) = filename e
  ∧ Pathlib.relative_to (podcasts_dir self) (destination_of self e)
    = Some [filename e]
  ∧ FS.below (device_path self) (destination_of self e) = true.
Proof.
  pose proof (podcasts_dir_eq self) as Hdir.
  pose proof (destination_of_eq self e) as Hdst.
  split_and!; [done|done| | |].
  - rewrite Hdst. unfold Pathlib.name.
    change ["Podcasts"; filename e] with (["Podcasts"] ++ [filename e]).
    by rewrite app_assoc, last_snoc.
  - apply relative_to_Some. rewrite Hdir, Hdst. by rewrite <- app_assoc.
  - apply below_spec. by exists ["Podcasts"; filename e].
Qed.

(** ** More on the catalog reader *)

Lemma or_default_nonempty s d : d ≠ "" → or_default s d ≠ "".
Proof.
  intros Hd. unfold or_default, truthy_str. destruct s as [s|]; [|done].
  case_bool_decide; [done | done].
Qed.

Lemma collect_episodes_sound (env : Env) (fs : fsys) (rows : list row)
    (es : list PodcastEpisode) :
  collect_episodes env fs rows = Some es →
  Forall (λ e, ∃ r, r ∈ rows ∧ usable fs r = true
                    ∧ episode_of_row env r = Some e) es.
Proof.
  rewrite collect_episodes_spec. intros H%mapM_Some_1.
  apply Forall_forall. intros e He.
  apply list_elem_of_lookup in He as [i Hi].
  destruct (Forall2_lookup_r _ _ _ _ _ H Hi) as (r & Hr & Hre).
  exists r. apply list_elem_of_lookup_2 in Hr.
  apply list_elem_of_filter in Hr as [Hu Hr]. done.
Qed.

(** What the reader returns comes from usable rows of the store. *)
Lemma get_recent_podcasts_rows (env : Env) (fs : fsys)
    (self : PodcastLibrary) (limit : Z) :
  Forall (λ e, ∃ r, usable fs r = true ∧ episode_of_row env r = Some e)
         (get_recent_podcasts env fs self limit).
Proof.
  unfold get_recent_podcasts.
  destruct (db_path self) as [p|]; [|done].
  destruct (sqlite_open env p) as [db|]; [|done].
  destruct (Sql.bindable limit); [|done].
  destruct (collect_episodes env fs (Sql.query db limit)) as [es|] eqn:E;
    [|done].
  cbn. eapply Forall_impl; [by apply collect_episodes_sound|].
  intros e (r & _ & Hu & He). by exists r.
Qed.

Lemma get_recent_podcasts_unselected (env : Env) (fs : fsys)
    (self : PodcastLibrary) (limit : Z) :
  Forall (λ e, selected e = false) (get_recent_podcasts env fs self limit).
Proof.
  eapply Forall_impl; [apply get_recent_podcasts_rows|].
  intros e (r & _ & He). unfold episode_of_row in He.
  destruct (row_date env r); [|done]. by injection He as <-.
Qed.

Lemma get_recent_podcasts_length (env : Env) (fs : fsys)
    (self : PodcastLibrary) (limit : Z) :
  0 ≤ limit →
  (length (get_recent_podcasts env fs self limit) ≤ Z.to_nat limit)%nat.
Proof.
  intros Hlim. unfold get_recent_podcasts.
  destruct (db_path self) as [p|]; [|cbn; lia].
  destruct (sqlite_open env p) as [db|]; [|cbn; lia].
  destruct (Sql.bindable limit); [|cbn; lia].
  rewrite collect_episodes_spec.
  destruct (mapM _ _) as [es|] eqn:E; [|cbn; lia]. cbn.
  apply length_mapM in E. rewrite <- E.
  etrans; [apply length_filter|].
  unfold Sql.query, Sql.limit_.
  destruct (Z.ltb_spec limit 0) as [?|_]; [lia|].
  rewrite length_take. lia.
Qed.

(** X5: every episode the reader returns has its file on disk, a title and
    a show name that are not empty (the defaults stand in for missing
    ones), and is not selected; this holds for every store, every limit
    and every environment. *)
Theorem get_recent_podcasts_episodes (env : Env) (fs : fsys)
    (self : PodcastLibrary) (limit : Z) :
  Forall (λ e, FS.exists_ fs (Pathlib.Path (file_path e)) = true
               ∧ title e ≠ "" ∧ podcast e ≠ "" ∧ selected e = false)
         (get_recent_podcasts env fs self limit).
Proof.
  eapply Forall_impl; [apply get_recent_podcasts_rows|].
  intros e (r & Hu & He). cbn beta.
  unfold episode_of_row in He.
  destruct (row_date env r) as [d|]; [|done]. cbn in He.
  injection He as <-. cbn.
  unfold usable in Hu. apply andb_true_iff in Hu as [_ Hex].
  split_and!; [done| | |done]; by apply or_default_nonempty.
Qed.

(** X6: the reader returns the empty list when the store was not found,
    when it cannot be opened or read, when the limit is zero and when the
    limit does not fit a signed 64-bit integer. *)
Theorem get_recent_podcasts_empty (env : Env) (fs : fsys)
    (self : PodcastLibrary) (limit : Z) :
  db_path self = None
  ∨ (∃ p, db_path self = Some p ∧ sqlite_open env p = None)
  ∨ limit = 0
  ∨ limit < - 2 ^ 63 ∨ 2 ^ 63 ≤ limit →
  get_recent_podcasts env fs self limit = [].
Proof.
  unfold get_recent_podcasts.
  intros [->|[(p & -> & ->)|[->|Hlim]]]; [done|done| |].
  - destruct (db_path self) as [p|]; [|done].
    destruct (sqlite_open env p) as [db|]; [|done]. cbn.
    unfold Sql.query, Sql.limit_. cbn. by rewrite take_0.
  - destruct (db_path self) as [p|]; [|done].
    destruct (sqlite_open env p) as [db|]; [|done].
    assert (Sql.bindable limit = false) as ->; [|done].
    unfold Sql.bindable. apply andb_false_iff.
    destruct Hlim; [left; apply Z.leb_gt | right; apply Z.ltb_ge]; lia.
Qed.

Lemma get_recent_podcasts_empty_witness :
  get_recent_podcasts (working_env store_one_gone) disk
    (mk_PodcastLibrary None) 10 = []
  ∧ get_recent_podcasts (working_env store_one_gone) disk library 0 = [].
Proof.
  split.
  - apply get_recent_podcasts_empty. by left.
  - apply get_recent_podcasts_empty. right. right. by left.
Defined.

(** X7: a row that is not a file URL, or whose file is gone, changes
    nothing: the loop returns what it returns without that row in the
    result set. *)
Theorem collect_episodes_skips (env : Env) (fs : fsys)
    (before after : list row) (r : row) :
  usable fs r = false →
  collect_episodes env fs (before ++ r :: after)
  = collect_episodes env fs (before ++ after).
Proof.
  intros Hu. rewrite !collect_episodes_spec. f_equal.
  rewrite !filter_app. f_equal.
  rewrite filter_cons_False; [done|]. by rewrite Hu.
Qed.

Lemma collect_episodes_skips_witness :
  let env := working_env store_one_gone in
  let gone := mk_row (Some "Newer") (Some "Show")
                (Some "file:///Users/me/Cache/newer.mp3") (Some 200) None in
  let there := mk_row (Some "Older") (Some "Show")
                 (Some "file:///Users/me/Cache/older%20one.mp3") (Some 100)
                 None in
  collect_episodes env disk ([] ++ gone :: [there])
  = collect_episodes env disk ([] ++ [there]).
Proof.
  apply (collect_episodes_skips (working_env store_one_gone) disk []).
  compute_done.
Defined.

(** ** More on the scan and on the deletions *)

Lemma gather_files_paths (self : DeviceManager) (fs : fsys)
    (entries : list path) :
  map df_path (gather_files self fs entries) `sublist_of` entries.
Proof.
  induction entries as [|p entries IH]; [done|]. cbn [gather_files].
  destruct (is_audio_file fs p).
  - destruct (Pathlib.relative_to _ p); cbn.
    + by constructor.
    + apply sublist_nil_l.
  - by constructor.
Qed.

Lemma gather_files_audio (self : DeviceManager) (fs : fsys)
    (entries : list path) :
  Forall (λ f, is_audio_file fs (df_path f) = true ∧ keep f = false)
         (gather_files self fs entries).
Proof.
  induction entries as [|p entries IH]; [done|]. cbn [gather_files].
  destruct (is_audio_file fs p) eqn:E; [|done].
  destruct (Pathlib.relative_to _ p); [|done]. by constructor.
Qed.

Lemma walked_sublist (env : Env) (entries : list path) :
  walked env entries `sublist_of` entries.
Proof.
  unfold walked. destruct (glob_fault env); [apply sublist_take | done].
Qed.

Lemma get_device_files_unmounted (env : Env) (self : DeviceManager)
    (fs : fsys) :
  is_connected self fs = false → get_device_files env self fs = [].
Proof. unfold get_device_files. by intros ->. Qed.

Lemma get_device_files_paths (env : Env) (self : DeviceManager)
    (fs : fsys) :
  map df_path (get_device_files env self fs)
    `sublist_of` FS.glob_all (device_path self) fs.
Proof.
  unfold get_device_files. destruct (is_connected self fs); cbn [negb].
  - etrans; [apply gather_files_paths | apply walked_sublist].
  - apply sublist_nil_l.
Qed.

Lemma get_device_files_NoDup (env : Env) (self : DeviceManager)
    (fs : fsys) :
  NoDup (map df_path (get_device_files env self fs)).
Proof.
  eapply sublist_NoDup; [apply NoDup_glob_all|apply get_device_files_paths].
Qed.

Lemma get_device_files_each (env : Env) (self : DeviceManager)
    (fs : fsys) :
  Forall (λ f, FS.is_file fs (df_path f) = true
               ∧ FS.below (device_path self) (df_path f) = true
               ∧ keep f = false)
         (get_device_files env self fs).
Proof.
  pose proof (get_device_files_paths env self fs) as Hsub. revert Hsub.
  unfold get_device_files. destruct (is_connected self fs); cbn [negb];
    [|constructor].
  set (entries := walked env (FS.glob_all (device_path self) fs)).
  intros Hsub.
  pose proof (gather_files_audio self fs entries) as Ha.
  rewrite Forall_forall in Ha |- *. intros f Hf.
  destruct (Ha f Hf) as [Haudio Hk].
  unfold is_audio_file in Haudio.
  apply andb_true_iff in Haudio as [[Hfile _]%andb_true_iff _].
  split_and!; [done| |done].
  assert (df_path f ∈ FS.glob_all (device_path self) fs) as Hin.
  { eapply elem_of_sublist; [|done].
    apply list_elem_of_fmap. by exists f. }
  by apply elem_of_glob_all in Hin as [_ ?].
Qed.

(** X8: whatever the walk did, the scan lists every path once, lists only
    regular files below the root of the device, and flags none of them
    [keep]; and it lists nothing when the device is not mounted. *)
Theorem get_device_files_sound (env : Env) (self : DeviceManager)
    (fs : fsys) :
  NoDup (map df_path (get_device_files env self fs))
  ∧ Forall (λ f, FS.is_file fs (df_path f) = true
                 ∧ FS.below (device_path self) (df_path f) = true
                 ∧ keep f = false)
           (get_device_files env self fs)
  ∧ (is_connected self fs = false → get_device_files env self fs = []).
Proof.
  split_and!.
  - apply get_device_files_NoDup.
  - apply get_device_files_each.
  - apply get_device_files_unmounted.
Qed.

(** X9: what [delete_file] does.  It returns [True] exactly when the path
    is a regular file, the system does not refuse the unlink and the
    message of the success is printed.  The file is removed exactly when
    it is a regular file whose unlink is not refused, also when the call
    then returns [False] or raises because a message could not be
    printed; every other path is as before, and a directory is never
    removed.  After a removal a second call finds no file: it does not
    return [True] and changes nothing.  The call raises only when the
    message of its handler could not be printed. *)
Theorem delete_file_effect (env : Env) (f : DeviceFile) (fs : fsys) :
  let r := delete_file env f fs in
  let removed :=
    FS.is_file fs (df_path f) && negb (unlink_refused env (df_path f) fs) in
  (r.1 = Deleted
   ↔ removed = true ∧ console_print env (msg_deleted (df_name f)) = true)
  ∧ r.2 = (if removed then delete (df_path f) fs else fs)
  ∧ (∀ p : path, p ≠ df_path f → r.2 !! p = fs !! p)
  ∧ (FS.is_dir fs (df_path f) = true → r.2 = fs)
  ∧ (removed = true →
     (delete_file env f r.2).1 ≠ Deleted ∧ (delete_file env f r.2).2 = r.2)
  ∧ (is_delete_raised r.1 = true →
     ∃ e, r.1 = DeleteRaised
                  (Failed_print
                     (msg_delete_error (df_name f) (failure_text env e)))
          ∧ console_print env
              (msg_delete_error (df_name f) (failure_text env e)) = false).
Proof.
  intros r removed. subst r.
  pose proof (delete_file_fs env f fs) as Hfs. fold removed in Hfs.
  split_and!.
  - rewrite delete_file_spec. fold removed. unfold delete_handler.
    destruct removed; [|split; [by case_match | by intros [? _]]].
    destruct (console_print env (msg_deleted _));
      [done | split; [by case_match | by intros [_ ?]]].
  - done.
  - intros p Hp. rewrite Hfs. destruct removed; [|done].
    by rewrite lookup_delete_ne.
  - intros Hd. rewrite Hfs.
    assert (FS.is_file fs (df_path f) = false) as Hf.
    { unfold FS.is_dir, FS.is_file, FS.has_kind in *.
      destruct (fs !! df_path f) as [n|]; [|done].
      apply bool_decide_eq_true in Hd. apply bool_decide_eq_false.
      by rewrite Hd. }
    subst removed. by rewrite Hf.
  - intros Hrem. rewrite Hfs, Hrem.
    assert (FS.is_file (delete (df_path f) fs) (df_path f) = false) as Hgone.
    { unfold FS.is_file, FS.has_kind. by rewrite lookup_delete_eq. }
    rewrite delete_file_fs, delete_file_spec, Hgone. cbn [andb].
    split; [|done]. unfold delete_handler.
    by destruct (console_print env _).
  - rewrite delete_file_spec. fold removed. unfold delete_handler.
    destruct removed.
    + destruct (console_print env (msg_deleted _)); [done|].
      destruct (console_print env _) eqn:E; [done|]. intros _.
      by exists (Failed_print (msg_deleted (df_name f))).
    + destruct (console_print env _) eqn:E; [done|]. intros _.
      by exists (Failed_unlink (df_path f)).
Qed.

(** The pruning only removes: what is there afterwards was there before. *)
Lemma prune_fs_subseteq (env : Env) (files : list DeviceFile) (fs : fsys)
    (p : path) (n : node) :
  prune_fs env files fs !! p = Some n → fs !! p = Some n.
Proof.
  revert fs. induction files as [|f files IH]; intros fs; [done|].
  destruct (keep f) eqn:K.
  - unfold prune_fs. rewrite prune_loop_kept by done. apply IH.
  - assert ((delete_file env f fs).2 !! p = Some n → fs !! p = Some n)
      as Hstep.
    { rewrite delete_file_fs. destruct (_ && _); [|done].
      by intros [_ ?]%lookup_delete_Some. }
    unfold prune_fs at 1. rewrite prune_loop_unmarked by done. cbn zeta.
    destruct (is_delete_raised _); cbn [snd]; [done|].
    by intros H%IH%Hstep.
Qed.

Lemma prune_fs_is_file (env : Env) (files : list DeviceFile) (fs : fsys)
    (p : path) :
  FS.is_file (prune_fs env files fs) p = true → FS.is_file fs p = true.
Proof.
  unfold FS.is_file, FS.has_kind.
  destruct (prune_fs env files fs !! p) as [n|] eqn:L; [|done].
  apply prune_fs_subseteq in L. by rewrite L.
Qed.

(** The pruning never removes a directory. *)
Lemma prune_fs_directory (env : Env) (files : list DeviceFile) (fs : fsys)
    (p : path) :
  FS.is_dir fs p = true → prune_fs env files fs !! p = fs !! p.
Proof.
  revert fs. induction files as [|f files IH]; intros fs Hd; [done|].
  destruct (keep f) eqn:K.
  - unfold prune_fs. rewrite prune_loop_kept by done. by apply IH.
  - assert ((delete_file env f fs).2 !! p = fs !! p) as Hstep.
    { rewrite delete_file_fs.
      destruct (FS.is_file fs (df_path f)) eqn:E; cbn [andb]; [|done].
      destruct (negb _); [|done].
      apply lookup_delete_ne. intros Heq. rewrite Heq in E.
      unfold FS.is_dir, FS.is_file, FS.has_kind in *.
      destruct (fs !! p) as [n|]; [|done].
      apply bool_decide_eq_true in Hd, E. congruence. }
    unfold prune_fs at 1. rewrite prune_loop_unmarked by done. cbn zeta.
    destruct (is_delete_raised _); cbn [snd]; [done|].
    rewrite IH; [done|]. unfold FS.is_dir, FS.has_kind in *.
    by rewrite Hstep.
Qed.

Lemma prune_fs_connected (env : Env) (self : DeviceManager)
    (files : list DeviceFile) (fs : fsys) :
  is_connected self (prune_fs env files fs) = is_connected self fs.
Proof.
  unfold is_connected, FS.exists_.
  destruct (FS.is_dir fs (device_path self)) eqn:Hd.
  - unfold FS.is_dir, FS.has_kind.
    rewrite (prune_fs_directory env files fs _ Hd). unfold FS.is_dir in Hd.
    unfold FS.has_kind in Hd. by destruct (fs !! device_path self).
  - assert (FS.is_dir (prune_fs env files fs) (device_path self) = false)
      as ->; [|by rewrite !andb_false_r].
    unfold FS.is_dir, FS.has_kind in *.
    destruct (prune_fs env files fs !! device_path self) as [n|] eqn:L;
      [|done].
    apply prune_fs_subseteq in L. by rewrite L in Hd.
Qed.

(** When the messages are printed, a file not flagged [keep] whose removal
    is not refused is not a file any more after the pruning. *)
Lemma prune_fs_gone (env : Env) (files : list DeviceFile) (fs : fsys)
    (f : DeviceFile) :
  Forall (reported env) (unmarked files) → removable env (df_path f) →
  f ∈ files → keep f = false →
  FS.is_file (prune_fs env files fs) (df_path f) = false.
Proof.
  intros Hrep Hrm. revert fs Hrep.
  induction files as [|g files IH]; intros fs Hrep Hin Hk.
  { by apply elem_of_nil in Hin. }
  unfold unmarked in Hrep. destruct (keep g) eqn:K.
  - rewrite filter_cons_False in Hrep by (by rewrite K).
    apply elem_of_cons in Hin as [->|Hin]; [congruence|].
    unfold prune_fs. rewrite prune_loop_kept by done. by apply IH.
  - rewrite filter_cons_True in Hrep by done.
    apply Forall_cons in Hrep as [Hg Hrep].
    unfold prune_fs. rewrite prune_loop_unmarked by done. cbn zeta.
    rewrite (delete_file_reported env g fs Hg).
    apply elem_of_cons in Hin as [<-|Hin].
    + rewrite (Hrm fs). cbn [negb]. rewrite andb_true_r.
      destruct (FS.is_file fs (df_path f)) eqn:E0;
        cbn [fst snd is_delete_raised].
      * destruct (FS.is_file (prune_fs env files _) (df_path f)) eqn:E;
          [|done].
        apply prune_fs_is_file in E. unfold FS.is_file, FS.has_kind in E.
        by rewrite lookup_delete_eq in E.
      * destruct (FS.is_file (prune_fs env files fs) (df_path f)) eqn:E;
          [|done].
        apply prune_fs_is_file in E. congruence.
    + destruct (_ && _); cbn [fst snd is_delete_raised]; by apply IH.
Qed.

Lemma filter_all {A} (P : A → Prop) `{∀ x, Decision (P x)} (l : list A) :
  Forall P l → filter P l = l.
Proof.
  induction 1 as [|x l Hx _ IH]; [done|].
  by rewrite filter_cons_True, IH.
Qed.

Lemma unmarked_scan (env : Env) (self : DeviceManager) (fs : fsys) :
  unmarked (get_device_files env self fs) = get_device_files env self fs.
Proof.
  unfold unmarked. apply filter_all.
  eapply Forall_impl; [apply get_device_files_each|]. by intros f (_ & _ & ?).
Qed.

(** A complete scan, by membership. *)
Lemma elem_of_get_device_files (env : Env) (self : DeviceManager)
    (fs : fsys) (f : DeviceFile) :
  is_connected self fs = true → glob_fault env = None →
  f ∈ get_device_files env self fs ↔
  ∃ rel, is_Some (fs !! (device_path self ++ rel))
         ∧ FS.below (device_path self) (device_path self ++ rel) = true
         ∧ is_audio_file fs (device_path self ++ rel) = true
         ∧ f = new_DeviceFile (Pathlib.str_rel rel) (device_path self ++ rel).
Proof.
  intros Hc Hfault. unfold get_device_files, walked.
  rewrite Hc, Hfault. cbn [negb]. rewrite elem_of_gather_files.
  2:{ apply Forall_forall. by intros p [_ ?]%elem_of_glob_all. }
  split; intros (rel & H1 & H2); exists rel.
  - destruct H2 as [H2 H3]. apply elem_of_glob_all in H1 as [? ?]. done.
  - destruct H2 as (H2 & H3 & H4). split; [|done].
    by apply elem_of_glob_all.
Qed.

(** After the pruning of a complete scan whose files can all be deleted a
    new scan finds nothing. *)
Lemma rescan_empty (env : Env) (self : DeviceManager) (fs : fsys) :
  glob_fault env = None →
  deletable env (get_device_files env self fs) →
  get_device_files env self
    (prune_fs env (get_device_files env self fs) fs) = [].
Proof.
  intros Hfault Hdel. set (files := get_device_files env self fs) in *.
  destruct (is_connected self fs) eqn:Hc.
  2:{ apply get_device_files_unmounted. by rewrite prune_fs_connected. }
  destruct (get_device_files env self (prune_fs env files fs))
    as [|g gs] eqn:Eg; [done|]. exfalso.
  assert (g ∈ get_device_files env self (prune_fs env files fs)) as Hg
    by (rewrite Eg; left).
  apply elem_of_get_device_files in Hg;
    [|by rewrite prune_fs_connected|done].
  destruct Hg as (rel & [n Hn] & Hb & Ha & ->).
  assert (is_audio_file (prune_fs env files fs) (device_path self ++ rel)
          = true) as Ha' by done.
  unfold is_audio_file in Ha.
  apply andb_true_iff in Ha as [[Hf Hdot]%andb_true_iff Hs].
  assert (new_DeviceFile (Pathlib.str_rel rel) (device_path self ++ rel)
          ∈ files) as Hin.
  { apply elem_of_get_device_files; [done..|]. exists rel.
    split_and!; [|done| |done].
    - apply prune_fs_subseteq in Hn. by exists n.
    - unfold is_audio_file. rewrite (prune_fs_is_file _ _ _ _ Hf).
      by rewrite Hdot, Hs. }
  unfold deletable in Hdel. rewrite Forall_forall in Hdel.
  apply (prune_fs_gone env files fs) in Hin; [|..|done].
  - cbn in Hin. congruence.
  - unfold files at 1. rewrite unmarked_scan. apply Forall_forall.
    intros h Hh. by apply Hdel.
  - by apply Hdel.
Qed.

(** X10: the default is to remove.  Take the list of a complete scan as
    the scan made it, no file flagged [keep], and let its files be
    deletable: the console prints their names and the system does not
    refuse their removal.  Then the pruning deletes every file of the list
    and counts them all, leaves the device mounted, and a new scan lists
    nothing. *)
Theorem scan_then_prune (env : Env) (self : DeviceManager) (fs : fsys) :
  glob_fault env = None →
  let files := get_device_files env self fs in
  deletable env files →
  deleted_count (prune_calls env files fs) = length files
  ∧ map fst (prune_calls env files fs) = files
  ∧ Forall (λ f, prune_fs env files fs !! df_path f = None) files
  ∧ is_connected self (prune_fs env files fs) = is_connected self fs
  ∧ get_device_files env self (prune_fs env files fs) = [].
Proof.
  intros Hfault files Hdel.
  pose proof (unmarked_scan env self fs) as Hun. fold files in Hun.
  destruct (prune_all_deleted env files fs) as (_ & Hfiles & Hcount & Hgone).
  { rewrite Hun. apply get_device_files_NoDup. }
  { rewrite Hun. eapply Forall_impl; [apply get_device_files_each|].
    by intros f (? & _). }
  { rewrite Hun. eapply Forall_impl; [exact Hdel|]. by intros f [_ ?]. }
  { rewrite Hun. eapply Forall_impl; [exact Hdel|]. by intros f [[? _] _]. }
  rewrite Hun in Hfiles, Hcount, Hgone.
  split_and!; [done|done|done|apply prune_fs_connected|by apply rescan_empty].
Qed.

Lemma scan_then_prune_witness :
  let env := working_env (mk_database [] []) in
  let files := get_device_files env xtrainerz scanned_device in
  deleted_count (prune_calls env files scanned_device) = length files
  ∧ map fst (prune_calls env files scanned_device) = files
  ∧ Forall (λ f, prune_fs env files scanned_device !! df_path f = None)
           files
  ∧ is_connected xtrainerz (prune_fs env files scanned_device)
    = is_connected xtrainerz scanned_device
  ∧ get_device_files env xtrainerz (prune_fs env files scanned_device) = [].
Proof.
  apply (scan_then_prune (working_env (mk_database [] [])) xtrainerz
           scanned_device); [reflexivity|].
  apply Forall_forall. intros f _. by split.
Defined.

(** ** More on [copy_episode] *)

(** Membership in the short lists of calls, by unfolding. *)
Ltac calls_solver :=
  intros; set_unfold; intuition (simplify_eq; eauto).

(** The branches of [copy_episode] that end in the handler. *)
Ltac handler_cases := unfold copy_handler; repeat case_match.

(** X11: ffmpeg is run only on a mounted device, with ffmpeg on the path,
    after the three opening messages were printed, on the source file of
    the episode, which then exists, and only when the destination is not
    already there with a size above zero; a move is only ever made to the
    destination of the episode, of the output of an ffmpeg run of the same
    call; and the only paths unlinked by name are the destination and the
    output path given to ffmpeg in the same call. *)
Theorem copy_episode_calls (env : Env) (self : DeviceManager)
    (e : PodcastEpisode) (fs : fsys) :
  let r := copy_episode env self e fs in
  (∀ s t, Call_ffmpeg s t ∈ calls r →
     s = Pathlib.Path (file_path e)
     ∧ is_connected self fs = true
     ∧ which_ffmpeg env = true
     ∧ announced env self e
     ∧ ∃ fs1, FS.mkdir (podcasts_dir self) fs = Some fs1
              ∧ FS.exists_ fs1 s = true
              ∧ FS.exists_nonempty fs1 (destination_of self e) = false)
  ∧ (∀ t d, Call_move t d ∈ calls r →
       d = destination_of self e
       ∧ Call_ffmpeg (Pathlib.Path (file_path e)) t ∈ calls r)
  ∧ (∀ p, Call_unlink p ∈ calls r →
       p = destination_of self e
       ∨ Call_ffmpeg (Pathlib.Path (file_path e)) p ∈ calls r).
Proof.
  unfold copy_episode, destination_of, announced.
  fold (podcasts_dir self).
  destruct (is_connected self fs) eqn:Hc; cbn [negb].
  2:{ split_and!; calls_solver. }
  destruct (FS.mkdir (podcasts_dir self) fs) as [fs1|] eqn:Hmk.
  2:{ handler_cases; split_and!; calls_solver. }
  destruct (console_print env (msg_processing e)) eqn:Hp; cbn [negb].
  2:{ handler_cases; split_and!; calls_solver. }
  destruct (console_print env (msg_source _)) eqn:Hs; cbn [negb].
  2:{ handler_cases; split_and!; calls_solver. }
  destruct (console_print env (msg_destination _)) eqn:Hd; cbn [negb].
  2:{ handler_cases; split_and!; calls_solver. }
  destruct (which_ffmpeg env) eqn:Hff; cbn [negb].
  2:{ split_and!; calls_solver. }
  destruct (FS.exists_nonempty fs1 _) eqn:Hdst.
  { split_and!; calls_solver. }
  destruct (FS.exists_ fs1 (Pathlib.Path (file_path e))) eqn:Hsrc; cbn [negb].
  2:{ split_and!; calls_solver. }
  assert (∀ s : path, s = Pathlib.Path (file_path e) →
     s = Pathlib.Path (file_path e) ∧ true = true ∧ true = true
     ∧ (true = true ∧ true = true ∧ true = true)
     ∧ ∃ fs0, Some fs1 = Some fs0 ∧ FS.exists_ fs0 s = true
              ∧ FS.exists_nonempty fs0 (podcasts_dir self // filename e)
                = false) as Hgood.
  { intros s ->. split_and!; [done..|]. by exists fs1. }
  clear Hc Hmk Hp Hs Hd Hff Hdst Hsrc.
  unfold copy_handler.
  repeat (case_match; simplify_eq/=);
    (split_and!; [intros s t Hin; apply (Hgood s) | |]; calls_solver).
Qed.






(** X14: a destination that is there but empty does not count as synced.
    With ffmpeg on the path, the opening messages printed, the device
    ready and the source on disk, the call does not skip: it first tries
    to unlink the destination.  When that is carried out (a regular file
    whose removal is not refused) the temporary file is asked for next;
    when it is not (the removal is refused, or the path is a directory)
    the call ends there, changes nothing and never runs ffmpeg, and
    returns the removal failure when the message of that failure is
    printed. *)
Theorem copy_episode_stale_destination (env : Env) (self : DeviceManager)
    (e : PodcastEpisode) (fs : fsys) (n : node) :
  which_ffmpeg env = true → announced env self e → device_ready self fs →
  FS.exists_ fs (Pathlib.Path (file_path e)) = true →
  fs !! destination_of self e = Some n → st_size n ≤ 0 →
  let r := copy_episode env self e fs in
  let unlinked :=
    bool_decide (node_kind n = RegularFile)
    && negb (unlink_refused env (destination_of self e) fs) in
  result r ≠ Skipped
  ∧ take 2 (calls r)
    = [Call_mkdir (podcasts_dir self); Call_unlink (destination_of self e)]
  ∧ (unlinked = true →
     take 3 (calls r)
     = [Call_mkdir (podcasts_dir self);
        Call_unlink (destination_of self e);
        Call_tempfile (Pathlib.suffix (destination_of self e))]
     ∧ result r ≠ RemoveFailed)
  ∧ (unlinked = false →
     fs_after r = fs
     ∧ calls r = [Call_mkdir (podcasts_dir self);
                  Call_unlink (destination_of self e)]
     ∧ outcome_ok (result r) = false
     ∧ (console_print env
          (msg_remove_error
             (failure_text env (Failed_unlink (destination_of self e))))
        = true → result r = RemoveFailed)).
Proof.
  intros Hff Hann [Hc Hd] Hsrc Hn Hsz r unlinked. subst r.
  pose proof (mkdir_directory _ _ Hd) as Hmk.
  open_copy self Hc Hmk Hann. rewrite Hff. cbn [negb].
  assert (FS.exists_nonempty fs (podcasts_dir self // filename e) = false)
    as ->.
  { apply exists_nonempty_false. right. by exists n. }
  rewrite Hsrc. cbn [negb].
  assert (FS.exists_ fs (podcasts_dir self // filename e) = true) as ->.
  { unfold FS.exists_. rewrite Hn. by apply bool_decide_eq_true. }
  unfold FS.unlink, FS.is_file, FS.has_kind. rewrite Hn. fold unlinked.
  destruct unlinked.
  - assert (∀ (Q : Prop) (t : list call) (o : outcome),
              o ≠ Skipped → o ≠ RemoveFailed →
              ∀ rest,
              t = [Call_mkdir (podcasts_dir self);
                   Call_unlink (podcasts_dir self // filename e);
                   Call_tempfile
                     (Pathlib.suffix (podcasts_dir self // filename e))]
                  ++ rest →
              o ≠ Skipped
              ∧ take 2 t
                = [Call_mkdir (podcasts_dir self);
                   Call_unlink (podcasts_dir self // filename e)]
              ∧ (true = true →
                 take 3 t
                 = [Call_mkdir (podcasts_dir self);
                    Call_unlink (podcasts_dir self // filename e);
                    Call_tempfile
                      (Pathlib.suffix (podcasts_dir self // filename e))]
                 ∧ o ≠ RemoveFailed)
              ∧ (true = false → Q)) as Hshape.
    { intros Q t o H1 H2 rest ->. by split_and!. }
    unfold copy_handler.
    destruct (NamedTemporaryFile env _ _) as [[tmp_path fs1]|].
    2:{ case_match; cbn [result calls];
          (eapply Hshape with (rest := []); [done..|]); done. }
    destruct (run_ffmpeg env _ tmp_path fs1) as [returncode fs2].
    case_bool_decide.
    { repeat case_match; cbn [result calls]; (eapply Hshape; [done..|]);
        by rewrite <- ?app_assoc. }
    destruct (shutil_move env tmp_path _ fs2) as [[] fs3]; cbn [negb].
    + case_match; cbn [result calls]; (eapply Hshape; [done..|]);
        by rewrite <- ?app_assoc.
    + repeat case_match; cbn [result calls]; (eapply Hshape; [done..|]);
        by rewrite <- ?app_assoc.
  - unfold copy_handler. repeat case_match; cbn; by split_and!.
Qed.

Lemma copy_episode_stale_destination_witness :
  let fs : fsys :=
    <[destination_of xtrainerz episode_one := a_file 0]> mounted in
  let r := copy_episode (working_env (mk_database [] [])) xtrainerz
             episode_one fs in
  let r' := copy_episode env_read_only xtrainerz episode_one fs in
  (result r ≠ Skipped
   ∧ take 3 (calls r)
     = [Call_mkdir (podcasts_dir xtrainerz);
        Call_unlink (destination_of xtrainerz episode_one);
        Call_tempfile
          (Pathlib.suffix (destination_of xtrainerz episode_one))]
   ∧ result r ≠ RemoveFailed)
  ∧ (fs_after r' = fs
     ∧ calls r' = [Call_mkdir (podcasts_dir xtrainerz);
                   Call_unlink (destination_of xtrainerz episode_one)]
     ∧ result r' = RemoveFailed).
Proof.
  split.
  - destruct (copy_episode_stale_destination
                (working_env (mk_database [] [])) xtrainerz episode_one
                (<[destination_of xtrainerz episode_one := a_file 0]> mounted)
                (a_file 0)) as (H1 & _ & H3 & _); [by_evaluation..|].
    destruct H3 as [H3 H4]; [reflexivity|]. by split_and!.
  - destruct (copy_episode_stale_destination env_read_only xtrainerz
                episode_one
                (<[destination_of xtrainerz episode_one := a_file 0]> mounted)
                (a_file 0)) as (_ & _ & _ & H4); [by_evaluation..|].
    destruct H4 as (H5 & H6 & _ & H8); [reflexivity|].
    split_and!; [exact H5 | exact H6 | by apply H8].
Defined.

(** ** More on [apply_changes] *)

Lemma apply_changes_unfold (env : Env) (self : PodcastSyncApp) (fs : fsys) :
  let chosen := filter (λ e, selected e = true) (episodes self) in
  let os := batch_outcomes env (device self) chosen fs in
  let fs1 := batch_fs env (device self) chosen fs in
  apply_changes env self fs
  = if existsb is_raised os
    then mk_sync_report os (copied_count os) [] 0 fs1
    else mk_sync_report os (copied_count os)
           (prune_calls env (device_files self) fs1)
           (deleted_count (prune_calls env (device_files self) fs1))
           (prune_fs env (device_files self) fs1).
Proof.
  unfold apply_changes, batch_outcomes, batch_fs, prune_calls, prune_fs.
  cbn zeta.
  destruct (copy_loop env (device self) _ fs) as [[os fs1] tr]. cbn.
  destruct (existsb is_raised os); [done|].
  by destruct (prune_loop env (device_files self) fs1).
Qed.

Lemma count_true_le {A} (f : A → bool) (l : list A) :
  (count_true f l ≤ length l)%nat.
Proof. unfold count_true. apply length_filter. Qed.

(** X15: what [apply_changes] does.  The copies are attempted for the
    selected episodes, in order, until one raises: only the last outcome
    can be an exception.  When a copy raises, no deletion is made at all.
    When none does, every selected episode has its outcome and the
    deletions follow, on the file system the copies left: one call of
    [delete_file] for each device file not flagged [keep], in order, until
    one raises.  The two counters are at most the numbers of outcomes and
    of calls, and a path that is not the path of an unmarked file is left
    as the copies left it. *)
Theorem apply_changes_report (env : Env) (self : PodcastSyncApp)
    (fs : fsys) :
  let rep := apply_changes env self fs in
  let chosen := filter (λ e, selected e = true) (episodes self) in
  let fs1 := batch_fs env (device self) chosen fs in
  copy_outcomes rep = batch_outcomes env (device self) chosen fs
  ∧ (length (copy_outcomes rep) ≤ length chosen)%nat
  ∧ (∀ i o, copy_outcomes rep !! i = Some o → is_raised o = true →
            S i = length (copy_outcomes rep))
  ∧ (copied rep ≤ length (copy_outcomes rep))%nat
  ∧ (deleted rep ≤ length (prune_log rep))%nat
  ∧ (existsb is_raised (copy_outcomes rep) = true →
     prune_log rep = [] ∧ deleted rep = 0%nat ∧ final_fs rep = fs1)
  ∧ (existsb is_raised (copy_outcomes rep) = false →
     length (copy_outcomes rep) = length chosen
     ∧ prune_log rep = prune_calls env (device_files self) fs1
     ∧ final_fs rep = prune_fs env (device_files self) fs1
     ∧ map fst (prune_log rep) `prefix_of` unmarked (device_files self)
     ∧ (Forall (λ c, is_delete_raised c.2 = false) (prune_log rep) →
        map fst (prune_log rep) = unmarked (device_files self)))
  ∧ (∀ p : path, p ∉ map df_path (unmarked (device_files self)) →
       final_fs rep !! p = fs1 !! p).
Proof.
  intros rep chosen fs1. subst rep. rewrite apply_changes_unfold.
  fold chosen. fold fs1.
  destruct (batch_outcomes_length env (device self) chosen fs)
    as [Hle Hlen].
  destruct (prune_calls_files env (device_files self) fs1) as [Hpre Hall].
  destruct (existsb is_raised (batch_outcomes env (device self) chosen fs))
    eqn:E; cbn [copy_outcomes copied prune_log deleted final_fs].
  - rewrite E. split_and!; try done.
    + intros i o. apply batch_outcomes_raised.
    + apply count_true_le.
  - rewrite E. split_and!; try done.
    + intros i o. apply batch_outcomes_raised.
    + apply count_true_le.
    + apply count_true_le.
    + intros _. split_and!; [by apply Hlen|done..].
    + intros p. apply prune_fs_other.
Qed.

Lemma prune_all_kept (env : Env) (files : list DeviceFile) (fs : fsys) :
  Forall (λ f, keep f = true) files →
  prune_calls env files fs = [] ∧ prune_fs env files fs = fs.
Proof.
  induction 1 as [|f files Hk _ IH]; [done|].
  unfold prune_calls, prune_fs. by rewrite prune_loop_kept.
Qed.

Lemma filter_none {A} (P : A → Prop) `{∀ x, Decision (P x)} (l : list A) :
  Forall (λ x, ¬ P x) l → filter P l = [].
Proof.
  induction 1 as [|x l Hx _ IH]; [done|]. by rewrite filter_cons_False.
Qed.

Lemma chosen_none (es : list PodcastEpisode) :
  Forall (λ e, selected e = false) es →
  filter (λ e, selected e = true) es = [].
Proof.
  intros H. apply filter_none. eapply Forall_impl; [done|].
  intros e He. by rewrite He.
Qed.

(** X16: with no episode selected and every device file flagged [keep],
    [apply_changes] leaves the file system as it was and reports nothing
    copied and nothing deleted. *)
Theorem apply_changes_nothing_to_do (env : Env) (self : PodcastSyncApp)
    (fs : fsys) :
  Forall (λ e, selected e = false) (episodes self) →
  Forall (λ f, keep f = true) (device_files self) →
  apply_changes env self fs = mk_sync_report [] 0 [] 0 fs.
Proof.
  intros Hsel Hkeep. rewrite apply_changes_unfold. cbn zeta.
  rewrite (chosen_none _ Hsel).
  destruct (prune_all_kept env (device_files self) fs Hkeep) as [H1 H2].
  cbn. by rewrite H1, H2.
Qed.

Lemma apply_changes_nothing_to_do_witness :
  apply_changes (working_env (mk_database [] []))
    (mk_PodcastSyncApp xtrainerz [episode_one; episode_two]
       [track "a.mp3" true; track "b.mp3" true]) loaded_device
  = mk_sync_report [] 0 [] 0 loaded_device.
Proof.
  apply apply_changes_nothing_to_do; repeat constructor.
Defined.

Lemma batch_without_ffmpeg (env : Env) (dev : DeviceManager)
    (eps : list PodcastEpisode) (fs : fsys) :
  which_ffmpeg env = false →
  Forall (λ o, outcome_ok o = false) (batch_outcomes env dev eps fs).
Proof.
  intros Hff. revert fs. induction eps as [|e eps IH]; intros fs.
  { constructor. }
  rewrite batch_outcomes_cons. cbn zeta.
  constructor; [by apply copy_episode_without_ffmpeg|].
  destruct (is_raised _); [constructor | apply IH].
Qed.

Lemma batch_ffmpeg_not_found (env : Env) (dev : DeviceManager)
    (eps : list PodcastEpisode) (fs : fsys) :
  which_ffmpeg env = false → device_ready dev fs →
  Forall (announced env dev) eps →
  batch_outcomes env dev eps fs = replicate (length eps) FfmpegNotFound
  ∧ batch_fs env dev eps fs = fs.
Proof.
  intros Hff Hready. induction 1 as [|e eps He _ IH]; [done|].
  rewrite batch_outcomes_cons, batch_fs_cons.
  rewrite (copy_episode_ffmpeg_not_found env dev e fs Hff He Hready). cbn.
  destruct IH as [-> ->]. done.
Qed.

Lemma existsb_replicate (n : nat) (o : outcome) :
  is_raised o = false → existsb is_raised (replicate n o) = false.
Proof. intros H. induction n as [|n IH]; [done|]. cbn. by rewrite H, IH. Qed.

(** X17: without ffmpeg on the path [apply_changes] counts nothing as
    copied, whatever is selected.  And when the device is ready and the
    opening messages of the selected episodes are printed, each of them
    reports the missing ffmpeg, the copies change nothing, and the
    deletions are still made, on the file system as it was. *)
Theorem apply_changes_without_ffmpeg (env : Env) (self : PodcastSyncApp)
    (fs : fsys) :
  which_ffmpeg env = false →
  let rep := apply_changes env self fs in
  let chosen := filter (λ e, selected e = true) (episodes self) in
  copied rep = 0%nat
  ∧ Forall (λ o, outcome_ok o = false) (copy_outcomes rep)
  ∧ (device_ready (device self) fs →
     Forall (announced env (device self)) chosen →
     copy_outcomes rep = replicate (length chosen) FfmpegNotFound
     ∧ prune_log rep = prune_calls env (device_files self) fs
     ∧ deleted rep = deleted_count (prune_calls env (device_files self) fs)
     ∧ final_fs rep = prune_fs env (device_files self) fs).
Proof.
  intros Hff rep chosen. subst rep. rewrite apply_changes_unfold.
  fold chosen.
  pose proof (batch_without_ffmpeg env (device self) chosen fs Hff) as Hall.
  assert (copied_count (batch_outcomes env (device self) chosen fs) = 0%nat)
    as Hzero.
  { unfold copied_count, count_true. rewrite filter_none; [done|].
    eapply Forall_impl; [exact Hall|]. intros o Ho. by rewrite Ho. }
  split_and!.
  - by destruct (existsb _ _).
  - by destruct (existsb _ _).
  - intros Hready Hann.
    destruct (batch_ffmpeg_not_found env (device self) chosen fs Hff Hready
                Hann) as [-> ->].
    by rewrite existsb_replicate.
Qed.

Lemma apply_changes_without_ffmpeg_witness :
  let self := mk_PodcastSyncApp xtrainerz [episode_one_selected] five_files in
  let rep := apply_changes env_without_ffmpeg self loaded_device in
  copied rep = 0%nat
  ∧ Forall (λ o, outcome_ok o = false) (copy_outcomes rep)
  ∧ (device_ready xtrainerz loaded_device →
     Forall (announced env_without_ffmpeg xtrainerz)
            [episode_one_selected] →
     copy_outcomes rep = replicate 1 FfmpegNotFound
     ∧ prune_log rep = prune_calls env_without_ffmpeg five_files loaded_device
     ∧ deleted rep
       = deleted_count
           (prune_calls env_without_ffmpeg five_files loaded_device)
     ∧ final_fs rep = prune_fs env_without_ffmpeg five_files loaded_device).
Proof.
  apply (apply_changes_without_ffmpeg env_without_ffmpeg
           (mk_PodcastSyncApp xtrainerz [episode_one_selected] five_files)).
  reflexivity.
Defined.

Lemma batch_skipped (env : Env) (dev : DeviceManager)
    (eps : list PodcastEpisode) (fs : fsys) :
  which_ffmpeg env = true →
  Forall (λ e, announced env dev e ∧ already_on_device dev e fs) eps →
  batch_outcomes env dev eps fs = replicate (length eps) Skipped
  ∧ batch_fs env dev eps fs = fs.
Proof.
  intros Hff. induction 1 as [|e eps [Ha He] _ IH]; [done|].
  rewrite batch_outcomes_cons, batch_fs_cons.
  rewrite (copy_episode_skipped env dev e fs Hff Ha He). cbn.
  destruct IH as [-> ->]. done.
Qed.

(** X18: an episode that is already on the device is counted as copied
    and then deleted, unless its file was flagged [keep].  With ffmpeg on
    the path and every selected episode announced and already on the
    device, each selected episode is skipped and counted and the copies
    change nothing.  When the console then prints the messages of the
    deletions, every selected episode whose destination is listed among
    the device files without the flag, and can be removed, has no file at
    its destination in the end. *)
Theorem apply_changes_deletes_synced (env : Env) (self : PodcastSyncApp)
    (fs : fsys) :
  which_ffmpeg env = true →
  Forall (λ e, selected e = true →
               announced env (device self) e
               ∧ already_on_device (device self) e fs)
         (episodes self) →
  let rep := apply_changes env self fs in
  let chosen := filter (λ e, selected e = true) (episodes self) in
  copy_outcomes rep = replicate (length chosen) Skipped
  ∧ copied rep = length chosen
  ∧ final_fs rep = prune_fs env (device_files self) fs
  ∧ (Forall (reported env) (unmarked (device_files self)) →
     ∀ e f, e ∈ chosen → f ∈ device_files self → keep f = false →
            df_path f = destination_of (device self) e →
            removable env (df_path f) →
            FS.is_file (final_fs rep) (destination_of (device self) e)
            = false).
Proof.
  intros Hff Hall rep chosen. subst rep. rewrite apply_changes_unfold.
  fold chosen.
  destruct (batch_skipped env (device self) chosen fs Hff) as [Hos Hfs].
  { subst chosen. rewrite Forall_forall in Hall |- *.
    intros e [Hsel He]%list_elem_of_filter. by apply Hall. }
  rewrite Hos, Hfs, existsb_replicate by done.
  cbn [copy_outcomes copied final_fs]. split_and!; [done| |done|].
  - unfold copied_count, count_true. rewrite filter_all.
    + by rewrite length_replicate.
    + apply Forall_forall. by intros o [-> _]%elem_of_replicate.
  - intros Hrep e f _ Hf Hk <- Hrm. by apply prune_fs_gone.
Qed.

Lemma apply_changes_deletes_synced_witness :
  let env := working_env (mk_database [] []) in
  let rep := apply_changes env synced_app mounted_with_one in
  let chosen := filter (λ e, selected e = true) (episodes synced_app) in
  copy_outcomes rep = replicate (length chosen) Skipped
  ∧ copied rep = length chosen
  ∧ final_fs rep = prune_fs env (device_files synced_app) mounted_with_one
  ∧ (Forall (reported env) (unmarked (device_files synced_app)) →
     ∀ e f, e ∈ chosen → f ∈ device_files synced_app → keep f = false →
            df_path f = destination_of (device synced_app) e →
            removable env (df_path f) →
            FS.is_file (final_fs rep) (destination_of (device synced_app) e)
            = false).
Proof.
  apply (apply_changes_deletes_synced (working_env (mk_database [] []))
           synced_app mounted_with_one); [reflexivity|].
  constructor; [intros _; by_evaluation|].
  constructor; [done | constructor].
Defined.

(** ** [_find_podcasts_database] *)

Lemma is_prefix_spec (p s : list ascii) :
  Str.is_prefix p s = true ↔ ∃ b, s = p ++ b.
Proof.
  revert s. induction p as [|a p IH]; intros s; cbn.
  { split; [by exists s | done]. }
  destruct s as [|c s].
  { split; [done | by intros (b & ?)]. }
  destruct (decide (a = c)) as [->|Hne].
  - rewrite IH. split; intros (b & Hb); exists b; [by rewrite Hb|].
    by injection Hb.
  - split; [done|]. intros (b & Hb). by injection Hb.
Qed.

Lemma contains_go_spec (needle hay : list ascii) :
  contains_go needle hay = true ↔ ∃ a b, hay = a ++ needle ++ b.
Proof.
  induction hay as [|c hay IH]; cbn.
  - rewrite orb_false_r, is_prefix_spec. split.
    + intros (b & Hb). by exists [], b.
    + intros (a & b & Hab). destruct a; [by exists b|done].
  - rewrite orb_true_iff, is_prefix_spec, IH. split.
    + intros [(b & Hb)|(a & b & ->)]; [by exists [], b|].
      by exists (c :: a), b.
    + intros (a & b & Hab). destruct a as [|c' a]; [left; by exists b|].
      right. injection Hab as -> ->. by exists a, b.
Qed.

(** The pattern matches the names that hold [podcasts]. *)
Lemma fnmatch_podcasts_spec (name : string) :
  fnmatch_podcasts name = true ↔ ∃ a b, name = a +:+ "podcasts" +:+ b.
Proof.
  unfold fnmatch_podcasts. rewrite contains_go_spec. split.
  - intros (a & b & Hab). exists (Str.of_chars a), (Str.of_chars b).
    apply chars_inj. by rewrite !chars_app, !chars_of_chars.
  - intros (a & b & ->). exists (Str.chars a), (Str.chars b).
    by rewrite !chars_app.
Qed.

Lemma joinpath_component (p : path) (s : string) :
  "/"%char ∉ Str.chars s → s ≠ "" → s ≠ "." → p // s = p ++ [s].
Proof.
  intros Hs He Hd. unfold Pathlib.joinpath.
  by rewrite (startswith_slash _ Hs), parts_single.
Qed.

Lemma group_containers_eq (home : path) :
  home // "Library" // "Group Containers" = group_containers_of home.
Proof.
  rewrite !joinpath_component by (done || compute_done).
  unfold group_containers_of. by rewrite <- app_assoc.
Qed.

Lemma alt_path_eq (home : path) :
  home // "Library" // "Containers" // "com.apple.podcasts" // "Data"
       // "Documents" // "MTLibrary.sqlite" = alt_path_of home.
Proof.
  rewrite !joinpath_component by (done || compute_done).
  unfold alt_path_of. by rewrite <- !app_assoc.
Qed.

Lemma database_in_eq (container : path) :
  container // "Documents" // "MTLibrary.sqlite"
  = container ++ ["Documents"; "MTLibrary.sqlite"].
Proof.
  rewrite !joinpath_component by (done || compute_done).
  by rewrite <- app_assoc.
Qed.

Lemma first_database_Some (containers : list path) (fs : fsys) (p : path) :
  first_database containers fs = Some p →
  FS.exists_ fs p = true
  ∧ ∃ c, c ∈ containers ∧ p = c ++ ["Documents"; "MTLibrary.sqlite"].
Proof.
  induction containers as [|c containers IH]; [done|].
  cbn [first_database]. rewrite database_in_eq.
  destruct (FS.exists_ fs (c ++ _)) eqn:E.
  - intros [= <-]. split; [done|]. exists c. split; [left | done].
  - intros (? & c' & ? & ?)%IH. split; [done|]. exists c'.
    split; [by right | done].
Qed.

Lemma first_database_None (containers : list path) (fs : fsys) :
  first_database containers fs = None
  ↔ Forall (λ c, FS.exists_ fs (c ++ ["Documents"; "MTLibrary.sqlite"])
                 = false) containers.
Proof.
  induction containers as [|c containers IH]; [done|].
  cbn [first_database]. rewrite database_in_eq, Forall_cons.
  destruct (FS.exists_ fs (c ++ _)) eqn:E.
  - split; [done | by intros [? _]].
  - rewrite IH. split; [by intros ? | by intros [_ ?]].
Qed.

Lemma elem_of_glob_podcasts (dir p : path) (fs : fsys) :
  p ∈ glob_podcasts dir fs
  ↔ FS.is_dir fs dir = true ∧ is_Some (fs !! p)
    ∧ ∃ name, p = dir ++ [name] ∧ fnmatch_podcasts name = true.
Proof.
  unfold glob_podcasts. destruct (FS.is_dir fs dir).
  2:{ split; [by intros ?%elem_of_nil | by intros [? _]]. }
  rewrite list_elem_of_filter, list_elem_of_fmap.
  assert (podcasts_entry dir p = true
          ↔ ∃ name, p = dir ++ [name] ∧ fnmatch_podcasts name = true)
    as ->.
  { unfold podcasts_entry.
    destruct (Pathlib.relative_to dir p) as [rel|] eqn:E.
    - apply relative_to_Some in E as ->.
      destruct rel as [|name [|]].
      + split; [done|]. intros (name & Heq & _).
        apply (f_equal length) in Heq. rewrite !length_app in Heq.
        cbn in Heq. lia.
      + split; [by exists name|]. by intros (? & [= <-]%app_inv_head & ?).
      + split; [done|]. by intros (? & ?%app_inv_head & _).
    - split; [done|]. intros (name & -> & _).
      by rewrite (proj2 (relative_to_Some dir _ [name])) in E. }
  split.
  - intros [Hm ([q n] & -> & Hin)]. apply elem_of_map_to_list in Hin.
    split_and!; [done|by exists n|done].
  - intros (_ & [n Hn] & Hm). split; [done|]. exists (p, n).
    split; [done|]. by apply elem_of_map_to_list.
Qed.

Lemma store_in_eq (home : path) (name : string) :
  store_in home name
  = (group_containers_of home ++ [name])
      ++ ["Documents"; "MTLibrary.sqlite"].
Proof. unfold store_in. by rewrite <- app_assoc. Qed.

(** The search finds nothing exactly when neither place holds a store. *)
Lemma find_podcasts_database_None (home : path) (fs : fsys) :
  find_podcasts_database home fs = None
  ↔ FS.exists_ fs (alt_path_of home) = false
    ∧ (FS.is_dir fs (group_containers_of home) = true →
       ∀ name, fnmatch_podcasts name = true →
         is_Some (fs !! (group_containers_of home ++ [name])) →
         FS.exists_ fs (store_in home name) = false).
Proof.
  unfold find_podcasts_database. rewrite group_containers_eq, alt_path_eq.
  destruct (first_database _ fs) as [p|] eqn:E.
  - split; [done|]. intros [_ Hall]. exfalso.
    apply first_database_Some in E as (Hex & c & Hc & ->).
    apply elem_of_glob_podcasts in Hc as (Hd & Hc & name & -> & Hm).
    specialize (Hall Hd name Hm Hc). rewrite store_in_eq in Hall.
    congruence.
  - apply first_database_None in E. rewrite Forall_forall in E.
    destruct (FS.exists_ fs (alt_path_of home)); split; try done.
    + by intros [? _].
    + intros _. split; [done|]. intros Hd name Hm Hc.
      rewrite store_in_eq. apply E. apply elem_of_glob_podcasts.
      split_and!; [done..|]. by exists name.
Qed.

Lemma find_podcasts_database_Some (home : path) (fs : fsys) (p : path) :
  find_podcasts_database home fs = Some p →
  FS.exists_ fs p = true
  ∧ ((∃ name, fnmatch_podcasts name = true
              ∧ FS.is_dir fs (group_containers_of home) = true
              ∧ is_Some (fs !! (group_containers_of home ++ [name]))
              ∧ p = store_in home name)
     ∨ (p = alt_path_of home
        ∧ first_database (glob_podcasts (group_containers_of home) fs) fs
          = None)).
Proof.
  unfold find_podcasts_database. rewrite group_containers_eq, alt_path_eq.
  destruct (first_database _ fs) as [q|] eqn:E.
  - intros [= <-].
    apply first_database_Some in E as (Hex & c & Hc & ->).
    apply elem_of_glob_podcasts in Hc as (Hd & Hc & name & -> & Hm).
    split; [done|]. left. exists name. by rewrite store_in_eq.
  - destruct (FS.exists_ fs (alt_path_of home)) eqn:Ea; [|done].
    intros [= <-]. split; [done|]. by right.
Qed.

(** X19: the search for the store.  What it returns exists and is called
    [MTLibrary.sqlite]; it is either the store of an entry of the
    [Group Containers] folder whose name holds [podcasts], or the store at
    the alternative location, and the latter only when no such entry has
    one.  It returns nothing exactly when neither place has a store. *)
Theorem find_podcasts_database_spec (home : path) (fs : fsys) :
  let stores (name : string) : Prop :=
    (∃ a b, name = a +:+ "podcasts" +:+ b)
    ∧ FS.is_dir fs (group_containers_of home) = true
    ∧ is_Some (fs !! (group_containers_of home ++ [name]))
    ∧ FS.exists_ fs (store_in home name) = true in
  (∀ p, find_podcasts_database home fs = Some p →
     FS.exists_ fs p = true
     ∧ Pathlib.name p = "MTLibrary.sqlite"
     ∧ ((∃ name, stores name ∧ p = store_in home name)
        ∨ (p = alt_path_of home ∧ ∀ name, ¬ stores name)))
  ∧ (find_podcasts_database home fs = None
     ↔ FS.exists_ fs (alt_path_of home) = false ∧ ∀ name, ¬ stores name)
  ∧ ((∃ name, stores name) →
     ∃ name, stores name
             ∧ find_podcasts_database home fs = Some (store_in home name)).
Proof.
  intros stores.
  assert ((∀ name, ¬ stores name)
          ↔ (FS.is_dir fs (group_containers_of home) = true →
             ∀ name, fnmatch_podcasts name = true →
               is_Some (fs !! (group_containers_of home ++ [name])) →
               FS.exists_ fs (store_in home name) = false)) as Hno.
  { subst stores. cbn beta. split.
    - intros H Hd name Hm Hc.
      destruct (FS.exists_ fs (store_in home name)) eqn:E; [|done].
      destruct (H name). by rewrite <- fnmatch_podcasts_spec.
    - intros H name (Hm & Hd & Hc & He).
      rewrite <- fnmatch_podcasts_spec in Hm.
      specialize (H Hd name Hm Hc). congruence. }
  assert (∀ p, find_podcasts_database home fs = Some p →
     FS.exists_ fs p = true
     ∧ Pathlib.name p = "MTLibrary.sqlite"
     ∧ ((∃ name, stores name ∧ p = store_in home name)
        ∨ (p = alt_path_of home ∧ ∀ name, ¬ stores name))) as Hsome.
  { intros p Hp.
    destruct (find_podcasts_database_Some home fs p Hp) as [Hex Hwhere].
    split; [done|].
    destruct Hwhere as [(name & Hm & Hd & Hc & ->)|[-> Hnone]].
    - split.
      { unfold Pathlib.name, store_in.
        change [name; "Documents"; "MTLibrary.sqlite"]
          with ([name; "Documents"] ++ ["MTLibrary.sqlite"]).
        by rewrite app_assoc, last_snoc. }
      left. exists name. split; [|done]. subst stores. cbn beta.
      by rewrite <- fnmatch_podcasts_spec.
    - split.
      { unfold Pathlib.name, alt_path_of.
        change ["Library"; "Containers"; "com.apple.podcasts"; "Data";
                "Documents"; "MTLibrary.sqlite"]
          with (["Library"; "Containers"; "com.apple.podcasts"; "Data";
                 "Documents"] ++ ["MTLibrary.sqlite"]).
        by rewrite app_assoc, last_snoc. }
      right. split; [done|]. apply Hno. intros Hd name Hm Hc.
      apply first_database_None in Hnone. rewrite Forall_forall in Hnone.
      rewrite store_in_eq. apply Hnone. apply elem_of_glob_podcasts.
      split_and!; [done..|]. by exists name. }
  split_and!; [done| |].
  - rewrite find_podcasts_database_None. by rewrite Hno.
  - intros (name & Hname).
    destruct (find_podcasts_database home fs) as [p|] eqn:E.
    + destruct (Hsome p eq_refl) as (_ & _ & [(n & Hn & ->)|[_ Hnone]]).
      * by exists n.
      * by destruct (Hnone name).
    + apply find_podcasts_database_None in E as [_ E].
      by destruct (proj2 Hno E name).
Qed.

(** ** The screens *)

Lemma on_mount_unmounted (env : Env) (st : App.state) (fs : fsys) :
  is_connected (device (App.self st)) fs = false →
  App.on_mount env st fs
  = App.exit (App.Exit_message "XTRAINERZ device not found. Please connect the device and try again.") st.
Proof. unfold App.on_mount. by intros ->. Qed.

Lemma on_mount_running (env : Env) (st : App.state) (fs : fsys) :
  App.exited st = None →
  App.exited (App.on_mount env st fs) = None →
  is_connected (device (App.self st)) fs = true
  ∧ get_recent_podcasts env fs (App.library st) 10 ≠ []
  ∧ App.on_mount env st fs
    = App.mk_state (App.library st)
        (mk_PodcastSyncApp (device (App.self st))
           (get_recent_podcasts env fs (App.library st) 10)
           (device_files (App.self st)))
        "episodes" None.
Proof.
  unfold App.on_mount. intros Hrun.
  destruct (is_connected _ fs); cbn [negb]; [|done]. cbn.
  destruct (get_recent_podcasts env fs (App.library st) 10); [done|].
  intros _. split_and!; [done..|]. unfold App.show_episode_selection,
    App.set_screen, App.set_episodes. cbn. by rewrite Hrun.
Qed.

(** X20: how the application starts.  Without the device it ends at once
    with the message about the device and never reads the library; with
    the device but no store found it ends with the message about the
    library; and when it goes on, it shows the episode screen with what
    the reader returned for a limit of 10: at least one and at most ten
    episodes, none of them selected, and no device file listed yet. *)
Theorem on_mount_outcome (env : Env) (home : path) (fs : fsys) :
  let st := App.on_mount env (App.init home fs) fs in
  (is_connected new_DeviceManager fs = false →
     App.exited st
     = Some (App.Exit_message "XTRAINERZ device not found. Please connect the device and try again.")
     ∧ episodes (App.self st) = [])
  ∧ (is_connected new_DeviceManager fs = true →
     find_podcasts_database home fs = None →
     App.exited st
     = Some (App.Exit_message "No recent podcasts found in Apple Podcasts library."))
  ∧ (App.exited st = None →
     is_connected new_DeviceManager fs = true
     ∧ App.current_screen st = "episodes"
     ∧ episodes (App.self st)
       = get_recent_podcasts env fs (new_PodcastLibrary home fs) 10
     ∧ (1 ≤ length (episodes (App.self st)) ≤ 10)%nat
     ∧ Forall (λ e, selected e = false) (episodes (App.self st))
     ∧ device_files (App.self st) = []).
Proof.
  intros st. subst st. split_and!.
  - intros Hc. by rewrite on_mount_unmounted.
  - intros Hc Hdb. unfold App.on_mount, App.init. cbn. rewrite Hc. cbn.
    unfold get_recent_podcasts, new_PodcastLibrary. cbn. by rewrite Hdb.
  - intros Hrun.
    destruct (on_mount_running env (App.init home fs) fs eq_refl Hrun)
      as (Hc & Hne & ->). cbn.
    pose proof (get_recent_podcasts_length env fs
                  (new_PodcastLibrary home fs) 10 ltac:(lia)) as Hlen.
    split_and!; [done..| | |apply get_recent_podcasts_unselected|done].
    + destruct (get_recent_podcasts env fs _ 10); [done | cbn; lia].
    + apply Hlen.
Qed.

Lemma deletable_all (env : Env) (files : list DeviceFile) :
  (∀ s, console_print env s = true) →
  (∀ p fs, unlink_refused env p fs = false) →
  deletable env files.
Proof.
  intros Hp Hr. apply Forall_forall. intros f _.
  split; [by split|]. intros fs. apply Hr.
Qed.

Lemma deletable_reported (env : Env) (files : list DeviceFile) :
  deletable env files → Forall (reported env) files.
Proof. intros H. eapply Forall_impl; [exact H|]. by intros f [? _]. Qed.

Lemma exception_of_None (os : list outcome) (n m : nat)
    (log : list (DeviceFile * deletion)) (fs : fsys) :
  existsb is_raised os = false →
  Forall (λ c, c.2 = Deleted ∨ c.2 = DeleteFailed) log →
  exception_of (mk_sync_report os n log m fs) = None.
Proof.
  intros Hos Hlog. unfold exception_of. cbn.
  assert (∀ e, last os ≠ Some (Raises e)) as Hlast.
  { intros e Hl. apply last_Some_elem_of in Hl.
    assert (existsb is_raised os = true); [|congruence].
    apply existsb_exists. exists (Raises e). split; [|done].
    by apply list_elem_of_In. }
  assert (∀ g e, last log ≠ Some (g, DeleteRaised e)) as Hlast'.
  { intros g e Hl. apply last_Some_elem_of in Hl.
    rewrite Forall_forall in Hlog. by destruct (Hlog _ Hl). }
  destruct (last os) as [[]|]; try done.
  all: try (by destruct (Hlast e)).
  all: destruct (last log) as [[g []]|]; try done.
  all: by destruct (Hlast' g e).
Qed.

(** X21: the two buttons, no box touched.  When the application has
    started, the walk of the device does not fail and the files that the
    scan lists can be deleted (their messages are printed and their
    removal is not refused), the button [Continue] of the episode screen
    followed by the button [Apply Changes] of the device screen copies
    nothing and deletes every audio file the scan listed: no attempt to
    copy is made, the listed paths are gone, every other path is as it
    was, a new scan lists nothing, and the unmount screen is shown. *)
Theorem continue_then_apply (env : Env) (run : diskutil) (home : path)
    (fs : fsys) :
  glob_fault env = None →
  let st1 := App.on_mount env (App.init home fs) fs in
  App.exited st1 = None →
  let scan := get_device_files env new_DeviceManager fs in
  deletable env scan →
  let s2 := App.on_button_pressed env run "continue-btn" st1 fs in
  let s3 := App.on_button_pressed env run "apply-btn" s2.1 s2.2 in
  App.current_screen s2.1 = "device"
  ∧ device_files (App.self s2.1) = scan ∧ s2.2 = fs
  ∧ copy_outcomes (apply_changes env (App.self s2.1) s2.2) = []
  ∧ deleted (apply_changes env (App.self s2.1) s2.2) = length scan
  ∧ App.current_screen s3.1 = "unmount" ∧ App.exited s3.1 = None
  ∧ Forall (λ f, s3.2 !! df_path f = None) scan
  ∧ (∀ p : path, p ∉ map df_path scan → s3.2 !! p = fs !! p)
  ∧ get_device_files env new_DeviceManager s3.2 = [].
Proof.
  intros Hfault st1 Hrun scan Hdel s2 s3.
  destruct (on_mount_running env (App.init home fs) fs eq_refl Hrun)
    as (Hc & Hne & Hst1). fold st1 in Hst1.
  assert (s2 = (App.mk_state (new_PodcastLibrary home fs)
                  (mk_PodcastSyncApp new_DeviceManager
                     (get_recent_podcasts env fs
                        (new_PodcastLibrary home fs) 10) scan)
                  "device" None, fs)) as Hs2.
  { subst s2. by rewrite Hst1. }
  clearbody s2. subst s2. cbn [fst snd] in *.
  pose proof (unmarked_scan env new_DeviceManager fs) as Hun.
  fold scan in Hun.
  assert (apply_changes env
            (mk_PodcastSyncApp new_DeviceManager
               (get_recent_podcasts env fs (new_PodcastLibrary home fs) 10)
               scan) fs
          = mk_sync_report [] 0 (prune_calls env scan fs)
              (deleted_count (prune_calls env scan fs))
              (prune_fs env scan fs))
    as Happly.
  { rewrite apply_changes_unfold. cbn.
    by rewrite (chosen_none _ (get_recent_podcasts_unselected _ _ _ _)). }
  assert (s3 = (App.show_unmount_screen
                  (App.mk_state (new_PodcastLibrary home fs)
                     (mk_PodcastSyncApp new_DeviceManager
                        (get_recent_podcasts env fs
                           (new_PodcastLibrary home fs) 10) scan)
                     "device" None),
                prune_fs env scan fs)) as Hs3.
  { subst s3. unfold App.on_button_pressed, App.apply_changes_and_ask.
    cbn [App.current_screen App.self].
    rewrite bool_decide_false, bool_decide_true by done.
    rewrite Happly, exception_of_None; [done..|].
    apply prune_calls_reported. rewrite Hun. by apply deletable_reported. }
  clearbody s3. subst s3.
  destruct (prune_all_deleted env scan fs) as (_ & _ & Hcount & Hgone).
  { rewrite Hun. apply get_device_files_NoDup. }
  { rewrite Hun. eapply Forall_impl; [apply get_device_files_each|].
    by intros f (? & _). }
  { rewrite Hun. eapply Forall_impl; [exact Hdel|]. by intros f [_ ?]. }
  { rewrite Hun. eapply Forall_impl; [exact Hdel|]. by intros f [[? _] _]. }
  rewrite Hun in Hcount, Hgone.
  cbn [fst snd App.self App.current_screen App.exited device_files].
  rewrite Happly. cbn.
  split_and!; [done..| | |by apply rescan_empty].
  - done.
  - intros p Hp. apply prune_fs_other. by rewrite Hun.
Qed.

Lemma continue_then_apply_witness :
  let st1 := App.on_mount home_env (App.init home home_disk) home_disk in
  let scan := get_device_files home_env new_DeviceManager home_disk in
  let s2 :=
    App.on_button_pressed home_env diskutil_fails "continue-btn" st1
      home_disk in
  let s3 :=
    App.on_button_pressed home_env diskutil_fails "apply-btn" s2.1 s2.2 in
  App.current_screen s2.1 = "device"
  ∧ device_files (App.self s2.1) = scan ∧ s2.2 = home_disk
  ∧ copy_outcomes (apply_changes home_env (App.self s2.1) s2.2) = []
  ∧ deleted (apply_changes home_env (App.self s2.1) s2.2) = length scan
  ∧ App.current_screen s3.1 = "unmount" ∧ App.exited s3.1 = None
  ∧ Forall (λ f, s3.2 !! df_path f = None) scan
  ∧ (∀ p : path, p ∉ map df_path scan → s3.2 !! p = home_disk !! p)
  ∧ get_device_files home_env new_DeviceManager s3.2 = [].
Proof.
  apply (continue_then_apply home_env diskutil_fails home home_disk);
    [reflexivity | compute_done | by apply deletable_all].
Defined.

Lemma chosen_one (es : list PodcastEpisode) (i : nat) (e : PodcastEpisode) :
  Forall (λ e, selected e = false) es → es !! i = Some e →
  filter (λ e, selected e = true)
    (alter (λ e, mk_PodcastEpisode (title e) (podcast e) (file_path e)
                   (date_added e) true) i es)
  = [mk_PodcastEpisode (title e) (podcast e) (file_path e) (date_added e)
       true].
Proof.
  intros Hall. revert i. induction Hall as [|e0 es He0 Hes IH]; intros i Hi.
  { done. }
  destruct i as [|i]; cbn in Hi; cbn [alter list_alter].
  - injection Hi as ->. rewrite filter_cons_True by done.
    by rewrite (chosen_none _ Hes).
  - rewrite filter_cons_False by (by rewrite He0). by apply IH.
Qed.

Lemma unmarked_keep_one (fl : list DeviceFile) (j : nat) (f : DeviceFile) :
  Forall (λ f, keep f = false) fl → fl !! j = Some f →
  unmarked (alter (λ f, mk_DeviceFile (df_name f) (df_path f) true) j fl)
  = delete j fl.
Proof.
  unfold unmarked. intros Hall. revert j.
  induction Hall as [|f0 fl Hf0 Hfl IH]; intros j Hj; [done|].
  destruct j as [|j]; cbn in Hj; cbn [alter list_alter delete list_delete].
  - rewrite filter_cons_False by done. by apply filter_all.
  - rewrite filter_cons_True by done. f_equal. by apply IH.
Qed.

Lemma elem_of_delete_lookup {A} (l : list A) (j : nat) (x : A) :
  x ∈ delete j l → x ∈ l.
Proof.
  intros [k Hk]%list_elem_of_lookup.
  destruct (decide (k < j)%nat).
  - rewrite list_lookup_delete_lt in Hk by done.
    by eapply list_elem_of_lookup_2.
  - rewrite list_lookup_delete_ge in Hk by lia.
    by eapply list_elem_of_lookup_2.
Qed.

(** X22: the boxes are honoured.  When the application has started and
    the walk of the device does not fail: check the box of one episode,
    press [Continue], check the box of one listed file, press
    [Apply Changes].  Then exactly one copy is attempted, that of the
    checked episode, in the file system as it was.  When that copy raises,
    nothing is deleted and the application ends with the text of the
    error.  When it does not, the checked file is not deleted by name, so
    its path is as the copy left it; and when the other listed files can
    be deleted, each of them is no longer a file and the unmount screen is
    shown. *)
Theorem check_continue_check_apply (env : Env) (run : diskutil)
    (home : path) (fs : fsys) (i j : nat) (e : PodcastEpisode)
    (f : DeviceFile) :
  glob_fault env = None →
  let st1 := App.on_mount env (App.init home fs) fs in
  App.exited st1 = None →
  episodes (App.self st1) !! i = Some e →
  get_device_files env new_DeviceManager fs !! j = Some f →
  let s2 :=
    App.on_button_pressed env run "continue-btn"
      (App.episode_checkbox_changed i true st1) fs in
  let st2 := App.device_file_checkbox_changed j true s2.1 in
  let s3 := App.on_button_pressed env run "apply-btn" st2 s2.2 in
  let checked :=
    mk_PodcastEpisode (title e) (podcast e) (file_path e) (date_added e)
      true in
  let r := copy_episode env new_DeviceManager checked fs in
  copy_outcomes (apply_changes env (App.self st2) s2.2) = [result r]
  ∧ (∀ x, result r = Raises x →
       s3.2 = fs_after r
       ∧ App.exited s3.1
         = Some (App.Exit_result
                   ("An error occurred: " +:+ failure_text env x))
       ∧ App.current_screen s3.1 = "device")
  ∧ (is_raised (result r) = false →
     s3.2 !! df_path f = fs_after r !! df_path f
     ∧ (deletable env (delete j (get_device_files env new_DeviceManager fs)) →
        App.current_screen s3.1 = "unmount" ∧ App.exited s3.1 = None
        ∧ ∀ g, g ∈ get_device_files env new_DeviceManager fs → g ≠ f →
               FS.is_file s3.2 (df_path g) = false)).
Proof.
  intros Hfault st1 Hrun Hi Hj s2 st2 s3 checked r.
  destruct (on_mount_running env (App.init home fs) fs eq_refl Hrun)
    as (Hc & Hne & Hst1). fold st1 in Hst1.
  set (scan := get_device_files env new_DeviceManager fs) in *.
  set (found := get_recent_podcasts env fs (new_PodcastLibrary home fs) 10)
    in *.
  rewrite Hst1 in Hi. cbn in Hi.
  set (marked := alter (λ f, mk_DeviceFile (df_name f) (df_path f) true) j
                   scan).
  set (picked := alter (λ e, mk_PodcastEpisode (title e) (podcast e)
                               (file_path e) (date_added e) true) i found).
  assert (s2 = (App.mk_state (new_PodcastLibrary home fs)
                  (mk_PodcastSyncApp new_DeviceManager picked scan)
                  "device" None, fs)) as Hs2.
  { subst s2. by rewrite Hst1. }
  assert (st2 = App.mk_state (new_PodcastLibrary home fs)
                  (mk_PodcastSyncApp new_DeviceManager picked marked)
                  "device" None) as Hst2.
  { subst st2. by rewrite Hs2. }
  clearbody st2 s2. subst st2 s2. cbn [fst snd] in *.
  assert (filter (λ e, selected e = true) picked = [checked]) as Hpicked.
  { apply (chosen_one found i e);
      [apply get_recent_podcasts_unselected | done]. }
  assert (unmarked marked = delete j scan) as Hmarked.
  { apply (unmarked_keep_one scan j f); [|done].
    eapply Forall_impl; [apply get_device_files_each|].
    by intros g (_ & _ & ?). }
  assert (batch_outcomes env new_DeviceManager [checked] fs = [result r]
          ∧ batch_fs env new_DeviceManager [checked] fs = fs_after r)
    as [Hos Hfs].
  { rewrite batch_outcomes_cons, batch_fs_cons. fold r. cbn zeta.
    destruct (is_raised (result r)); split; reflexivity. }
  pose proof (apply_changes_unfold env
                (mk_PodcastSyncApp new_DeviceManager picked marked) fs)
    as Happly.
  cbn [device episodes device_files] in Happly.
  rewrite Hpicked, Hos, Hfs in Happly. cbn [existsb orb] in Happly.
  rewrite orb_false_r in Happly.
  unfold s3, App.on_button_pressed, App.apply_changes_and_ask.
  cbn [App.current_screen App.self].
  rewrite bool_decide_false, bool_decide_true by done.
  cbn [fst snd App.self device_files].
  rewrite Happly. clear Happly.
  destruct (is_raised (result r)) eqn:Hraised.
  - split_and!; [done| |done].
    intros x Hx. unfold exception_of. cbn [copy_outcomes last].
    rewrite Hx. by cbn.
  - split_and!; [done| |].
    { intros x Hx. rewrite Hx in Hraised. done. }
    intros _.
    assert (∀ st, (match exception_of
                           (mk_sync_report [result r] (copied_count [result r])
                              (prune_calls env marked (fs_after r))
                              (deleted_count
                                 (prune_calls env marked (fs_after r)))
                              (prune_fs env marked (fs_after r))) with
                   | Some x =>
                       (App.exit
                          (App.Exit_result
                             ("An error occurred: " +:+ failure_text env x))
                          st,
                        prune_fs env marked (fs_after r))
                   | None =>
                       (App.show_unmount_screen st,
                        prune_fs env marked (fs_after r))
                   end).2 = prune_fs env marked (fs_after r)) as Hsnd.
    { intros st. by destruct (exception_of _). }
    pose proof (get_device_files_NoDup env new_DeviceManager fs) as Hnd.
    fold scan in Hnd.
    split.
    + cbn [final_fs]. rewrite Hsnd.
      apply prune_fs_other. rewrite Hmarked. intros Hin.
      apply list_elem_of_fmap in Hin as (g & Hg & Hin).
      apply list_elem_of_lookup in Hin as [k Hk].
      destruct (decide (k < j)%nat) as [Hlt|Hge].
      * rewrite list_lookup_delete_lt in Hk by done.
        assert (k = j); [|lia].
        eapply NoDup_lookup; [exact Hnd| |].
        -- by rewrite list_lookup_fmap, Hk.
        -- rewrite list_lookup_fmap, Hj. cbn. by rewrite Hg.
      * rewrite list_lookup_delete_ge in Hk by lia.
        assert (S k = j); [|lia].
        eapply NoDup_lookup; [exact Hnd| |].
        -- by rewrite list_lookup_fmap, Hk.
        -- rewrite list_lookup_fmap, Hj. cbn. by rewrite Hg.
    + intros Hdel.
      pose proof (deletable_reported _ _ Hdel) as Hrep.
      rewrite <- Hmarked in Hrep.
      rewrite exception_of_None;
        [|by cbn; rewrite Hraised | by apply prune_calls_reported].
      cbn [fst snd final_fs]. split_and!; [done..|].
      intros g Hg Hne'.
      assert (g ∈ marked ∧ keep g = false ∧ g ∈ delete j scan)
        as (Hin & Hk & Hin').
      { apply list_elem_of_lookup in Hg as [k Hk].
        assert (keep g = false) as Hkeep.
        { pose proof (get_device_files_each env new_DeviceManager fs)
            as Heach.
          rewrite Forall_forall in Heach.
          by apply (Heach g (list_elem_of_lookup_2 _ _ _ Hk)). }
        assert (k ≠ j) as Hkj by (intros ->; congruence).
        split_and!; [|done|].
        - apply list_elem_of_lookup. exists k.
          subst marked. by rewrite list_lookup_alter_ne.
        - apply list_elem_of_lookup.
          destruct (decide (k < j)%nat).
          + exists k. by rewrite list_lookup_delete_lt.
          + exists (pred k). rewrite list_lookup_delete_ge by lia.
            by replace (S (pred k)) with k by lia. }
      apply prune_fs_gone; [done| |done..].
      unfold deletable in Hdel. rewrite Forall_forall in Hdel.
      by apply (Hdel g Hin').
Qed.

Lemma check_continue_check_apply_witness :
  let e := mk_PodcastEpisode "Day one" "Show" "/Users/me/Cache/one.mp3"
             (mk_datetime 2001 1 2 0 0 0) false in
  let f := new_DeviceFile "talk.mp3" ["Volumes"; "XTRAINERZ"; "talk.mp3"] in
  let st1 := App.on_mount home_env (App.init home flat_disk) flat_disk in
  let s2 :=
    App.on_button_pressed home_env diskutil_fails "continue-btn"
      (App.episode_checkbox_changed 0 true st1) flat_disk in
  let st2 := App.device_file_checkbox_changed 1 true s2.1 in
  let s3 :=
    App.on_button_pressed home_env diskutil_fails "apply-btn" st2 s2.2 in
  let checked :=
    mk_PodcastEpisode (title e) (podcast e) (file_path e) (date_added e)
      true in
  let r := copy_episode home_env new_DeviceManager checked flat_disk in
  copy_outcomes (apply_changes home_env (App.self st2) s2.2) = [result r]
  ∧ s3.2 !! df_path f = fs_after r !! df_path f
  ∧ App.current_screen s3.1 = "unmount"
  ∧ ∀ g, g ∈ get_device_files home_env new_DeviceManager flat_disk →
         g ≠ f → FS.is_file s3.2 (df_path g) = false.
Proof.
  destruct (check_continue_check_apply home_env diskutil_fails home
              flat_disk 0 1
              (mk_PodcastEpisode "Day one" "Show" "/Users/me/Cache/one.mp3"
                 (mk_datetime 2001 1 2 0 0 0) false)
              (new_DeviceFile "talk.mp3"
                 ["Volumes"; "XTRAINERZ"; "talk.mp3"]))
    as (H1 & _ & H3); [reflexivity | compute_done..|].
  destruct H3 as [H4 H5]; [compute_done|].
  destruct H5 as (H6 & _ & H7); [by apply deletable_all|].
  by split_and!.
Defined.

